(** * Climate-economy insight assistant: the data-access resilience layer

    A shallow embedding of the services of the dashboard that fetch, cache,
    retry, poll and degrade:

    - [errorService.ts]       validation rules, error construction, [withRetry];
    - [bigqueryService.ts]    the TTL cache, the forecast pipeline and its
                              demo/fallback generators;
    - [realTimeService.ts]    per-topic subscriptions, polling timers, alerts;
    - [vectorSearchService.ts] the similarity-results cache;
    - [ClimateInsightEngine.tsx] the engine's validation gate and mock fallback.

    Modelling conventions.
    - A JavaScript number is an exact rational ([Q]); where the code can
      produce [NaN] (a missing cell run through [parseFloat], arithmetic on
      a value that is not a number) the type [number] adds it.  Infinities
      and rounding error of doubles are outside the model.
    - A promise is the value it settles to: [Resolved a] or [Rejected e].
    - Mutable service fields are threaded explicitly; the browser clock, the
      stream of [Math.random()] draws and the count of remote calls form the
      [World].
    - A [Map] keyed by strings is a [gmap string _].
    - An object literal used as a table ([table[key] || fallback]) inherits
      from [Object.prototype]: a key that names one of its members finds that
      member, not [undefined], whatever the literal lists.  Such a lookup
      returns a [found] value.
    - An [async] method runs up to each [await] in one piece; where a claim
      depends on calls that overlap, the pieces are separate steps.
    - Listeners and error handlers are foreign code.  What one of them calls
      on the service while it runs is a parameter of the model; arrays the
      service walks with [forEach] are read anew at every index, as the
      callbacks can change them under the walk. *)

From Stdlib Require Import ZArith QArith Qround Qabs Lqa Lia Ascii String.
From Equations Require Import Equations.
From stdpp Require Import gmap strings list fin_maps pretty.

Local Open Scope string_scope.
Local Open Scope Z_scope.

(** ** Settled promises and thrown values *)

Inductive ErrorSeverity := LOW | MEDIUM | HIGH | CRITICAL.
Inductive ErrorCategory := NETWORK | API | VALIDATION | UI | PERFORMANCE | SECURITY.

(** [AppError] of errorService.ts.  Of the context only [component] and
    [action] are kept: the session id, time stamp, user agent and URL are
    read from the browser and no code path inspects them. *)
Record AppError := mkAppError {
  message : string;
  code : string;
  severity : ErrorSeverity;
  category : ErrorCategory;
  component : string;
  action : string;
  recoverable : bool;
  userMessage : string;
  technicalDetails : string
}.

(** What a [throw] carries: a plain [Error] or an [AppError]. *)
Inductive exn :=
| PlainError (msg : string)
| AppErr (e : AppError).

Definition exn_message (e : exn) : string :=
  match e with PlainError m => m | AppErr a => message a end.

Inductive outcome (A : Type) :=
| Resolved (a : A)
| Rejected (e : exn).
Arguments Resolved {A} a.
Arguments Rejected {A} e.

(** ** The world outside the services *)

Record World := mkWorld {
  now : Z;          (* Date.now(), milliseconds *)
  draws : nat;      (* Math.random() draws consumed so far *)
  calls : nat       (* remote calls issued so far *)
}.

(** [await new Promise(resolve => setTimeout(resolve, delay))] *)
Definition sleep (delay : Z) (w : World) : World :=
  mkWorld (now w + delay) (draws w) (calls w).

Definition tick_call (w : World) : World :=
  mkWorld (now w) (draws w) (S (calls w)).

Definition tick_draw (w : World) : World :=
  mkWorld (now w) (S (draws w)) (calls w).

(** ** JavaScript numbers *)

(** A finite number or [NaN]. *)
Inductive number :=
| Num (q : Q)
| NaN.

(** [a <= b] and [a >= b] on numbers: false as soon as one side is [NaN]. *)
Definition num_leb (a b : number) : bool :=
  match a, b with
  | Num x, Num y => Qle_bool x y
  | _, _ => false
  end.

Definition num_geb (a b : number) : bool := num_leb b a.

(** [Math.round]: the nearest integer, halves rounded up. *)
Definition Math_round (x : Q) : Z := Qfloor (x + (1 # 2)).

(** [Math.round(x * 100) / 100] *)
Definition round2 (x : Q) : Q := (inject_Z (Math_round (x * 100)) / 100)%Q.

(** [a + b], [a * b] and the like: [NaN] as soon as one side is. *)
Definition num_map2 (op : Q -> Q -> Q) (a b : number) : number :=
  match a, b with
  | Num x, Num y => Num (op x y)
  | _, _ => NaN
  end.

(** The finite numbers of a list, if all of them are. *)
Definition nums (values : list number) : option (list Q) :=
  mapM (fun v => match v with Num q => Some q | NaN => None end) values.

(** ** Object literals used as tables *)

(** The members every object literal inherits from [Object.prototype]
    (ECMAScript, Annex B included).  All of them are functions but
    [__proto__], which reads as the prototype object itself; all are truthy,
    none is iterable, and in arithmetic each converts to [NaN], or, under
    [+], to a string. *)
Definition objectPrototypeNames : list string :=
  [ "constructor"; "toString"; "toLocaleString"; "valueOf"; "hasOwnProperty";
    "isPrototypeOf"; "propertyIsEnumerable"; "__proto__"; "__defineGetter__";
    "__defineSetter__"; "__lookupGetter__"; "__lookupSetter__" ].

(** What [table[key] || fallback] evaluates to: a value of the type the code
    expects (an entry of the table, or the fallback), or the member of
    [Object.prototype] that the key names. *)
Inductive found (A : Type) :=
| Own (a : A)
| Inherited (name : string).
Arguments Own {A} a.
Arguments Inherited {A} name.

Fixpoint own {A} (table : list (string * A)) (key : string) : option A :=
  match table with
  | [] => None
  | (k, a) :: rest => if String.eqb key k then Some a else own rest key
  end.

(** [table[key] || fallback]; every entry of the tables of this program is
    truthy. *)
Definition lookup_or {A} (table : list (string * A)) (key : string)
    (fallback : A) : found A :=
  match own table key with
  | Some a => Own a
  | None =>
      if bool_decide (key ∈ objectPrototypeNames) then Inherited key
      else Own fallback
  end.

(** [for (let i = 0; i < bound; i++)]: the number of rounds.  Against a
    bound that is not a number the test [i < bound] is false at once. *)
Definition iterations (bound : found nat) : nat :=
  match bound with
  | Own n => n
  | Inherited _ => 0%nat
  end.

(** ** errorService.ts *)

Module ErrorService.

Record ErrorConfig := mkErrorConfig {
  enableLogging : bool;
  enableAnalytics : bool;
  enableUserFeedback : bool;
  maxRetries : nat;
  retryDelay : Z
}.

(** The singleton's configuration. *)
Definition errorServiceConfig : ErrorConfig :=
  mkErrorConfig true true true 3 1000.

Record t := mkErrorService {
  config : ErrorConfig;
  errorLog : list AppError;
  retryCount : gmap string nat
}.

Definition new (c : ErrorConfig) : t := mkErrorService c [] ∅.

(** [export const errorService = new ErrorService({...})] *)
Definition errorService : t := new errorServiceConfig.

Definition generateUserMessage (c : ErrorCategory) (s : ErrorSeverity) : string :=
  match c, s with
  | NETWORK, LOW => "Connection issue detected"
  | NETWORK, MEDIUM => "Network connection problem"
  | NETWORK, HIGH => "Unable to connect to climate data services"
  | NETWORK, CRITICAL => "Critical network failure - please check your connection"
  | API, LOW => "Data retrieval delay"
  | API, MEDIUM => "Climate data service temporarily unavailable"
  | API, HIGH => "Unable to fetch climate data"
  | API, CRITICAL => "Climate data services are currently down"
  | VALIDATION, LOW => "Please check your input"
  | VALIDATION, MEDIUM => "Invalid data provided"
  | VALIDATION, HIGH => "Required information is missing or incorrect"
  | VALIDATION, CRITICAL => "Critical data validation failure"
  | _, _ => "An unexpected error occurred"
  end.

(** [createError]: the partial context overrides the defaults
    [component: 'unknown'], [action: 'unknown']. *)
Definition createError (msg code_ : string) (sev : ErrorSeverity)
    (cat : ErrorCategory) (ctx_component ctx_action : option string)
    (recov : bool) : AppError :=
  mkAppError msg code_ sev cat
    (default "unknown" ctx_component) (default "unknown" ctx_action)
    recov (generateUserMessage cat sev) msg.

(** [maxRetries || this.config.maxRetries]: an omitted or zero argument falls
    back to the configuration. *)
Definition effectiveRetries (c : ErrorConfig) (maxRetries_arg : option nat) : nat :=
  match maxRetries_arg with
  | Some (S n) => S n
  | _ => maxRetries c
  end.

(** [this.retryCount.get(operationId) || 0] *)
Definition currentRetryCount (es : t) (operationId : string) : nat :=
  default 0%nat (retryCount es !! operationId).

Definition setRetryCount (es : t) (operationId : string) (n : nat) : t :=
  mkErrorService (config es) (errorLog es) (<[operationId := n]> (retryCount es)).

Definition deleteRetryCount (es : t) (operationId : string) : t :=
  mkErrorService (config es) (errorLog es) (delete operationId (retryCount es)).

Definition retryExhausted (retries : nat) (operationId : string) (error : exn) : AppError :=
  createError
    ("Operation failed after " ++ pretty retries ++ " retries: " ++ exn_message error)
    "RETRY_EXHAUSTED" HIGH API None (Some operationId) false.

(** [Math.pow(2, currentRetryCount)] scaled by the base delay. *)
Definition backoffDelay (c : ErrorConfig) (attempt : nat) : Z :=
  retryDelay c * 2 ^ Z.of_nat attempt.

(** [withRetry].  The operation acts on the world only: it does not re-enter
    the error service, and no second call for the same id is interleaved
    with this one. *)
Equations? withRetry {T : Type} (operation : World -> outcome T * World)
    (operationId : string) (maxRetries_arg : option nat)
    (st : t * World) : outcome T * (t * World)
    by wf (S (effectiveRetries (config (fst st)) maxRetries_arg)
           - currentRetryCount (fst st) operationId)%nat lt :=
withRetry operation operationId maxRetries_arg (es, w) with operation w := {
  | (Resolved result, w') =>
      (Resolved result, (deleteRetryCount es operationId, w'))
  | (Rejected error, w')
      with decide (currentRetryCount es operationId
                   < effectiveRetries (config es) maxRetries_arg)%nat := {
    | left _ =>
        withRetry operation operationId maxRetries_arg
          (setRetryCount es operationId (currentRetryCount es operationId + 1),
           sleep (backoffDelay (config es) (currentRetryCount es operationId)) w')
    | right _ =>
        (Rejected (AppErr (retryExhausted
                     (effectiveRetries (config es) maxRetries_arg)
                     operationId error)),
         (deleteRetryCount es operationId, w'))
    }
  }.
Proof.
  unfold currentRetryCount, setRetryCount in *. simpl in *.
  rewrite lookup_insert_eq. simpl. lia.
Qed.

(** *** Validation *)

(** The values a validated field can hold. *)
Inductive jsval :=
| VUndefined
| VNull
| VString (s : string)
| VNumber (n : number)
| VBool (b : bool).

Inductive RuleType := required | string_rule | number_rule | email | custom.

Record ValidationRule := mkRule {
  field : string;
  type : RuleType;
  rule_message : string;
  validator : option (jsval -> bool);
  min : option Q;
  max : option Q
}.

Record ValidationResult := mkValidationResult {
  isValid : bool;
  errors : list (string * string)     (* field, message *)
}.

(** The character class [[^\\s@]] of the e-mail pattern as the source spells
    it inside a regex literal: anything but a backslash, the letter [s] and
    [@]. *)
Definition email_class (c : ascii) : bool :=
  negb (Ascii.eqb c "\"%char || Ascii.eqb c "s"%char || Ascii.eqb c "@"%char).

(** [.] of a regex: any character but a line terminator. *)
Definition regex_dot (c : ascii) : bool :=
  negb (Ascii.eqb c "010"%char || Ascii.eqb c "013"%char).

(** Longest prefix of class characters, and the rest. *)
Fixpoint span_class (s : string) : string * string :=
  match s with
  | String c s' =>
      if email_class c then
        let '(a, b) := span_class s' in (String c a, b)
      else (EmptyString, s)
  | EmptyString => (EmptyString, EmptyString)
  end.

(** [/^[^\\s@]+@[^\\s@]+\\.[^\\s@]+$/.test(value)].  The three classes exclude
    the separators that follow them, so the match is deterministic: a
    non-empty class run, [@], a non-empty class run, a backslash, one
    character, a non-empty class run up to the end. *)
Definition email_regex_test (value : string) : bool :=
  match span_class value with
  | (String _ _, String "@" rest) =>
      match span_class rest with
      | (String _ _, String "\" (String c rest')) =>
          regex_dot c &&
          match span_class rest' with
          | (String _ _, EmptyString) => true
          | _ => false
          end
      | _ => false
      end
  | _ => false
  end.

Definition Qgeb (a b : Q) : bool := Qle_bool b a.

Definition check_rule (rule : ValidationRule) (value : jsval) : bool :=
  match type rule with
  | required =>
      match value with
      | VUndefined | VNull | VString "" => false
      | _ => true
      end
  | string_rule =>
      match value with
      | VString s =>
          let len := inject_Z (Z.of_nat (String.length s)) in
          match min rule with Some m => Qgeb len m | None => true end
          && match max rule with Some m => Qle_bool len m | None => true end
      | _ => false
      end
  | number_rule =>
      match value with
      | VNumber (Num q) =>
          match min rule with Some m => Qgeb q m | None => true end
          && match max rule with Some m => Qle_bool q m | None => true end
      | _ => false
      end
  | email =>
      match value with
      | VString s => email_regex_test s
      | _ => false
      end
  | custom =>
      match validator rule with
      | Some v => v value
      | None => true
      end
  end.

(** [data[rule.field]] *)
Definition get_field (data : gmap string jsval) (f : string) : jsval :=
  default VUndefined (data !! f).

Definition validate (data : gmap string jsval) (rules : list ValidationRule)
    : ValidationResult :=
  let errs :=
    omap (fun rule =>
            if check_rule rule (get_field data (field rule)) then None
            else Some (field rule, rule_message rule)) rules in
  mkValidationResult (bool_decide (errs = [])) errs.

(** [[...].includes(value)] on string literals. *)
Definition includes (l : list string) (value : jsval) : bool :=
  match value with
  | VString s => bool_decide (s ∈ l)
  | _ => false
  end.

Definition climateRules : list ValidationRule :=
  [ mkRule "indicator" required "Climate indicator is required" None None None;
    mkRule "indicator" custom "Invalid climate indicator"
      (Some (includes ["co2"; "avg_temperature"; "gdp"; "renewable_adoption"]))
      None None;
    mkRule "region" string_rule "Region must be a valid string" None
      (Some 2%Q) (Some 100%Q);
    mkRule "timeRange" custom "Invalid time range"
      (Some (includes ["1y"; "5y"; "10y"])) None None ].

Definition validateClimateData (data : gmap string jsval) : ValidationResult :=
  validate data climateRules.

(** *** Error handling *)

(** [normalizeError]: an error that already carries [code] and [severity]
    is kept, a plain one is wrapped. *)
Definition normalizeError (error : exn) : AppError :=
  match error with
  | AppErr a => a
  | PlainError m =>
      createError m "UNKNOWN_ERROR" MEDIUM API None (Some "unknown") true
  end.

(** [this.errorLog.slice(-100)] *)
Definition last_n {A} (n : nat) (l : list A) : list A :=
  drop (List.length l - n) l.

Definition logError (es : t) (error : AppError) : t :=
  if enableLogging (config es) then
    let log := (errorLog es ++ [error])%list in
    mkErrorService (config es)
      (if decide (100 < List.length log)%nat then last_n 100 log else log)
      (retryCount es)
  else es.

(** [handleError]: analytics, user feedback and recovery only write to the
    console; the log is the one field it changes. *)
Definition handleError (es : t) (error : exn) : t :=
  logError es (normalizeError error).

Definition getErrorLog (es : t) : list AppError := errorLog es.

Definition clearErrorLog (es : t) : t :=
  mkErrorService (config es) [] (retryCount es).

End ErrorService.

(** ** The forecast shape shared by the service and the engine
    ([ForecastData] of ClimateInsightEngine.tsx) *)

Inductive Trend := increasing | decreasing | stable.

(** A point of a series.  [ts] is the instant the ISO string denotes, in
    milliseconds: for four-digit years the order of the strings is the order
    of the instants. *)
Record ForecastPoint := mkPoint {
  ts : Z;
  value : number;
  confidence_low : number;
  confidence_high : number
}.

(** [impact] and [recommendation] are read from tables keyed by the
    indicator, hence [found]. *)
Record Summary := mkSummary {
  trend : Trend;
  impact : found string;
  recommendation : found string;
  accuracy_score : Q
}.

Record ForecastData := mkForecastData {
  forecast : list ForecastPoint;
  summary : Summary
}.

(** [for (let i = start; i < start + n; i++) out.push(body(i))], the body
    acting on the world. *)
Fixpoint for_range {A} (body : nat -> World -> A * World) (start n : nat)
    (w : World) : list A * World :=
  match n with
  | O => ([], w)
  | S n' =>
      let '(a, w1) := body start w in
      let '(rest, w2) := for_range body (S start) n' w1 in
      (a :: rest, w2)
  end.

(** ** bigqueryService.ts *)

Module BigQueryService.

Inductive Mode := demo | bigquery.

Record ForecastRequest := mkRequest {
  indicator : string;
  region : string;
  timeRange : string;
  mode : Mode
}.

(** *** What the backend can send *)

(** A time-stamp cell: absent (or falsy), present but not a date (so that
    [toISOString] throws a RangeError), or an instant. *)
Inductive DateCell := NoDate | BadDate | GoodDate (instant : Z).

(** A cell of a legacy row [{ f: [{v: ...}, ...] }]: the string [v] read as a
    date and read by [parseFloat]. *)
Record LegacyCell := mkLegacyCell {
  v_date : DateCell;
  v_float : number
}.

(** A row handed to [formatForecastResult].  A numeric cell is [None] when
    null or undefined and otherwise its reading by [Number]. *)
Record Row := mkRow {
  forecast_timestamp : DateCell;
  row_timestamp : DateCell;
  row_ts : DateCell;
  forecast_value : option number;
  row_value : option number;
  confidence_lower_bound : option number;
  row_confidence_low : option number;
  confidence_upper_bound : option number;
  row_confidence_high : option number;
  f : option (list (option LegacyCell))
}.

(** The value of [AI.FORECAST], or of the local fallback: the fields the code
    reads or writes.  [raw_forecast = None] is a missing or falsy [forecast];
    [raw_rows = None] is a [rows] that is not an array; a [None] row is a
    null entry. *)
Record RawForecast := mkRawForecast {
  raw_forecast : option (list ForecastPoint);
  raw_rows : option (list (option Row));
  raw_trend : option number;
  seasonality_detected : option bool
}.

(** The untyped values the service caches and returns. *)
Inductive any :=
| AText (s : string)
| ABool (b : bool)
| ANumber (q : Q)
| AForecast (r : RawForecast).

(** First row of a job result: the columns the AI methods select. *)
Record ResponseRow := mkResponseRow {
  generated_text : option string;
  boolean_result : option bool;
  numeric_result : option Q;
  integer_result : option Q;
  forecast_result : option RawForecast
}.

Record BQResponse := mkResponse {
  jobComplete : bool;
  rows : list ResponseRow
}.

(** What the simulated call of the source returns. *)
Definition simulatedResponse : BQResponse := mkResponse true [].

(** *** Service state *)

Record CacheEntry (A : Type) := mkEntry {
  result : A;
  timestamp : Z
}.
Arguments mkEntry {A} result timestamp.
Arguments result {A} c.
Arguments timestamp {A} c.

Definition CACHE_TTL : Z := 300000.

Record BigQueryConfig := mkConfig {
  projectId : string;
  apiKey : option string
}.

Record t := mkService {
  bq_config : BigQueryConfig;
  authToken : option string;
  queryCache : gmap string (CacheEntry any)
}.

(** The constructor with [initializeAuth] run: a non-empty key becomes the
    token. *)
Definition new (c : BigQueryConfig) : t :=
  mkService c
    (match apiKey c with
     | Some "" | None => None
     | Some k => Some k
     end) ∅.

Definition getCachedResult {A} (cache : gmap string (CacheEntry A))
    (key : string) (now_ : Z) : option A :=
  match cache !! key with
  | Some cached =>
      if now_ - timestamp cached <? CACHE_TTL then Some (result cached) else None
  | None => None
  end.

Definition setCachedResult {A} (cache : gmap string (CacheEntry A))
    (key : string) (r : A) (now_ : Z) : gmap string (CacheEntry A) :=
  <[key := mkEntry r now_]> cache.

Definition clearCache (s : t) : t :=
  mkService (bq_config s) (authToken s) ∅.

(** *** Per-indicator tables *)

(** [horizons[timeRange] || 120] *)
Definition getTimeHorizon (timeRange_ : string) : found nat :=
  lookup_or [("1y", 12%nat); ("5y", 60%nat); ("10y", 120%nat)] timeRange_ 120%nat.

(** [baseValues[indicator] || 100] *)
Definition getBaseValue (indicator_ : string) : found Q :=
  lookup_or
    [ ("co2", 410%Q); ("avg_temperature", 145 # 10); ("gdp", 55000%Q);
      ("renewable_adoption", 25%Q) ]
    indicator_ 100%Q.

(** [trends[indicator] || 1] *)
Definition getTrendMultiplier (indicator_ : string) : found Q :=
  lookup_or
    [ ("co2", 25 # 10); ("avg_temperature", 15 # 100); ("gdp", 1200%Q);
      ("renewable_adoption", 2%Q) ]
    indicator_ 1%Q.

(** A template string: no table is read. *)
Definition getImpactMessage (indicator_ region_ : string) : found string :=
  Own ("Analysis for " ++ region_ ++ " shows significant " ++ indicator_
       ++ " pattern changes requiring strategic response.").

(** [recs[indicator] || 'Develop comprehensive climate strategy'] *)
Definition getRecommendation (indicator_ : string) : found string :=
  lookup_or
    [ ("co2", "Implement carbon pricing and invest in clean technology");
      ("avg_temperature", "Enhance climate adaptation infrastructure");
      ("gdp", "Develop green economic transition strategies");
      ("renewable_adoption", "Accelerate renewable energy deployment") ]
    indicator_ "Develop comprehensive climate strategy".

(** [baseValue + (i * trend) + (r - 0.5) * baseValue * 0.1], then
    [Math.round(x * 100) / 100] of the result and of 0.9 and 1.1 times it.
    With an inherited member for the base or the trend the sum is a string
    or [NaN], and each of the three rounded numbers is [NaN]. *)
Definition trendLineValue (baseValue trend_ : found Q) (i : nat) (r : Q)
    : option Q :=
  match baseValue, trend_ with
  | Own b, Own t =>
      Some (b + inject_Z (Z.of_nat i) * t + (r - (1 # 2)) * b * (1 # 10))%Q
  | _, _ => None
  end.

(** [val * factor] *)
Definition scaled (val : option Q) (factor : Q) : option Q :=
  match val with
  | Some v => Some (v * factor)%Q
  | None => None
  end.

(** [Math.round(val * 100) / 100] *)
Definition rounded (val : option Q) : number :=
  match val with
  | Some v => Num (round2 v)
  | None => NaN
  end.

(** [forecast.length > 1 && forecast[forecast.length - 1].value >=
    forecast[0].value ? 'increasing' : 'decreasing'] *)
Definition demoTrend (fc : list ForecastPoint) : Trend :=
  if (1 <? List.length fc)%nat
     && match fc !! 0%nat, last fc with
        | Some first_, Some last_ => num_geb (value last_) (value first_)
        | _, _ => false
        end
  then increasing else decreasing.

(** [forecast[0]?.value ?? 0], [forecast[forecast.length - 1]?.value ?? first],
    [last >= first ? 'increasing' : 'decreasing'] *)
Definition formatTrend (fc : list ForecastPoint) : Trend :=
  let first_ := match fc !! 0%nat with Some p => value p | None => Num 0 end in
  let last_ := match last fc with Some p => value p | None => first_ end in
  if num_geb last_ first_ then increasing else decreasing.

(** Historical points [{timestamp, value}] built by [getHistoricalData]. *)
Record DataRow := mkDataRow {
  d_timestamp : Z;
  d_value : number
}.

(** The state the service methods thread: the service itself, the error
    service singleton it calls, and the world. *)
Record Sys := mkSys {
  svc : t;
  err : ErrorService.t;
  world : World
}.

Section Generators.

(** [Math.random()]: the [n]-th draw of the page. *)
Variable rnd : nat -> Q.

(** The local calendar: the month (year * 12 + month index) an instant falls
    in, and the instant at which a month starts.  [new Date(y, m - k, 1)]
    normalises an out-of-range month, that is, subtracts [k] from the month
    ordinal. *)
Variable month_of : Z -> Z.
Variable month_start : Z -> Z.

Variable Math_sin : Q -> Q.
Variable Math_PI : Q.

(** The remote capability behind [executeBigQueryAI]: what the call numbered
    [n] answers to a query.  The source wires in [simulatedRemote]. *)
Variable remote : string -> nat -> outcome BQResponse.

(** The text of the [AI.FORECAST] query and of
    [JSON.stringify({ data, horizon })]. *)
Variable forecastQuery : list DataRow -> found nat -> string.
Variable JSON_stringify : list DataRow -> found nat -> string.

Definition random (w : World) : Q * World := (rnd (draws w), tick_draw w).

(** **** The demo generator *)

(** One iteration of the loop of [generateDemoForecast]. *)
Definition demoPoint (end_ : Z) (horizon : nat) (baseValue trend_ : found Q)
    (i : nat) (w : World) : ForecastPoint * World :=
  let date := month_start (end_ - (Z.of_nat horizon - 1 - Z.of_nat i)) in
  let '(r, w1) := random w in
  let val := trendLineValue baseValue trend_ i r in
  (mkPoint date (rounded val) (rounded (scaled val (9 # 10)))
     (rounded (scaled val (11 # 10))),
   w1).

Definition generateDemoForecast (request : ForecastRequest) (w : World)
    : ForecastData * World :=
  let horizon := iterations (getTimeHorizon (timeRange request)) in
  let end_ := month_of (now w) in
  let baseValue := getBaseValue (indicator request) in
  let trend_ := getTrendMultiplier (indicator request) in
  let '(fc, w1) := for_range (demoPoint end_ horizon baseValue trend_) 0 horizon w in
  let trendDirection := demoTrend fc in
  let '(r, w2) := random w1 in
  (mkForecastData fc
     (mkSummary trendDirection
        (getImpactMessage (indicator request) (region request))
        (getRecommendation (indicator request))
        ((85 # 100) + r * (1 # 10))%Q),
   w2).

(** **** The result formatter *)

(** [a || b] on time-stamp cells *)
Definition date_or (a b : DateCell) : DateCell :=
  match a with NoDate => b | _ => a end.

(** [a ?? b] *)
Definition nullish {A} (a b : option A) : option A :=
  match a with Some _ => a | None => b end.

(** [f[i]?.v] *)
Definition legacy (f_ : list (option LegacyCell)) (i : nat) : option LegacyCell :=
  mjoin (f_ !! i).

(** [f ? f[0]?.v : undefined] *)
Definition legacy_date (f_ : option (list (option LegacyCell))) : DateCell :=
  match f_ with
  | Some l => match legacy l 0 with Some c => v_date c | None => NoDate end
  | None => NoDate
  end.

(** [f ? parseFloat(f[i]?.v) : undefined] *)
Definition legacy_float (f_ : option (list (option LegacyCell))) (i : nat)
    : option number :=
  match f_ with
  | Some l => Some (match legacy l i with Some c => v_float c | None => NaN end)
  | None => None
  end.

(** [typeof x === 'number' ? x : Number(x ?? 0)] *)
Definition to_number (x : option number) : number := default (Num 0) x.

(** The body of [rows.map]; [None] when it throws (a null row, or a time
    stamp that is not a date). *)
Definition formatRow (now_ : Z) (row : option Row) : option ForecastPoint :=
  match row with
  | None => None
  | Some row =>
      let rt := date_or (forecast_timestamp row)
                  (date_or (row_timestamp row)
                     (date_or (row_ts row) (forecast_timestamp row))) in
      let rv := nullish (forecast_value row)
                  (nullish (row_value row) (forecast_value row)) in
      let cl := nullish (confidence_lower_bound row)
                  (nullish (row_confidence_low row) (confidence_lower_bound row)) in
      let ch := nullish (confidence_upper_bound row)
                  (nullish (row_confidence_high row) (confidence_upper_bound row)) in
      let ts_ := date_or rt (legacy_date (f row)) in
      let value_ := nullish rv (legacy_float (f row) 1) in
      let confidence_low_ := nullish cl (legacy_float (f row) 2) in
      let confidence_high_ := nullish ch (legacy_float (f row) 3) in
      match ts_ with
      | BadDate => None
      | NoDate =>
          Some (mkPoint now_ (to_number value_) (to_number confidence_low_)
                  (to_number confidence_high_))
      | GoodDate z =>
          Some (mkPoint z (to_number value_) (to_number confidence_low_)
                  (to_number confidence_high_))
      end
  end.

(** [rows.map(...)] inside the [try]: [None] as soon as one row throws. *)
Definition formatRows (now_ : Z) (rows_ : list (option Row))
    : option (list ForecastPoint) :=
  mapM (formatRow now_) rows_.

Definition formatForecastResult (result_ : RawForecast)
    (request : ForecastRequest) (w : World) : ForecastData * World :=
  let rows_ := default [] (raw_rows result_) in
  match rows_ with
  | [] => generateDemoForecast request w
  | _ :: _ =>
      match formatRows (now w) rows_ with
      | Some fc =>
          (mkForecastData fc
             (mkSummary (formatTrend fc)
                (getImpactMessage (indicator request) (region request))
                (getRecommendation (indicator request))
                (88 # 100)),
           w)
      | None => generateDemoForecast request w
      end
  end.

(** **** The local fallback of [forecastTimeSeries] *)

Definition Qsum (l : list Q) : Q := foldl Qplus 0%Q l.

Definition Qlen {A} (l : list A) : Q := inject_Z (Z.of_nat (List.length l)).

(** [values.reduce((sum, val, idx) => sum + val * idx, 0)] *)
Definition sum_val_idx (values : list Q) : Q :=
  Qsum (imap (fun idx val => (val * inject_Z (Z.of_nat idx))%Q) values).

(** The least-squares slope of finite values against their index. *)
Definition slope (values : list Q) : Q :=
  let n := Qlen values in
  let sumX := (n * (n - 1) / 2)%Q in
  let sumY := Qsum values in
  let sumXY := sum_val_idx values in
  let sumXX := (n * (n - 1) * (2 * n - 1) / 6)%Q in
  ((n * sumXY - sumX * sumY) / (n * sumXX - sumX * sumX))%Q.

(** [calculateTrend]: one [NaN] among two or more values makes both sums,
    and the slope, [NaN]. *)
Definition calculateTrend (values : list number) : number :=
  if (List.length values <? 2)%nat then Num 0
  else
    match nums values with
    | Some qs => Num (slope qs)
    | None => NaN
    end.

(** The autocorrelation of finite values at a lag. *)
Definition autocorrelation (values : list Q) (lag : nat) : Q :=
  let mean := (Qsum values / Qlen values)%Q in
  let num :=
    Qsum (map (fun i =>
                 ((default 0%Q (values !! i) - mean)
                  * (default 0%Q (values !! (i + lag)%nat) - mean))%Q)
            (seq 0 (List.length values - lag))) in
  let den := Qsum (map (fun v => ((v - mean) * (v - mean))%Q) values) in
  if Qeq_bool den 0 then 0%Q else (num / den)%Q.

(** [calculateAutocorrelation]: with a [NaN] among the values the mean and
    both sums are [NaN], [den === 0] is false and the quotient is [NaN]. *)
Definition calculateAutocorrelation (values : list number) (lag : nat) : number :=
  if (List.length values <=? lag)%nat then Num 0
  else
    match nums values with
    | Some qs => Num (autocorrelation qs lag)
    | None => NaN
    end.

(** [values.length >= 12 && Math.abs(autocorrelation) > 0.3]; false for
    [NaN]. *)
Definition detectSeasonality (values : list number) : bool :=
  (12 <=? List.length values)%nat
  && match calculateAutocorrelation values 12 with
     | Num a => negb (Qle_bool (Qabs a) (3 # 10))
     | NaN => false
     end.

Definition THIRTY_DAYS : Z := 30 * 24 * 60 * 60 * 1000.

(** One iteration of the loop of [generateIntelligentForecast].  With no
    history [values[values.length - 1]] is undefined, and with a [NaN] as
    last value or as trend the base value is [NaN]: every number of the
    point is then [NaN]; the random draw is made all the same.  (A [NaN]
    among two or more values makes the trend [NaN], so the finite case is the
    one where all values are finite.) *)
Definition intelligentPoint (values : list number) (trend_ : number)
    (seasonality : bool) (i : nat) (w : World) : ForecastPoint * World :=
  let '(r, w1) := random w in
  let stamp := now w + Z.of_nat i * THIRTY_DAYS in
  match nums values, trend_ with
  | Some qs, Num slope_ =>
      match last qs with
      | None => (mkPoint stamp NaN NaN NaN, w1)
      | Some last_ =>
          let baseValue := (last_ + slope_ * inject_Z (Z.of_nat i))%Q in
          let seasonal :=
            if seasonality then
              (Math_sin (inject_Z (Z.of_nat i) * 2 * Math_PI / 12)
               * (Qsum qs / Qlen qs * (1 # 10)))%Q
            else 0%Q in
          let noise := ((r - (1 # 2)) * baseValue * (5 # 100))%Q in
          let v := (baseValue + seasonal + noise)%Q in
          (mkPoint stamp (Num v) (Num (v * (9 # 10))) (Num (v * (11 # 10))), w1)
      end
  | _, _ => (mkPoint stamp NaN NaN NaN, w1)
  end.

(** [horizon] is what the caller passes: [generateForecast] hands over the
    result of [getTimeHorizon]. *)
Definition generateIntelligentForecast (data : list DataRow) (horizon : found nat)
    (w : World) : RawForecast * World :=
  let values := map d_value data in
  let trend_ := calculateTrend values in
  let seasonality := detectSeasonality values in
  let '(fc, w1) :=
    for_range (intelligentPoint values trend_ seasonality) 0 (iterations horizon) w in
  (mkRawForecast (Some fc) None (Some trend_) (Some seasonality), w1).

(** **** The remote pipeline *)

Definition simulatedRemote (query : string) (n : nat) : outcome BQResponse :=
  Resolved simulatedResponse.

Definition queryRules : list ErrorService.ValidationRule :=
  [ ErrorService.mkRule "query" ErrorService.required
      "BigQuery query is required" None None None;
    ErrorService.mkRule "query" ErrorService.string_rule
      "Query must be a string" None (Some 10%Q) None ].

(** The operation handed to [withRetry]: 1.5 s pass, then the remote answers. *)
Definition remoteOperation (query : string) (w : World)
    : outcome BQResponse * World :=
  (remote query (calls w), sleep 1500 (tick_call w)).

Definition executeBigQueryAI (query : string) (s : Sys)
    : outcome BQResponse * Sys :=
  let validation :=
    ErrorService.validate {[ "query" := ErrorService.VString query ]} queryRules in
  let '(r, (es1, w1)) :=
    if ErrorService.isValid validation then
      ErrorService.withRetry (remoteOperation query)
        ("bigquery-" ++ substring 0 50 query) None (err s, world s)
    else
      (Rejected (AppErr (ErrorService.createError
         ("Query validation failed: "
          ++ String.concat ", " (map snd (ErrorService.errors validation)))
         "QUERY_VALIDATION_ERROR" MEDIUM VALIDATION
         (Some "BigQueryService") (Some "executeBigQueryAI") true)),
       (err s, world s)) in
  match r with
  | Resolved response => (Resolved response, mkSys (svc s) es1 w1)
  | Rejected error =>
      let appError :=
        ErrorService.createError
          ("BigQuery execution failed: " ++ exn_message error)
          "BIGQUERY_EXECUTION_ERROR" HIGH API
          (Some "BigQueryService") (Some "executeBigQueryAI") true in
      (Rejected (AppErr appError),
       mkSys (svc s) (ErrorService.handleError es1 (AppErr appError)) w1)
  end.

Definition with_cache (s : Sys) (c : gmap string (CacheEntry any)) : Sys :=
  mkSys (mkService (bq_config (svc s)) (authToken (svc s)) c) (err s) (world s).

Definition with_world (s : Sys) (w : World) : Sys :=
  mkSys (svc s) (err s) w.

(** [{ forecast: [], confidence_intervals: [] }] *)
Definition emptyForecast : RawForecast := mkRawForecast (Some []) None None None.

Definition forecastTimeSeries (data : list DataRow) (horizon : found nat) (s : Sys)
    : outcome any * Sys :=
  let cacheKey := "ai_forecast_" ++ JSON_stringify (take 5 data) horizon in
  match getCachedResult (queryCache (svc s)) cacheKey (now (world s)) with
  | Some cached => (Resolved cached, s)
  | None =>
      match executeBigQueryAI (forecastQuery data horizon) s with
      | (Resolved response, s1) =>
          let forecastResult :=
            default emptyForecast (head (rows response) ≫= forecast_result) in
          (Resolved (AForecast forecastResult),
           with_cache s1
             (setCachedResult (queryCache (svc s1)) cacheKey
                (AForecast forecastResult) (now (world s1))))
      | (Rejected _, s1) =>
          let '(fallback, w1) := generateIntelligentForecast data horizon (world s1) in
          (Resolved (AForecast fallback), with_world s1 w1)
      end
  end.

(** One iteration of the loop of [getHistoricalData]. *)
Definition historicalPoint (current : Z) (horizon : nat)
    (baseValue trend_ : found Q) (i : nat) (w : World) : DataRow * World :=
  let date := month_start (current - (Z.of_nat horizon - Z.of_nat i)) in
  let '(r, w1) := random w in
  (mkDataRow date (rounded (trendLineValue baseValue trend_ i r)), w1).

Definition getHistoricalData (request : ForecastRequest) (w : World)
    : outcome (list DataRow) * World :=
  let horizon := iterations (getTimeHorizon (timeRange request)) in
  let '(data, w1) :=
    for_range (historicalPoint (month_of (now w)) horizon
                 (getBaseValue (indicator request))
                 (getTrendMultiplier (indicator request))) 0 horizon w in
  (Resolved data, w1).

(** [forecastResult && forecastResult.forecast] *)
Definition has_forecast (a : any) : option RawForecast :=
  match a with
  | AForecast r =>
      match raw_forecast r with Some _ => Some r | None => None end
  | _ => None
  end.

Definition demoFallback (request : ForecastRequest) (s : Sys)
    : outcome ForecastData * Sys :=
  let '(d, w1) := generateDemoForecast request (world s) in
  (Resolved d, with_world s w1).

Definition generateForecast (request : ForecastRequest) (s : Sys)
    : outcome ForecastData * Sys :=
  match mode request with
  | demo => demoFallback request s
  | bigquery =>
      match getHistoricalData request (world s) with
      | (Rejected _, w1) => demoFallback request (with_world s w1)
      | (Resolved historicalData, w1) =>
          let horizon := getTimeHorizon (timeRange request) in
          match forecastTimeSeries historicalData horizon (with_world s w1) with
          | (Rejected _, s2) => demoFallback request s2
          | (Resolved forecastResult, s2) =>
              match has_forecast forecastResult with
              | Some r =>
                  let '(d, w3) := formatForecastResult r request (world s2) in
                  (Resolved d, with_world s2 w3)
              | None => demoFallback request s2
              end
          end
      end
  end.

(** [getAnalytics]: cache size, TTL, project and whether a token is held. *)
Definition getAnalytics (s : t) : nat * Z * string * bool :=
  (size (queryCache s), CACHE_TTL, projectId (bq_config s),
   bool_decide (is_Some (authToken s))).

End Generators.

End BigQueryService.

(** ** realTimeService.ts *)

Module RealTimeService.

Inductive Reliability := high | medium | low.

Record DataUpdate := mkUpdate {
  timestamp : Z;
  indicator : string;
  region : string;
  value : number;
  change : number;
  changePercent : number;
  source : found string;
  reliability : Reliability
}.

Inductive AlertType := absolute | percentage.
Inductive AlertDirection := increase | decrease | both.

Record AlertConfig := mkAlert {
  threshold : Q;
  type : AlertType;
  direction : AlertDirection
}.

Record RealTimeConfig := mkConfig {
  websocketUrl : option string;
  pollInterval : Z;
  retryAttempts : nat;
  enableNotifications : bool
}.

(** The singleton's configuration but for the URL, which comes from the
    build environment. *)
Definition realTimeConfig (url : option string) : RealTimeConfig :=
  mkConfig url 30000 5 true.

(** A listener is known by its identity, as [indexOf] compares functions. *)
Abbreviation UpdateCallback := nat.
Abbreviation ErrorCallback := nat.

(** What [lastValues] holds under a key: the number [fetchLatestData] put
    there, or the string that its sum produced from an operand that was not
    a number. *)
Inductive stored := Kept (n : number) | Garbled.

(** The fields of the service, the browser's table of running interval
    timers (each bound to the topic its closure captured) and the fetches
    whose promise is still pending; [delivered], [alerted] and [notified]
    record, in order, every listener invocation, every alert raised and
    every error handler invocation. *)
Record t := mkService {
  config : RealTimeConfig;
  subscribers : gmap string (list UpdateCallback);
  errorHandlers : list ErrorCallback;
  pollingIntervals : gmap string positive;
  alerts : gmap string AlertConfig;
  lastValues : gmap string stored;
  connectionRetries : nat;
  activeTimers : gmap positive (string * string);
  nextTimer : positive;
  inflight : list (string * string);
  delivered : list (UpdateCallback * DataUpdate);
  alerted : list DataUpdate;
  notified : list (ErrorCallback * exn)
}.

Definition new (c : RealTimeConfig) : t :=
  mkService c ∅ [] ∅ ∅ ∅ 0 ∅ 1%positive [] [] [] [].

(** [`${indicator}-${region}`] *)
Definition topicKey (indicator_ region_ : string) : string :=
  indicator_ ++ "-" ++ region_.

(** *** Polling *)

Definition stopPolling (key : string) (s : t) : t :=
  match pollingIntervals s !! key with
  | Some intervalId =>
      mkService (config s) (subscribers s) (errorHandlers s)
        (delete key (pollingIntervals s)) (alerts s) (lastValues s)
        (connectionRetries s) (delete intervalId (activeTimers s))
        (nextTimer s) (inflight s) (delivered s) (alerted s) (notified s)
  | None => s
  end.

(** [startPolling]: the old timer of the key, if any, is cleared, a new
    interval timer is registered, and one fetch is started at once. *)
Definition startPolling (indicator_ region_ : string) (s : t) : t :=
  let key := topicKey indicator_ region_ in
  let s1 := stopPolling key s in
  let intervalId := nextTimer s1 in
  mkService (config s1) (subscribers s1) (errorHandlers s1)
    (<[key := intervalId]> (pollingIntervals s1)) (alerts s1) (lastValues s1)
    (connectionRetries s1)
    (<[intervalId := (indicator_, region_)]> (activeTimers s1))
    (Pos.succ intervalId)
    (inflight s1 ++ [(indicator_, region_)])%list
    (delivered s1) (alerted s1) (notified s1).

(** *** Subscriptions *)

Definition set_subscribers (s : t) (m : gmap string (list UpdateCallback)) : t :=
  mkService (config s) m (errorHandlers s) (pollingIntervals s) (alerts s)
    (lastValues s) (connectionRetries s) (activeTimers s) (nextTimer s)
    (inflight s) (delivered s) (alerted s) (notified s).

Definition subscribe (indicator_ region_ : string) (callback : UpdateCallback)
    (s : t) : t :=
  let key := topicKey indicator_ region_ in
  let s1 :=
    match subscribers s !! key with
    | None => startPolling indicator_ region_ (set_subscribers s (<[key := []]> (subscribers s)))
    | Some _ => s
    end in
  set_subscribers s1
    (<[key := (default [] (subscribers s1 !! key) ++ [callback])%list]> (subscribers s1)).

(** [callbacks.indexOf(callback)] *)
Fixpoint indexOf (callbacks : list UpdateCallback) (callback : UpdateCallback)
    : option nat :=
  match callbacks with
  | [] => None
  | c :: rest =>
      if Nat.eqb c callback then Some 0%nat
      else S <$> indexOf rest callback
  end.

(** The function [subscribe] returns, for the key and listener it closed
    over. *)
Definition unsubscribe (key : string) (callback : UpdateCallback) (s : t) : t :=
  match subscribers s !! key with
  | Some callbacks =>
      match indexOf callbacks callback with
      | Some index =>
          let callbacks' := delete index callbacks in
          let s1 := set_subscribers s (<[key := callbacks']> (subscribers s)) in
          match callbacks' with
          | [] =>
              let s2 := stopPolling key s1 in
              set_subscribers s2 (delete key (subscribers s2))
          | _ :: _ => s1
          end
      | None => s
      end
  | None => s
  end.

(** *** Alerts *)

Definition setAlert (indicator_ region_ : string) (c : AlertConfig) (s : t) : t :=
  mkService (config s) (subscribers s) (errorHandlers s) (pollingIntervals s)
    (<[topicKey indicator_ region_ := c]> (alerts s))
    (lastValues s) (connectionRetries s) (activeTimers s) (nextTimer s)
    (inflight s) (delivered s) (alerted s) (notified s).

Definition removeAlert (indicator_ region_ : string) (s : t) : t :=
  mkService (config s) (subscribers s) (errorHandlers s) (pollingIntervals s)
    (delete (topicKey indicator_ region_) (alerts s))
    (lastValues s) (connectionRetries s) (activeTimers s) (nextTimer s)
    (inflight s) (delivered s) (alerted s) (notified s).

(** *** Error handlers *)

Definition set_errorHandlers (s : t) (handlers : list ErrorCallback) : t :=
  mkService (config s) (subscribers s) handlers (pollingIntervals s) (alerts s)
    (lastValues s) (connectionRetries s) (activeTimers s) (nextTimer s)
    (inflight s) (delivered s) (alerted s) (notified s).

Definition onError (callback : ErrorCallback) (s : t) : t :=
  set_errorHandlers s (errorHandlers s ++ [callback])%list.

(** The function [onError] returns, for the handler it closed over. *)
Definition offError (callback : ErrorCallback) (s : t) : t :=
  match indexOf (errorHandlers s) callback with
  | Some index => set_errorHandlers s (delete index (errorHandlers s))
  | None => s
  end.

Definition Qgeb (a b : Q) : bool := Qle_bool b a.

(** [a > b] *)
Definition Qgtb (a b : Q) : bool := negb (Qle_bool a b).

(** [Math.abs(a) >= b] and [a > 0]: a comparison with [NaN] is false. *)
Definition abs_geb (a : number) (b : Q) : bool :=
  match a with
  | Num x => Qgeb (Qabs x) b
  | NaN => false
  end.

Definition positive_number (a : number) : bool :=
  match a with
  | Num x => Qgtb x 0
  | NaN => false
  end.

(** The decision of [checkAlerts] for a rule: is [triggerAlert] called? *)
Definition alertFires (alertConfig : AlertConfig) (update : DataUpdate) : bool :=
  let triggered :=
    match type alertConfig with
    | absolute => abs_geb (change update) (threshold alertConfig)
    | percentage => abs_geb (changePercent update) (threshold alertConfig)
    end in
  if triggered then
    let direction_ :=
      if positive_number (change update) then increase else decrease in
    match direction alertConfig, direction_ with
    | both, _ => true
    | increase, increase => true
    | decrease, decrease => true
    | _, _ => false
    end
  else false.

Definition checkAlerts (update : DataUpdate) (s : t) : t :=
  match alerts s !! topicKey (indicator update) (region update) with
  | None => s
  | Some alertConfig =>
      if alertFires alertConfig update then
        mkService (config s) (subscribers s) (errorHandlers s)
          (pollingIntervals s) (alerts s) (lastValues s) (connectionRetries s)
          (activeTimers s) (nextTimer s) (inflight s) (delivered s)
          (alerted s ++ [update])%list (notified s)
      else s
  end.

(** [disconnect]: every timer of the service is cleared and every map
    emptied. *)
Definition disconnect (s : t) : t :=
  mkService (config s) ∅ [] ∅ ∅ ∅ (connectionRetries s)
    (map_fold (fun _ intervalId timers => delete intervalId timers)
       (activeTimers s) (pollingIntervals s))
    (nextTimer s) (inflight s) (delivered s) (alerted s) (notified s).

(** *** Listeners at work

    A listener is foreign code: while it runs it may call the service. What
    it calls is a function of the listener, of what it is handed and of the
    state it finds. A listener that throws is caught, the calls it made
    before stay made. *)

Inductive call :=
| CallSubscribe (indicator_ region_ : string) (callback : UpdateCallback)
| CallUnsubscribe (key : string) (callback : UpdateCallback)
| CallSetAlert (indicator_ region_ : string) (c : AlertConfig)
| CallRemoveAlert (indicator_ region_ : string)
| CallOnError (callback : ErrorCallback)
| CallOffError (callback : ErrorCallback)
| CallDisconnect.

Definition perform (c : call) (s : t) : t :=
  match c with
  | CallSubscribe i r cb => subscribe i r cb s
  | CallUnsubscribe key cb => unsubscribe key cb s
  | CallSetAlert i r a => setAlert i r a s
  | CallRemoveAlert i r => removeAlert i r s
  | CallOnError h => onError h s
  | CallOffError h => offError h s
  | CallDisconnect => disconnect s
  end.

(** [array.forEach(visit)] on an array that the visits can change: the
    indices below the length the array had at the start are walked in
    order, and an index is visited if the array has it when its turn
    comes. [content] reads the array off the state. *)
Fixpoint forEach {State Item : Type} (content : State -> list Item)
    (visit : Item -> State -> State) (k remaining : nat) (s : State) : State :=
  match remaining with
  | O => s
  | S remaining' =>
      match content s !! k with
      | Some x => forEach content visit (S k) remaining' (visit x s)
      | None => forEach content visit (S k) remaining' s
      end
  end.

(** The array [handleUpdate] walks is the one the map held under the key
    when the walk began. It stays the map's array while listeners are
    spliced out of it or pushed onto it; once the key is deleted (the last
    listener unsubscribed, leaving the array empty) or the map cleared
    ([disconnect], leaving the array as it was), the walk goes on over an
    array the service no longer reaches. *)
Inductive walk := Attached | Detached (content : list UpdateCallback).

Definition walked (key : string) (st : walk * t) : list UpdateCallback :=
  match fst st with
  | Attached => default [] (subscribers (snd st) !! key)
  | Detached content => content
  end.

Definition performWalking (key : string) (st : walk * t) (c : call) : walk * t :=
  let '(a, s) := st in
  let s' := perform c s in
  (match a with
   | Detached content => Detached content
   | Attached =>
       match c with
       | CallDisconnect => Detached (default [] (subscribers s !! key))
       | _ =>
           match subscribers s' !! key with
           | Some _ => Attached
           | None => Detached []
           end
       end
   end, s').

Definition record_delivery (callback : UpdateCallback) (update : DataUpdate)
    (s : t) : t :=
  mkService (config s) (subscribers s) (errorHandlers s) (pollingIntervals s)
    (alerts s) (lastValues s) (connectionRetries s) (activeTimers s)
    (nextTimer s) (inflight s) (delivered s ++ [(callback, update)])%list
    (alerted s) (notified s).

Definition record_notification (handler : ErrorCallback) (error : exn)
    (s : t) : t :=
  mkService (config s) (subscribers s) (errorHandlers s) (pollingIntervals s)
    (alerts s) (lastValues s) (connectionRetries s) (activeTimers s)
    (nextTimer s) (inflight s) (delivered s) (alerted s)
    (notified s ++ [(handler, error)])%list.

Section Listeners.

Variable react : UpdateCallback -> DataUpdate -> t -> list call.
Variable reactToError : ErrorCallback -> exn -> t -> list call.

(** One listener is invoked with the update. *)
Definition deliver (key : string) (update : DataUpdate)
    (callback : UpdateCallback) (st : walk * t) : walk * t :=
  let s1 := record_delivery callback update (snd st) in
  foldl (performWalking key) (fst st, s1) (react callback update s1).

(** [handleUpdate]: alerts first, then [forEach] over the array of
    listeners registered under the key of the update. *)
Definition handleUpdate (update : DataUpdate) (s : t) : t :=
  let key := topicKey (indicator update) (region update) in
  let s1 := checkAlerts update s in
  match subscribers s1 !! key with
  | Some callbacks =>
      snd (forEach (walked key) (deliver key update) 0 (List.length callbacks)
             (Attached, s1))
  | None => s1
  end.

(** One error handler is invoked with the error. *)
Definition notify (error : exn) (handler : ErrorCallback) (s : t) : t :=
  let s1 := record_notification handler error s in
  foldl (fun s c => perform c s) s1 (reactToError handler error s1).

(** [notifyError]: [forEach] over [errorHandlers], an array the service
    keeps for its whole life. *)
Definition notifyError (error : exn) (s : t) : t :=
  forEach errorHandlers (notify error) 0 (List.length (errorHandlers s)) s.

End Listeners.

(** *** The connection *)

(** [onopen] *)
Definition connectionOpened (s : t) : t :=
  mkService (config s) (subscribers s) (errorHandlers s) (pollingIntervals s)
    (alerts s) (lastValues s) 0 (activeTimers s) (nextTimer s) (inflight s)
    (delivered s) (alerted s) (notified s).

(** [attemptReconnection]: the delay before the next connection attempt, if
    one is scheduled. *)
Definition attemptReconnection (s : t) : option Z * t :=
  if (connectionRetries s <? retryAttempts (config s))%nat then
    let retries := S (connectionRetries s) in
    (Some (Z.min (1000 * 2 ^ Z.of_nat retries) 30000),
     mkService (config s) (subscribers s) (errorHandlers s)
       (pollingIntervals s) (alerts s) (lastValues s) retries
       (activeTimers s) (nextTimer s) (inflight s) (delivered s) (alerted s)
       (notified s))
  else (None, s).

(** *** The simulated feed *)

Definition getBaseValue (indicator_ : string) : found Q :=
  lookup_or
    [ ("co2", 415%Q); ("avg_temperature", 148 # 10); ("gdp", 52000%Q);
      ("renewable_adoption", 28%Q) ]
    indicator_ 100%Q.

Definition getVolatility (indicator_ : string) : found Q :=
  lookup_or
    [ ("co2", 2 # 1000); ("avg_temperature", 1 # 100); ("gdp", 5 # 1000);
      ("renewable_adoption", 3 # 1000) ]
    indicator_ (5 # 1000).

(** [trends[indicator] || 0] *)
Definition getTrend (indicator_ : string) : found Q :=
  lookup_or
    [ ("co2", 5 # 10); ("avg_temperature", 3 # 10); ("gdp", 2 # 10);
      ("renewable_adoption", 1%Q) ]
    indicator_ 0%Q.

Definition getDataSource (indicator_ : string) : found string :=
  lookup_or
    [ ("co2", "NOAA Global Monitoring Laboratory");
      ("avg_temperature", "NASA GISS Temperature Data");
      ("gdp", "World Bank Global Economic Data");
      ("renewable_adoption", "International Energy Agency") ]
    indicator_ "Real-time Data Feed".

(** [Number(x.toFixed(d))]: the nearest multiple of [10^-d], halves away
    from zero. *)
Definition toFixed (d : nat) (x : Q) : Q :=
  let scale := inject_Z (10 ^ Z.of_nat d) in
  let n := Qfloor (Qabs x * scale + (1 # 2)) in
  (if Qle_bool 0 x then inject_Z n / scale else - (inject_Z n / scale))%Q.

(** On [NaN], [toFixed] gives the text NaN, which [Number] reads back. *)
Definition toFixedNumber (d : nat) (x : number) : number :=
  match x with
  | Num q => Num (toFixed d q)
  | NaN => NaN
  end.

Section Feed.

Variable rnd : nat -> Q.

(** [this.lastValues.get(key) || this.getBaseValue(indicator)]: a stored
    zero and a stored [NaN] are falsy, a stored string is not. The result is
    a number, or else ([None]) a string or an inherited member. *)
Definition lastValueOf (s : t) (indicator_ region_ : string) : option Q :=
  let base :=
    match getBaseValue indicator_ with
    | Own b => Some b
    | Inherited _ => None
    end in
  match lastValues s !! topicKey indicator_ region_ with
  | Some (Kept (Num v)) => if Qeq_bool v 0 then base else Some v
  | Some (Kept NaN) => base
  | Some Garbled => None
  | None => base
  end.

(** [trendChange + randomChange]: the product with an inherited member is
    [NaN]. *)
Definition drift (indicator_ : string) (random : Q) : number :=
  match getVolatility indicator_, getTrend indicator_ with
  | Own volatility, Own trend_ =>
      let randomChange := ((random - (1 # 2)) * volatility)%Q in
      let trendChange := (trend_ * (1 # 1000))%Q in
      Num (trendChange + randomChange)
  | _, _ => NaN
  end.

(** [fetchLatestData] after its 100 ms pause. When [lastValue] is not a
    number the sum is a string: it is stored all the same, and
    [newValue.toFixed] is not a function. *)
Definition fetchLatestData (indicator_ region_ : string) (s : t) (w : World)
    : outcome DataUpdate * t * World :=
  let key := topicKey indicator_ region_ in
  let store newValue :=
    mkService (config s) (subscribers s) (errorHandlers s) (pollingIntervals s)
      (alerts s) (<[key := newValue]> (lastValues s)) (connectionRetries s)
      (activeTimers s) (nextTimer s) (inflight s) (delivered s) (alerted s)
      (notified s) in
  match lastValueOf s indicator_ region_ with
  | Some lastValue =>
      let newValue :=
        num_map2 Qplus (Num lastValue)
          (num_map2 Qmult (Num lastValue) (drift indicator_ (rnd (draws w)))) in
      let change_ := num_map2 Qminus newValue (Num lastValue) in
      let changePercent_ :=
        num_map2 Qmult (num_map2 Qdiv change_ (Num lastValue)) (Num 100) in
      (Resolved
         (mkUpdate (now w) indicator_ region_
            (toFixedNumber 2 newValue) (toFixedNumber 3 change_)
            (toFixedNumber 2 changePercent_)
            (getDataSource indicator_) high),
       store (Kept newValue), tick_draw w)
  | None =>
      (Rejected (PlainError "TypeError: newValue.toFixed is not a function"),
       store Garbled, tick_draw w)
  end.

(** *** What can happen to the service *)

Inductive event :=
| Subscribe (indicator_ region_ : string) (callback : UpdateCallback)
| Unsubscribe (key : string) (callback : UpdateCallback)
| SetAlert (indicator_ region_ : string) (c : AlertConfig)
| RemoveAlert (indicator_ region_ : string)
| OnError (callback : ErrorCallback)
| OffError (callback : ErrorCallback)
| TimerFires (intervalId : positive)
| FetchSettles (n : nat)
| WebSocketMessage (update : DataUpdate)
| Disconnect
| WebSocketOpens
| WebSocketCloses
| WebSocketError.

(** The browser fires an interval timer: if it is still running, its
    callback starts a fetch for the topic it was created for. *)
Definition timerFires (intervalId : positive) (s : t) : t :=
  match activeTimers s !! intervalId with
  | Some topic =>
      mkService (config s) (subscribers s) (errorHandlers s)
        (pollingIntervals s) (alerts s) (lastValues s) (connectionRetries s)
        (activeTimers s) (nextTimer s) (inflight s ++ [topic])%list
        (delivered s) (alerted s) (notified s)
  | None => s
  end.

Variable react : UpdateCallback -> DataUpdate -> t -> list call.
Variable reactToError : ErrorCallback -> exn -> t -> list call.

(** The [n]-th pending fetch settles: the update goes to [handleUpdate],
    a failure to [notifyError]. *)
Definition fetchSettles (n : nat) (s : t) (w : World) : t * World :=
  match inflight s !! n with
  | Some (indicator_, region_) =>
      let s1 :=
        mkService (config s) (subscribers s) (errorHandlers s)
          (pollingIntervals s) (alerts s) (lastValues s) (connectionRetries s)
          (activeTimers s) (nextTimer s) (delete n (inflight s))
          (delivered s) (alerted s) (notified s) in
      match fetchLatestData indicator_ region_ s1 (sleep 100 w) with
      | (Resolved update, s2, w1) => (handleUpdate react update s2, w1)
      | (Rejected error, s2, w1) => (notifyError reactToError error s2, w1)
      end
  | None => (s, w)
  end.

Definition step (e : event) (st : t * World) : t * World :=
  let '(s, w) := st in
  match e with
  | Subscribe i r cb => (subscribe i r cb s, w)
  | Unsubscribe key cb => (unsubscribe key cb s, w)
  | SetAlert i r c => (setAlert i r c s, w)
  | RemoveAlert i r => (removeAlert i r s, w)
  | OnError h => (onError h s, w)
  | OffError h => (offError h s, w)
  | TimerFires id => (timerFires id s, w)
  | FetchSettles n => fetchSettles n s w
  | WebSocketMessage u => (handleUpdate react u s, w)
  | Disconnect => (disconnect s, w)
  | WebSocketOpens => (connectionOpened s, w)
  | WebSocketCloses => (snd (attemptReconnection s), w)
  | WebSocketError =>
      (notifyError reactToError (PlainError "Real-time connection error") s, w)
  end.

Definition run (es : list event) (st : t * World) : t * World :=
  foldl (fun st e => step e st) st es.

End Feed.

End RealTimeService.

(** ** vectorSearchService.ts *)

Module VectorSearchService.

Record Analysis := mkAnalysis {
  correlation_strength : Q;
  temporal_alignment : Q;
  pattern_confidence : Q;
  insights : list string
}.

Record SimilarityResult := mkResult {
  region : string;
  country : string;
  similarity_score : Q;
  matching_patterns : list string;
  key_metrics : list (string * Q);
  recommendations : found string;
  data_points : Q;
  analysis : Analysis
}.

Record t := mkService {
  embeddingCache : gmap string (list number);
  resultsCache : gmap string (list SimilarityResult)
}.

Definition new : t := mkService ∅ ∅.

Definition clearCache (s : t) : t := mkService ∅ ∅.

(** [ToInt32]: a mathematical integer wrapped into [-2^31, 2^31). *)
Definition toInt32 (z : Z) : Z := (z + 2 ^ 31) mod 2 ^ 32 - 2 ^ 31.

(** One round of [hashString]: [hash = ((hash << 5) - hash) + char] followed
    by [hash = hash & hash]. *)
Definition hashStep (hash : Z) (char : ascii) : Z :=
  let shifted := toInt32 (Z.shiftl (toInt32 hash) 5) in
  let sum := shifted - hash + Z.of_nat (nat_of_ascii char) in
  toInt32 (Z.land (toInt32 sum) (toInt32 sum)).

Fixpoint hashLoop (hash : Z) (str : string) : Z :=
  match str with
  | EmptyString => hash
  | String char rest => hashLoop (hashStep hash char) rest
  end.

Definition hashString (str : string) : Z := Z.abs (hashLoop 0 str).

(** [[...x]] inside an array literal: spreading a member inherited from
    [Object.prototype], which is not iterable, throws a TypeError (whose
    text depends on the engine). *)
Definition spread {A} (x : found (list A)) : outcome (list A) :=
  match x with
  | Own l => Resolved l
  | Inherited _ => Rejected (PlainError "TypeError: value is not iterable")
  end.

(** [[...(patterns[indicator] || []), ...(climatePatterns[climate] || [])]] *)
Definition getMatchingPatterns (indicator_ climate : string)
    : outcome (list string) :=
  match
    spread (lookup_or
      [ ("co2", ["Industrial emissions"; "Transportation patterns"; "Energy mix"]);
        ("avg_temperature", ["Seasonal variation"; "Urban heat islands"; "Climate zones"]);
        ("gdp", ["Economic cycles"; "Sectoral growth"; "Trade patterns"]);
        ("renewable_adoption", ["Policy frameworks"; "Grid integration"; "Investment trends"]) ]
      indicator_ [])
  with
  | Rejected e => Rejected e
  | Resolved byIndicator =>
      match
        spread (lookup_or
          [ ("Mediterranean", ["Dry summers"; "Mild winters"]);
            ("Continental", ["Cold winters"; "Warm summers"]);
            ("Temperate", ["Moderate seasons"; "Consistent rainfall"]);
            ("Oceanic", ["Mild temperatures"; "High humidity"]);
            ("Subtropical", ["Hot summers"; "Mild winters"]) ]
          climate [])
      with
      | Rejected e => Rejected e
      | Resolved byClimate => Resolved (byIndicator ++ byClimate)%list
      end
  end.

(** [recommendations[indicator] || `Conduct comparative analysis ...`] *)
Definition generateRecommendations (indicator_ region_ : string) : found string :=
  lookup_or
    [ ("co2", "Monitor " ++ region_ ++ "'s carbon pricing mechanisms and industrial transition strategies");
      ("avg_temperature", "Study " ++ region_ ++ "'s climate adaptation policies and urban planning approaches");
      ("gdp", "Analyze " ++ region_ ++ "'s economic diversification and green growth initiatives");
      ("renewable_adoption", "Examine " ++ region_ ++ "'s renewable energy policies and grid modernization efforts") ]
    indicator_
    ("Conduct comparative analysis with " ++ region_ ++ "'s climate-economy strategies").

(** [[...baseInsights, ...(indicatorInsights[indicator] || [])]] *)
Definition generateAIInsights (targetRegion indicator_ : string)
    : outcome (list string) :=
  match
    spread (lookup_or
      [ ("co2",
         [ "Emission reduction trajectories align closely";
           "Industrial composition shows similar carbon intensity";
           "Transportation sector contributions match regional patterns" ]);
        ("avg_temperature",
         [ "Temperature anomalies follow similar temporal patterns";
           "Urban heat island effects show comparable magnitude";
           "Seasonal variation patterns indicate climate similarity" ]);
        ("gdp",
         [ "Economic growth patterns demonstrate strong correlation";
           "Sectoral composition and productivity trends align";
           "Trade relationships and economic cycles synchronize" ]);
        ("renewable_adoption",
         [ "Renewable energy deployment follows similar trajectories";
           "Policy incentives and market conditions align";
           "Grid integration challenges and solutions comparable" ]) ]
      indicator_ [])
  with
  | Rejected e => Rejected e
  | Resolved byIndicator =>
      Resolved
        (app
           [ "Strong " ++ indicator_ ++ " correlation with " ++ targetRegion;
             "Similar seasonal patterns and economic drivers";
             "Comparable policy frameworks and implementation outcomes" ]
           byIndicator)
  end.

Definition generateFallbackResults (targetRegion indicator_ : string)
    : list SimilarityResult :=
  [ mkResult "California" "United States" (89 # 100)
      ["Policy frameworks"; "Economic structure"]
      [("similarity", 89%Q); ("confidence", 85%Q)]
      (Own ("Study California's " ++ indicator_ ++ " strategies as reference"))
      120
      (mkAnalysis (87 # 100) (92 # 100) (85 # 100)
         ["Similar " ++ indicator_ ++ " patterns"; "Comparable policy approaches"]) ].

(** The table of [generateVectorSearchResults]: region, country, climate. *)
Definition regions : list (string * string * string) :=
  [ ("California", "United States", "Mediterranean");
    ("Bavaria", "Germany", "Continental");
    ("Victoria", "Australia", "Temperate");
    ("British Columbia", "Canada", "Oceanic");
    ("Catalonia", "Spain", "Mediterranean");
    ("Sao Paulo", "Brazil", "Subtropical");
    ("New South Wales", "Australia", "Temperate");
    ("Texas", "United States", "Subtropical") ].

(** [`${targetRegion}-${indicator}-${timeRange}`] *)
Definition cacheKey (targetRegion indicator_ timeRange_ : string) : string :=
  targetRegion ++ "-" ++ indicator_ ++ "-" ++ timeRange_.

(** The arguments of a call of [findSimilarRegions], the default
    [timeRange = '10y'] filled in. *)
Record request := mkCall {
  targetRegion : string;
  indicator : string;
  timeRange : string
}.

Definition keyOf (c : request) : string :=
  cacheKey (targetRegion c) (indicator c) (timeRange c).

(** Where an [async] method stands when it yields: settled with a result,
    or waiting at an [await] for a promise that has already settled to
    [a]. *)
Inductive progress (A : Type) :=
| Done (r : list SimilarityResult)
| Await (a : A).
Arguments Done {A} r.
Arguments Await {A} a.

Section Search.

Variable rnd : nat -> Q.
Variable Math_sin : Q -> Q.
Variable Math_cos : Q -> Q.
Variable Math_PI : Q.

Definition random (w : World) : Q * World := (rnd (draws w), tick_draw w).

(** [indicatorFeatures[indicator] || 0.5]; with an inherited member
    [indicatorBase * Math.PI + i] is [NaN], and so is the component. *)
Definition generateSemanticEmbedding (region_ indicator_ timeRange_ : string)
    : list number :=
  let regionHash := inject_Z (hashString region_) in
  let indicatorBase :=
    lookup_or
      [ ("co2", 8 # 10); ("avg_temperature", 6 # 10); ("gdp", 4 # 10);
        ("renewable_adoption", 2 # 10) ]
      indicator_ (5 # 10) in
  let timeFeature :=
    if String.eqb timeRange_ "1y" then 2 # 10
    else if String.eqb timeRange_ "5y" then 5 # 10
    else 8 # 10 in
  let at_ (i : nat) := inject_Z (Z.of_nat i) in
  (map (fun i => Num (Math_sin (regionHash + at_ i) * (5 # 10))%Q) (seq 0 256)
   ++ map (fun i =>
             match indicatorBase with
             | Own base => Num (Math_cos (base * Math_PI + at_ i) * (3 # 10))%Q
             | Inherited _ => NaN
             end) (seq 256 256)
   ++ map (fun i => Num (Math_sin (timeFeature * Math_PI * 2 + at_ i) * (4 # 10))%Q)
        (seq 512 256))%list.

(** [generateEmbedding]: nothing in its [try] block can throw. *)
Definition generateEmbedding (region_ indicator_ timeRange_ : string) (s : t)
    : outcome (list number) * t :=
  let embeddingKey := cacheKey region_ indicator_ timeRange_ in
  match embeddingCache s !! embeddingKey with
  | Some e => (Resolved e, s)
  | None =>
      let embedding := generateSemanticEmbedding region_ indicator_ timeRange_ in
      (Resolved embedding,
       mkService (<[embeddingKey := embedding]> (embeddingCache s)) (resultsCache s))
  end.

(** [{...baseMetrics, ...(indicatorMetrics[indicator] || {})}]: spreading
    an inherited member into an object literal copies its own enumerable
    properties, of which it has none. *)
Definition generateKeyMetrics (indicator_ : string) (index : nat) (w : World)
    : list (string * Q) * World :=
  let '(r, w1) := random w in
  let ix := inject_Z (Z.of_nat index) in
  (([ ("similarity", 95 - ix * 8);
      ("confidence", 88 + r * 8);
      ("data_coverage", 92 - ix * 3) ]
    ++
    match
      lookup_or
        [ ("co2", [("emission_rate", 45 - ix * 5); ("reduction_potential", 25 + ix * 2)]);
          ("avg_temperature",
           [("warming_rate", (12 # 10) + ix * (1 # 10)); ("seasonal_variance", 15 - ix)]);
          ("gdp", [("growth_rate", (35 # 10) - ix * (3 # 10)); ("volatility", 12 + ix)]);
          ("renewable_adoption",
           [("adoption_rate", 35 + ix * 3); ("capacity_factor", 28 - ix)]) ]
        indicator_ []
    with
    | Own metrics => metrics
    | Inherited _ => []
    end)%list%Q,
   w1).

(** The body of [regions.map] in [generateVectorSearchResults]; the fields
    are evaluated in the order they are written, so a throw of
    [getMatchingPatterns] comes before the random draw of the metrics. *)
Definition searchResult (indicator_ : string)
    (entry : string * string * string) (index : nat) (w : World)
    : outcome SimilarityResult * World :=
  let '(region_, country_, climate) := entry in
  let ix := inject_Z (Z.of_nat index) in
  match getMatchingPatterns indicator_ climate with
  | Rejected e => (Rejected e, w)
  | Resolved patterns =>
      let '(metrics, w1) := generateKeyMetrics indicator_ index w in
      (Resolved
         (mkResult region_ country_ ((95 # 100) - ix * (8 # 100))%Q
            patterns
            metrics
            (generateRecommendations indicator_ region_)
            (120 - ix * 5)%Q
            (mkAnalysis 0 0 0 [])),
       w1)
  end.

(** [array.map((x, index) => ...)] with a body that acts on the world and may
    throw: the first throw ends the loop. *)
Fixpoint mapi_world {A B} (body : A -> nat -> World -> outcome B * World)
    (l : list A) (index : nat) (w : World) : outcome (list B) * World :=
  match l with
  | [] => (Resolved [], w)
  | a :: rest =>
      match body a index w with
      | (Rejected e, w1) => (Rejected e, w1)
      | (Resolved b, w1) =>
          match mapi_world body rest (S index) w1 with
          | (Rejected e, w2) => (Rejected e, w2)
          | (Resolved bs, w2) => (Resolved (b :: bs), w2)
          end
      end
  end.

Definition generateVectorSearchResults (indicator_ timeRange_ : string)
    (w : World) : outcome (list SimilarityResult) * World :=
  mapi_world (searchResult indicator_) regions 0 w.

(** [performVectorSearch]: the [catch] block makes the same call again, and
    what that call throws is what the method rejects with. *)
Definition performVectorSearch (targetEmbedding : list number)
    (indicator_ timeRange_ : string) (w : World)
    : outcome (list SimilarityResult) * World :=
  match generateVectorSearchResults indicator_ timeRange_ w with
  | (Resolved r, w1) => (Resolved r, w1)
  | (Rejected _, w1) => generateVectorSearchResults indicator_ timeRange_ w1
  end.

(** The body of [results.map] in [enhanceWithAIAnalysis]: the two draws come
    before [generateAIInsights]. *)
Definition enhance (targetRegion_ indicator_ : string)
    (result_ : SimilarityResult) (index : nat) (w : World)
    : outcome SimilarityResult * World :=
  let '(r1, w1) := random w in
  let '(r2, w2) := random w1 in
  match generateAIInsights targetRegion_ indicator_ with
  | Rejected e => (Rejected e, w2)
  | Resolved insights_ =>
      (Resolved
         (mkResult (region result_) (country result_) (similarity_score result_)
            (matching_patterns result_) (key_metrics result_)
            (recommendations result_) (data_points result_)
            (mkAnalysis ((9 # 10) - inject_Z (Z.of_nat index) * (1 # 10))%Q
               ((85 # 100) + r1 * (1 # 10))%Q
               ((88 # 100) + r2 * (8 # 100))%Q
               insights_)),
       w2)
  end.

Definition enhanceWithAIAnalysis (results : list SimilarityResult)
    (targetRegion_ indicator_ : string) (w : World)
    : outcome (list SimilarityResult) * World :=
  mapi_world (enhance targetRegion_ indicator_) results 0 w.

(** *** [findSimilarRegions], piece by piece

    The method has three [await]s.  Each of the four pieces below runs
    without interruption; between two of them other code of the page can
    run, another call of the method included. *)

(** Up to the first [await]: the cache test and the synchronous body of
    [generateEmbedding]. *)
Definition begin (c : request) (st : t * World)
    : progress (outcome (list number)) * (t * World) :=
  let '(s, w) := st in
  match resultsCache s !! keyOf c with
  | Some cached => (Done cached, (s, w))
  | None =>
      let '(embedding, s1) :=
        generateEmbedding (targetRegion c) (indicator c) (timeRange c) s in
      (Await embedding, (s1, w))
  end.

(** From the first [await] to the second. *)
Definition afterEmbedding (c : request) (embedding : outcome (list number))
    (st : t * World)
    : progress (outcome (list SimilarityResult)) * (t * World) :=
  match embedding with
  | Rejected _ => (Done (generateFallbackResults (targetRegion c) (indicator c)), st)
  | Resolved targetEmbedding =>
      let '(results, w1) :=
        performVectorSearch targetEmbedding (indicator c) (timeRange c) (snd st) in
      (Await results, (fst st, w1))
  end.

(** From the second [await] to the third. *)
Definition afterSearch (c : request) (results : outcome (list SimilarityResult))
    (st : t * World)
    : progress (outcome (list SimilarityResult)) * (t * World) :=
  match results with
  | Rejected _ => (Done (generateFallbackResults (targetRegion c) (indicator c)), st)
  | Resolved results_ =>
      let '(enhanced, w1) :=
        enhanceWithAIAnalysis results_ (targetRegion c) (indicator c) (snd st) in
      (Await enhanced, (fst st, w1))
  end.

(** From the third [await] to the end: the write to the cache. *)
Definition afterEnhancement (c : request)
    (enhanced : outcome (list SimilarityResult)) (st : t * World)
    : list SimilarityResult * (t * World) :=
  match enhanced with
  | Rejected _ => (generateFallbackResults (targetRegion c) (indicator c), st)
  | Resolved enhancedResults =>
      (enhancedResults,
       (mkService (embeddingCache (fst st))
          (<[keyOf c := enhancedResults]> (resultsCache (fst st))),
        snd st))
  end.

(** [findSimilarRegions] when nothing else runs between its pieces; an
    omitted [timeRange] is ['10y'].  The method never rejects. *)
Definition findSimilarRegions (targetRegion_ indicator_ : string)
    (timeRange_ : option string) (st : t * World)
    : outcome (list SimilarityResult) * (t * World) :=
  let c := mkCall targetRegion_ indicator_ (default "10y" timeRange_) in
  match begin c st with
  | (Done r, st1) => (Resolved r, st1)
  | (Await embedding, st1) =>
      match afterEmbedding c embedding st1 with
      | (Done r, st2) => (Resolved r, st2)
      | (Await results, st2) =>
          match afterSearch c results st2 with
          | (Done r, st3) => (Resolved r, st3)
          | (Await enhanced, st3) =>
              let '(r, st4) := afterEnhancement c enhanced st3 in
              (Resolved r, st4)
          end
      end
  end.

(** *** Calls that overlap *)

(** A call that has been made: waiting at one of its [await]s, or settled
    with the array it returned. *)
Inductive task :=
| AwaitingEmbedding (c : request) (embedding : outcome (list number))
| AwaitingSearch (c : request) (results : outcome (list SimilarityResult))
| AwaitingEnhancement (c : request) (enhanced : outcome (list SimilarityResult))
| Settled (c : request) (r : list SimilarityResult).


Definition invoke (c : request) (st : t * World) : task * (t * World) :=
  match begin c st with
  | (Done r, st1) => (Settled c r, st1)
  | (Await embedding, st1) => (AwaitingEmbedding c embedding, st1)
  end.

(** The call is resumed and runs up to its next [await], or to its end. *)
Definition resume (k : task) (st : t * World) : task * (t * World) :=
  match k with
  | AwaitingEmbedding c embedding =>
      match afterEmbedding c embedding st with
      | (Done r, st1) => (Settled c r, st1)
      | (Await results, st1) => (AwaitingSearch c results, st1)
      end
  | AwaitingSearch c results =>
      match afterSearch c results st with
      | (Done r, st1) => (Settled c r, st1)
      | (Await enhanced, st1) => (AwaitingEnhancement c enhanced, st1)
      end
  | AwaitingEnhancement c enhanced =>
      let '(r, st1) := afterEnhancement c enhanced st in (Settled c r, st1)
  | Settled c r => (Settled c r, st)
  end.

(** What the page can do with the service: make a call, let the call
    numbered [n] run its next piece, clear the caches. *)
Inductive event :=
| Invoke (targetRegion_ indicator_ : string) (timeRange_ : option string)
| Resume (n : nat)
| ClearCache.

Definition step (e : event) (p : list task * (t * World)) : list task * (t * World) :=
  let '(tasks, st) := p in
  match e with
  | Invoke r i tr =>
      let '(k, st1) := invoke (mkCall r i (default "10y" tr)) st in
      ((tasks ++ [k])%list, st1)
  | Resume n =>
      match tasks !! n with
      | Some k => let '(k', st1) := resume k st in (<[n := k']> tasks, st1)
      | None => p
      end
  | ClearCache => (tasks, (clearCache (fst st), snd st))
  end.

Definition run (es : list event) (p : list task * (t * World))
    : list task * (t * World) :=
  foldl (fun p e => step e p) p es.

End Search.

End VectorSearchService.

(** ** ClimateInsightEngine.tsx: the fetch of the dashboard *)

Module Engine.

Record ClimateData := mkClimateData {
  indicator : string;
  region : string;
  mode : BigQueryService.Mode;
  timeRange : string
}.

(** The component's initial selection. *)
Definition initialClimateData : ClimateData :=
  mkClimateData "co2" "United States" BigQueryService.demo "10y".

(** [impacts[indicator] || '...'] *)
Definition getImpactMessage (indicator_ : string) : found string :=
  lookup_or
    [ ("co2", "Current CO₂ levels are 50% above pre-industrial baseline, accelerating climate change effects globally.");
      ("avg_temperature", "Global temperatures have risen 1.2°C since 1880, with accelerating warming in polar regions.");
      ("gdp", "Climate adaptation costs are projected to reach 2-3% of global GDP by 2030.");
      ("renewable_adoption", "Renewable energy adoption is accelerating but needs 3x faster growth to meet 2030 targets.") ]
    indicator_ "Significant environmental and economic impacts detected.".

(** [recommendations[indicator] || '...'] *)
Definition getRecommendation (indicator_ : string) : found string :=
  lookup_or
    [ ("co2", "Implement immediate carbon pricing mechanisms and invest in carbon capture technologies.");
      ("avg_temperature", "Prioritize adaptation strategies in vulnerable regions and enhance early warning systems.");
      ("gdp", "Increase climate finance allocation and develop green economic transition plans.");
      ("renewable_adoption", "Remove policy barriers and increase renewable energy investment incentives.") ]
    indicator_ "Develop comprehensive climate action strategy.".

(** The object [errorService.validateClimateData] inspects. *)
Definition asRecord (d : ClimateData) : gmap string ErrorService.jsval :=
  {[ "indicator" := ErrorService.VString (indicator d);
     "region" := ErrorService.VString (region d);
     "mode" := ErrorService.VString
                 (match mode d with
                  | BigQueryService.demo => "demo"
                  | BigQueryService.bigquery => "bigquery"
                  end);
     "timeRange" := ErrorService.VString (timeRange d) ]}.

Section Fetch.

Variable rnd : nat -> Q.
Variable month_of : Z -> Z.
Variable month_start : Z -> Z.
Variable Math_sin : Q -> Q.
Variable Math_PI : Q.
Variable remote : string -> nat -> outcome BigQueryService.BQResponse.
Variable forecastQuery : list BigQueryService.DataRow -> found nat -> string.
Variable JSON_stringify : list BigQueryService.DataRow -> found nat -> string.

(** The [switch] of [generateMockForecast]. *)
Definition mockValue (indicator_ : string) (i : nat) (w : World) : Q * World :=
  let x := inject_Z (Z.of_nat i) in
  if String.eqb indicator_ "co2" then
    ((400 + Math_sin (x * (5 # 100)) * 10 + x * (5 # 10))%Q, w)
  else if String.eqb indicator_ "avg_temperature" then
    (((145 # 10) + Math_sin (x * (5 # 10)) * 2 + x * (1 # 100))%Q, w)
  else if String.eqb indicator_ "gdp" then
    ((50000 + Math_sin (x * (2 # 100)) * 5000 + x * 100)%Q, w)
  else if String.eqb indicator_ "renewable_adoption" then
    ((10 + x * (3 # 10) + Math_sin (x * (1 # 10)) * 2)%Q, w)
  else
    ((rnd (draws w) * 100)%Q, tick_draw w).

(** One iteration of the loop of [generateMockForecast]:
    [new Date(currentYear - 10 + Math.floor(i / 12), i % 12, 1)]. *)
Definition mockPoint (currentYear : Z) (indicator_ : string) (i : nat)
    (w : World) : ForecastPoint * World :=
  let date :=
    month_start ((currentYear - 10 + Z.of_nat i / 12) * 12 + Z.of_nat i mod 12) in
  let '(v, w1) := mockValue indicator_ i w in
  (mkPoint date
     (Num (round2 v))
     (Num (round2 (v * (9 # 10))))
     (Num (round2 (v * (11 # 10)))),
   w1).

Definition generateMockForecast (indicator_ : string) (w : World)
    : list ForecastPoint * World :=
  for_range (mockPoint (month_of (now w) / 12) indicator_) 0 120 w.

(** The [catch] block of [fetchClimateData]. *)
Definition mockForecast (d : ClimateData) (w : World) : ForecastData * World :=
  let '(fc, w1) := generateMockForecast (indicator d) w in
  (mkForecastData fc
     (mkSummary
        (if String.eqb (indicator d) "co2" then increasing else decreasing)
        (getImpactMessage (indicator d))
        (getRecommendation (indicator d))
        (87 # 100)),
   w1).

Definition invalidParams : AppError :=
  ErrorService.createError "Invalid climate data parameters" "INVALID_PARAMS"
    MEDIUM VALIDATION (Some "ClimateInsightEngine") (Some "fetchClimateData") true.

(** [fetchClimateData], as far as the [forecastData] state goes: the value
    the state holds afterwards.  [imports] is how the dynamic import of the
    three service modules settles.  The two promises that run beside the
    forecast (executive insights, similar regions) are not modelled. *)
Definition fetchClimateData (climateData : ClimateData) (imports : outcome unit)
    (forecastData : option ForecastData) (s : BigQueryService.Sys)
    : option ForecastData * BigQueryService.Sys :=
  let validation := ErrorService.validateClimateData (asRecord climateData) in
  let thrown :=
    if negb (ErrorService.isValid validation) then Some (AppErr invalidParams)
    else match imports with
         | Rejected e => Some e
         | Resolved _ => None
         end in
  match thrown with
  | None =>
      match BigQueryService.generateForecast rnd month_of month_start
              Math_sin Math_PI remote forecastQuery JSON_stringify
              (BigQueryService.mkRequest (indicator climateData)
                 (region climateData) (timeRange climateData) (mode climateData))
              s with
      | (Resolved fc, s1) => (Some fc, s1)
      | (Rejected _, s1) => (forecastData, s1)
      end
  | Some error =>
      let es1 := ErrorService.handleError (BigQueryService.err s) error in
      let '(mock, w1) := mockForecast climateData (BigQueryService.world s) in
      (Some mock, BigQueryService.mkSys (BigQueryService.svc s) es1 w1)
  end.

End Fetch.

End Engine.

(** * Specification vocabulary *)

Section RetryVocabulary.

Import ErrorService.

Context {T : Type}.

(** What a finished [withRetry] leaves behind: no counter for the id, the
    other counters, the configuration and the log as they were, and a result
    that is the answer of an invocation of the operation, or the
    RETRY_EXHAUSTED error built from the failure of one. *)
Definition settled (operation : World -> outcome T * World)
    (operationId : string) (maxRetries_arg : option nat)
    (es : t) (res : outcome T * (t * World)) : Prop :=
  retryCount (fst (snd res)) !! operationId = None
  /\ config (fst (snd res)) = config es
  /\ errorLog (fst (snd res)) = errorLog es
  /\ (forall k, k <> operationId ->
        retryCount (fst (snd res)) !! k = retryCount es !! k)
  /\ (forall a, fst res = Resolved a ->
        exists w0, operation w0 = (Resolved a, snd (snd res)))
  /\ (forall e, fst res = Rejected e ->
        exists w0 last_failure,
          operation w0 = (Rejected last_failure, snd (snd res))
          /\ e = AppErr (retryExhausted (effectiveRetries (config es) maxRetries_arg)
                           operationId last_failure)).

End RetryVocabulary.

Section AlertVocabulary.

Import RealTimeService.

(** What a comparison says of a number; of [NaN] it says nothing. *)
Definition at_least (bound : Q) (x : number) : Prop :=
  match x with
  | Num q => (bound <= Qabs q)%Q
  | NaN => False
  end.

Definition is_positive (x : number) : Prop :=
  match x with
  | Num q => (0 < q)%Q
  | NaN => False
  end.

Definition is_negative (x : number) : Prop :=
  match x with
  | Num q => (q < 0)%Q
  | NaN => False
  end.

Definition amounts_to (x : number) (q : Q) : Prop :=
  match x with
  | Num v => (v == q)%Q
  | NaN => False
  end.

(** The threshold test of a rule, as a proposition. *)
Definition threshold_passes (c : AlertConfig) (u : DataUpdate) : Prop :=
  match type c with
  | absolute => at_least (threshold c) (change u)
  | percentage => at_least (threshold c) (changePercent u)
  end.

(** The direction test the code performs: a change that is not positive is
    classed as a decrease. *)
Definition direction_passes (c : AlertConfig) (u : DataUpdate) : Prop :=
  match direction c with
  | both => True
  | increase => is_positive (change u)
  | decrease => ~ is_positive (change u)
  end.

(** The direction test in the words of the specification: [increase] and
    [decrease] pass only if the sign of the change matches. *)
Definition spec_direction_passes (c : AlertConfig) (u : DataUpdate) : Prop :=
  match direction c with
  | both => True
  | increase => is_positive (change u)
  | decrease => is_negative (change u)
  end.

End AlertVocabulary.

Section SubscriptionVocabulary.

Import RealTimeService.

(** How often a listener is registered in a list. *)
Definition occurrences (callback : UpdateCallback) (l : list UpdateCallback) : nat :=
  List.length (filter (fun c => c = callback) l).

(** The topic key an entry of the delivery log belongs to. *)
Definition delivery_key (d : UpdateCallback * DataUpdate) : string :=
  topicKey (indicator (snd d)) (region (snd d)).

(** The deliveries made under a key. *)
Definition deliveries_for (key : string) (s : t) : list (UpdateCallback * DataUpdate) :=
  filter (fun d => delivery_key d = key) (delivered s).

(** An event that registers a listener under a key. *)
Definition subscribes_to (key : string) (e : event) : Prop :=
  match e with
  | Subscribe i r _ => topicKey i r = key
  | _ => False
  end.

(** A call, made by a listener or a handler, that registers a listener
    under a key. *)
Definition call_subscribes_to (key : string) (c : call) : Prop :=
  match c with
  | CallSubscribe i r _ => topicKey i r = key
  | _ => False
  end.

(** The bookkeeping the service keeps between its maps and the browser's
    timers: a key has a timer exactly when it has a listener list, a list is
    never left empty, the timer of a key is running and polls a topic of that
    key, every running timer is the timer of its topic's key, and timer ids
    are fresh. *)
Record consistent (s : t) : Prop := {
  lists_nonempty :
    forall key l, subscribers s !! key = Some l -> l <> [];
  timer_iff_listeners :
    forall key, is_Some (pollingIntervals s !! key) <-> is_Some (subscribers s !! key);
  timer_running :
    forall key intervalId, pollingIntervals s !! key = Some intervalId ->
      exists i r, activeTimers s !! intervalId = Some (i, r) /\ topicKey i r = key;
  no_orphan_timer :
    forall intervalId i r, activeTimers s !! intervalId = Some (i, r) ->
      pollingIntervals s !! topicKey i r = Some intervalId;
  timers_fresh :
    forall intervalId, is_Some (activeTimers s !! intervalId) ->
      (intervalId < nextTimer s)%positive
}.

(** Two states with the same listener lists and the same timers. *)
Definition same_registry (s s' : t) : Prop :=
  subscribers s' = subscribers s
  /\ pollingIntervals s' = pollingIntervals s
  /\ activeTimers s' = activeTimers s
  /\ nextTimer s' = nextTimer s.

End SubscriptionVocabulary.

Section SeriesVocabulary.

(** The confidence band of a point straddles its value. *)
Definition bounds_ok (p : ForecastPoint) : Prop :=
  num_leb (confidence_low p) (value p) = true
  /\ num_leb (value p) (confidence_high p) = true.

(** Time stamps strictly ascending along the series. *)
Definition ascending_ts (fc : list ForecastPoint) : Prop :=
  forall i p q, fc !! i = Some p -> fc !! S i = Some q -> ts p < ts q.

Definition series_ok (fc : list ForecastPoint) : Prop :=
  Forall bounds_ok fc /\ ascending_ts fc.

(** The trend read off the series: increasing when the last value is at
    least the first, decreasing otherwise. *)
Definition trend_of_series (fc : list ForecastPoint) (t : Trend) : Prop :=
  exists first_ last_,
    head fc = Some first_ /\ last fc = Some last_
    /\ t = if num_geb (value last_) (value first_) then increasing else decreasing.

(** The same, for a series that may be empty: with no point to compare the
    code says decreasing. *)
Definition trend_read_off (fc : list ForecastPoint) (t : Trend) : Prop :=
  trend_of_series fc t \/ (fc = [] /\ t = decreasing).

(** A row of shape A that spells out a point. *)
Definition plainRow (p : ForecastPoint) : BigQueryService.Row :=
  BigQueryService.mkRow (BigQueryService.GoodDate (ts p))
    BigQueryService.NoDate BigQueryService.NoDate
    (Some (value p)) None (Some (confidence_low p)) None
    (Some (confidence_high p)) None None.

(** A backend answer whose [rows] spell out the given points. *)
Definition answerWith (pts : list ForecastPoint) : BigQueryService.RawForecast :=
  BigQueryService.mkRawForecast (Some [])
    (Some (map (fun p => Some (plainRow p)) pts)) None None.

(** Two forecasts with the same fields (numbers compared as rationals). *)
Definition same_forecast (a b : ForecastData) : Prop :=
  forecast a = forecast b
  /\ trend (summary a) = trend (summary b)
  /\ impact (summary a) = impact (summary b)
  /\ recommendation (summary a) = recommendation (summary b)
  /\ (accuracy_score (summary a) == accuracy_score (summary b))%Q.

End SeriesVocabulary.

Section SampleEnvironment.

(** A concrete environment to run the model in: every draw of
    [Math.random()] is one half, months are thirty days long, and the sine
    is the zero function (all the proofs ask of a sine is that it stays
    within [-1, 1]). *)
Definition always_half (n : nat) : Q := 1 # 2.
Definition thirty_day_month_of (instant : Z) : Z := instant / 2592000000.
Definition thirty_day_month_start (month : Z) : Z := month * 2592000000.
Definition always_three_tenths (n : nat) : Q := 3 # 10.
Definition flat_sine (x : Q) : Q := 0.
Definition epoch : World := mkWorld 0 0 0.

(** A remote that throws on every call. *)
Definition always_throws (query : string) (n : nat)
    : outcome BigQueryService.BQResponse :=
  Rejected (PlainError "backend unavailable").

(** The services as the page creates them. *)
Definition fresh_system : BigQueryService.Sys :=
  BigQueryService.mkSys
    (BigQueryService.new (BigQueryService.mkConfig "demo-project" None))
    ErrorService.errorService epoch.

End SampleEnvironment.

Section PipelineVocabulary.

Import BigQueryService.

(** What a forecast handed to the caller is made of: the demo generator run
    in some world, or the rows of a backend answer, formatted. *)
Definition demo_or_formatted (rnd : nat -> Q) (month_of month_start : Z -> Z)
    (request : ForecastRequest) (d : ForecastData) : Prop :=
  (exists w, d = fst (generateDemoForecast rnd month_of month_start request w))
  \/ (exists now_ rows_ fc,
        rows_ <> [] /\ formatRows now_ rows_ = Some fc
        /\ d = mkForecastData fc
                 (mkSummary (formatTrend fc)
                    (getImpactMessage (indicator request) (region request))
                    (getRecommendation (indicator request)) (88 # 100))).

End PipelineVocabulary.

Section ErrorVocabulary.

(** An operation that fails on every invocation, leaving a mark in the
    world each time it is called. *)
Definition failing {T : Type} (e : exn) (w : World) : outcome T * World :=
  (Rejected e, tick_call w).

(** Does a character occur in a string? *)
Fixpoint has_char (c : ascii) (s : string) : bool :=
  match s with
  | EmptyString => false
  | String c' s' => Ascii.eqb c' c || has_char c s'
  end.

End ErrorVocabulary.

Section SearchVocabulary.

Import VectorSearchService.



End SearchVocabulary.

Section HashVocabulary.

(** The polynomial hash with multiplier 31 over the character codes, on
    unbounded integers. *)
Fixpoint polynomialHash (h : Z) (str : string) : Z :=
  match str with
  | EmptyString => h
  | String char rest =>
      polynomialHash (31 * h + Z.of_nat (nat_of_ascii char)) rest
  end.

End HashVocabulary.

(** * Properties *)

(** Closes a goal that a literal string is, or is not, the name of a member
    of [Object.prototype]. *)
Ltac ordinary_name := apply (bool_decide_unpack _); vm_compute; exact I.

(** Case analysis on a name of [Object.prototype]. *)
Ltac each_inherited H :=
  unfold objectPrototypeNames in H;
  repeat (apply elem_of_cons in H as [-> | H]; [|]);
  [..|by apply elem_of_nil in H].

(** ** Table lookups *)

Section LookupFacts.

Context {A : Type}.
Implicit Types (table : list (string * A)) (key : string) (fallback : A).

Lemma lookup_or_ordinary table key fallback :
  key ∉ objectPrototypeNames ->
  exists a, lookup_or table key fallback = Own a.
Proof.
  intros Hin. unfold lookup_or. destruct (own table key); [eauto|].
  rewrite bool_decide_eq_false_2 by exact Hin. eauto.
Qed.

Lemma lookup_or_inherited table key fallback :
  key ∈ objectPrototypeNames -> own table key = None ->
  lookup_or table key fallback = Inherited key.
Proof.
  intros Hin Hown. unfold lookup_or. rewrite Hown.
  by rewrite bool_decide_eq_true_2.
Qed.

Lemma lookup_or_cases table key fallback :
  (exists a, lookup_or table key fallback = Own a)
  \/ (lookup_or table key fallback = Inherited key
      /\ key ∈ objectPrototypeNames).
Proof.
  unfold lookup_or. destruct (own table key); [eauto|].
  case_bool_decide; eauto.
Qed.

End LookupFacts.

(** ** ResultCache: time-boxed entries *)

Section CacheProperties.

Import BigQueryService.

Context {A : Type}.
Implicit Types (cache : gmap string (CacheEntry A)) (key : string) (v : A).

Lemma getCachedResult_set cache key v storedAt now_ :
  getCachedResult (setCachedResult cache key v storedAt) key now_
  = if now_ - storedAt <? CACHE_TTL then Some v else None.
Proof.
  unfold getCachedResult, setCachedResult.
  rewrite lookup_insert_eq. reflexivity.
Qed.

(** C6.  An entry stored at [storedAt] is read back, unchanged, exactly
    while [now - storedAt < 300000]; from the boundary on the entry counts
    as absent; storing again under the key replaces value and time stamp
    together. *)
Theorem cache_entry_valid_iff_within_ttl cache key v storedAt now_ :
  CACHE_TTL = 300000
  /\ (getCachedResult (setCachedResult cache key v storedAt) key now_ = Some v
      <-> now_ - storedAt < CACHE_TTL)
  /\ (getCachedResult (setCachedResult cache key v storedAt) key now_ = None
      <-> CACHE_TTL <= now_ - storedAt)
  /\ getCachedResult (setCachedResult cache key v storedAt) key
       (storedAt + CACHE_TTL - 1) = Some v
  /\ getCachedResult (setCachedResult cache key v storedAt) key
       (storedAt + CACHE_TTL) = None
  /\ getCachedResult (setCachedResult cache key v storedAt) key
       (storedAt + CACHE_TTL + 1) = None
  /\ (forall v' storedAt',
        setCachedResult (setCachedResult cache key v storedAt) key v' storedAt'
        = setCachedResult cache key v' storedAt').
Proof.
  split; [reflexivity|].
  rewrite !getCachedResult_set.
  repeat split.
  - destruct (Z.ltb_spec (now_ - storedAt) CACHE_TTL); [done | discriminate].
  - intros H. apply Z.ltb_lt in H. rewrite H. reflexivity.
  - destruct (Z.ltb_spec (now_ - storedAt) CACHE_TTL); [discriminate | done].
  - intros H. apply Z.ltb_ge in H. rewrite H. reflexivity.
  - replace (storedAt + CACHE_TTL - 1 - storedAt) with (CACHE_TTL - 1) by lia.
    reflexivity.
  - replace (storedAt + CACHE_TTL - storedAt) with CACHE_TTL by lia.
    reflexivity.
  - replace (storedAt + CACHE_TTL + 1 - storedAt) with (CACHE_TTL + 1) by lia.
    reflexivity.
  - intros. unfold setCachedResult. apply insert_insert_eq.
Qed.

End CacheProperties.

(** ** RetryPolicy *)

Section RetryProperties.

Import ErrorService.

Context {T : Type}.
Implicit Types (operation : World -> outcome T * World) (es : t) (w : World).

Lemma withRetry_settled operation operationId maxRetries_arg st :
  settled operation operationId maxRetries_arg (fst st)
    (withRetry operation operationId maxRetries_arg st).
Proof.
  funelim (withRetry operation operationId maxRetries_arg st); simpl.
  - (* success *)
    unfold settled; simpl. repeat split.
    + apply lookup_delete_eq.
    + intros k Hk. by rewrite lookup_delete_ne.
    + intros a [= <-]. eauto.
    + intros e [=].
  - (* failure, retry *)
    destruct H as (H1 & H2 & H3 & H4 & H5 & H6).
    unfold settled; simpl in *. repeat split; auto.
    intros k Hk. rewrite H4 by done. by rewrite lookup_insert_ne.
  - (* failure, exhausted *)
    unfold settled; simpl. repeat split.
    + apply lookup_delete_eq.
    + intros k Hk. by rewrite lookup_delete_ne.
    + intros a [=].
    + intros e [= <-]. eauto.
Qed.

End RetryProperties.

Section RetryClaims.

Import ErrorService.

Context {T : Type}.
Implicit Types (operation : World -> outcome T * World) (es : t) (w : World).

Lemma withRetry_first_failure operation operationId maxRetries_arg es w e w1 :
  operation w = (Rejected e, w1) ->
  (currentRetryCount es operationId < effectiveRetries (config es) maxRetries_arg)%nat ->
  withRetry operation operationId maxRetries_arg (es, w)
  = withRetry operation operationId maxRetries_arg
      (setRetryCount es operationId (currentRetryCount es operationId + 1),
       sleep (backoffDelay (config es) (currentRetryCount es operationId)) w1).
Proof.
  intros Hop Hlt. rewrite withRetry_equation_1. rewrite Hop. simpl.
  destruct (decide _) as [?|Hn]; [reflexivity | contradiction].
Qed.

(** C2.  When [withRetry] settles, by success or by exhaustion, the counter
    of its id is absent from the map, so the delay a later failure under the
    same id waits is the base delay again; a rejection is the
    RETRY_EXHAUSTED error whose message ends in the message of the failure
    of the last invocation. *)
Theorem withRetry_clears_counter_and_wraps_last_failure
    operation operationId maxRetries_arg es w :
  let res := withRetry operation operationId maxRetries_arg (es, w) in
  let es' := fst (snd res) in
  let w' := snd (snd res) in
  retryCount es' !! operationId = None
  /\ currentRetryCount es' operationId = 0%nat
  /\ backoffDelay (config es') (currentRetryCount es' operationId)
     = retryDelay (config es)
  /\ (forall e, fst res = Rejected e ->
        exists w0 last_failure a,
          operation w0 = (Rejected last_failure, w')
          /\ e = AppErr a
          /\ code a = "RETRY_EXHAUSTED"
          /\ message a
             = "Operation failed after "
               ++ pretty (effectiveRetries (config es) maxRetries_arg)
               ++ " retries: " ++ exn_message last_failure)
  /\ (forall operation2 maxRetries2 e2 w2,
        operation2 w' = (Rejected e2, w2) ->
        (0 < effectiveRetries (config es) maxRetries2)%nat ->
        withRetry operation2 operationId maxRetries2 (es', w')
        = withRetry operation2 operationId maxRetries2
            (setRetryCount es' operationId 1, sleep (retryDelay (config es)) w2)).
Proof.
  intros res es' w'.
  pose proof (withRetry_settled operation operationId maxRetries_arg (es, w))
    as (Habsent & Hcfg & _ & _ & _ & Hrej).
  fold res in Habsent, Hcfg, Hrej. fold es' in Habsent, Hcfg. fold w' in Hrej.
  simpl in Hcfg, Hrej.
  assert (Hcur : currentRetryCount es' operationId = 0%nat).
  { unfold currentRetryCount. by rewrite Habsent. }
  assert (Hbase : backoffDelay (config es') 0 = retryDelay (config es)).
  { unfold backoffDelay. rewrite Hcfg. simpl. lia. }
  repeat split; try assumption.
  - by rewrite Hcur.
  - intros e He. destruct (Hrej e He) as (w0 & last_failure & Hop & ->).
    eexists w0, last_failure, _. repeat split; [exact Hop | reflexivity ..].
  - intros operation2 maxRetries2 e2 w2 Hop2 Hpos.
    rewrite (withRetry_first_failure _ _ _ _ _ _ _ Hop2).
    + rewrite Hcur, Hbase. reflexivity.
    + rewrite Hcur, Hcfg. exact Hpos.
Qed.

End RetryClaims.

(** ** AlertEvaluator *)

Section AlertClaims.

Import RealTimeService.

Lemma Qgeb_true_iff a b : Qgeb a b = true <-> (b <= a)%Q.
Proof. unfold Qgeb. apply Qle_bool_iff. Qed.

Lemma Qgtb_true_iff a b : Qgtb a b = true <-> (b < a)%Q.
Proof.
  unfold Qgtb. rewrite negb_true_iff.
  split.
  - intros H. apply Qnot_le_lt. intros Hle. apply Qle_bool_iff in Hle. congruence.
  - intros H. destruct (Qle_bool a b) eqn:E; [|reflexivity].
    apply Qle_bool_iff in E. exfalso. exact (Qlt_not_le _ _ H E).
Qed.

Lemma Qgtb_false_iff a b : Qgtb a b = false <-> (a <= b)%Q.
Proof.
  unfold Qgtb. rewrite negb_false_iff. apply Qle_bool_iff.
Qed.

Lemma abs_geb_iff x bound : abs_geb x bound = true <-> at_least bound x.
Proof.
  destruct x as [q|]; simpl; [apply Qgeb_true_iff|].
  split; [discriminate|contradiction].
Qed.

Lemma positive_number_iff x : positive_number x = true <-> is_positive x.
Proof.
  destruct x as [q|]; simpl; [apply Qgtb_true_iff|].
  split; [discriminate|contradiction].
Qed.

Lemma alertFires_iff c u :
  alertFires c u = true <-> threshold_passes c u /\ direction_passes c u.
Proof.
  assert (Hdir : forall triggered : bool,
    (if triggered then
       match direction c,
             (if positive_number (change u) then increase else decrease) with
       | both, _ => true
       | increase, increase => true
       | decrease, decrease => true
       | _, _ => false
       end
     else false) = true
    <-> triggered = true /\ direction_passes c u).
  { intros [|]; [|split; [discriminate|intros [Hf _]; discriminate Hf]].
    unfold direction_passes.
    pose proof (positive_number_iff (change u)) as Hpos.
    destruct (positive_number (change u)); destruct (direction c);
      (split;
       [ intros H;
         first [ discriminate H
               | split; [reflexivity|];
                 first [ exact I | apply Hpos; reflexivity
                       | intros Hp; apply Hpos in Hp; discriminate Hp ] ]
       | intros [_ H];
         first [ reflexivity | exfalso; apply H, Hpos; reflexivity
               | apply Hpos in H; discriminate H ] ]). }
  unfold alertFires, threshold_passes.
  destruct (type c); rewrite Hdir, abs_geb_iff; reflexivity.
Qed.

Lemma checkAlerts_alerted (s : t) (u : DataUpdate) :
  alerted (checkAlerts u s)
  = match alerts s !! topicKey (indicator u) (region u) with
    | Some c => if alertFires c u then (alerted s ++ [u])%list else alerted s
    | None => alerted s
    end.
Proof.
  unfold checkAlerts.
  destruct (alerts s !! _) as [c|]; [|reflexivity].
  destruct (alertFires c u); reflexivity.
Qed.

Lemma alert_examples (u : DataUpdate) :
  let rule := mkAlert 5 percentage increase in
  (amounts_to (changePercent u) 6 -> is_positive (change u) ->
   alertFires rule u = true)
  /\ (amounts_to (changePercent u) (-6) -> is_negative (change u) ->
      alertFires rule u = false)
  /\ (amounts_to (changePercent u) 4 -> alertFires rule u = false).
Proof.
  intros rule. split; [|split].
  - intros Hp Hpos. apply alertFires_iff. split; [|exact Hpos].
    unfold threshold_passes. simpl.
    destruct (changePercent u) as [p|]; [|contradiction].
    simpl in *. rewrite Hp. discriminate.
  - intros Hp Hneg. destruct (alertFires rule u) eqn:E; [|reflexivity].
    apply alertFires_iff in E. destruct E as [_ E].
    unfold direction_passes, rule in E. simpl in E.
    destruct (change u) as [ch|]; [|contradiction].
    simpl in *. exfalso. apply (Qlt_irrefl 0). eapply Qlt_trans; eauto.
  - intros Hp. destruct (alertFires rule u) eqn:E; [|reflexivity].
    apply alertFires_iff in E. destruct E as [E _].
    unfold threshold_passes, rule in E. simpl in E.
    destruct (changePercent u) as [p|]; [|contradiction].
    simpl in *. rewrite Hp in E.
    exfalso. apply E. reflexivity.
Qed.

(** C8, as amended.  An alert is raised for an update exactly when its topic
    has a rule, the threshold test of the rule passes and the direction test
    passes, where [both] always passes, [increase] needs a positive change
    and [decrease] a change that is not positive.  With threshold 5,
    percentage, increase: a rise of 6 percent triggers, a fall of 6 percent
    and a rise of 4 percent do not. *)
Theorem alert_fires_iff_threshold_and_direction (s : t) (u : DataUpdate) :
  (alerted (checkAlerts u s) = (alerted s ++ [u])%list
   <-> exists c, alerts s !! topicKey (indicator u) (region u) = Some c
                 /\ threshold_passes c u /\ direction_passes c u)
  /\ (alerted (checkAlerts u s) = alerted s
      <-> ~ exists c, alerts s !! topicKey (indicator u) (region u) = Some c
                      /\ threshold_passes c u /\ direction_passes c u)
  /\ (let rule := mkAlert 5 percentage increase in
      (amounts_to (changePercent u) 6 -> is_positive (change u) ->
       alertFires rule u = true)
      /\ (amounts_to (changePercent u) (-6) -> is_negative (change u) ->
          alertFires rule u = false)
      /\ (amounts_to (changePercent u) 4 -> alertFires rule u = false)).
Proof.
  assert (Hne : forall l : list DataUpdate, (l ++ [u])%list <> l).
  { intros l H. apply (f_equal List.length) in H.
    rewrite length_app in H. simpl in H. lia. }
  split; [|split]; [| |apply alert_examples]; rewrite checkAlerts_alerted.
  - destruct (alerts s !! _) as [c|].
    + destruct (alertFires c u) eqn:Hf.
      * apply alertFires_iff in Hf. split; [|reflexivity].
        intros _. exists c. tauto.
      * split.
        -- intros H. exfalso. symmetry in H. exact (Hne _ H).
        -- intros (c' & [= <-] & H). apply alertFires_iff in H. congruence.
    + split.
      * intros H. exfalso. symmetry in H. exact (Hne _ H).
      * intros (c' & [=] & _).
  - destruct (alerts s !! _) as [c|].
    + destruct (alertFires c u) eqn:Hf.
      * apply alertFires_iff in Hf. split.
        -- intros H. exfalso. exact (Hne _ H).
        -- intros Hn. exfalso. apply Hn. exists c. tauto.
      * split; [|reflexivity].
        intros _ (c' & [= <-] & H). apply alertFires_iff in H. congruence.
    + split; [|reflexivity]. intros _ (c' & [=] & _).
Qed.

(** C8, the claim as stated fails: under the rule (5, percentage, decrease)
    an update with change 0 and changePercent 6 raises the alert, although
    the sign of its change is not that of a decrease. *)
Lemma alert_zero_change_counts_as_decrease :
  let rule := mkAlert 5 percentage decrease in
  let update :=
    mkUpdate 0 "co2" "Germany" (Num 415) (Num 0) (Num 6) (Own "feed") high in
  threshold_passes rule update
  /\ ~ spec_direction_passes rule update
  /\ alertFires rule update = true
  /\ alerted (checkAlerts update (setAlert "co2" "Germany" rule (new (realTimeConfig None))))
     = [update].
Proof.
  repeat split.
  - unfold threshold_passes. simpl. discriminate.
  - unfold spec_direction_passes. simpl. apply Qlt_irrefl.
Qed.

End AlertClaims.

(** ** SubscriptionManager: removal of listeners *)

Section UnsubscribeClaims.

Import RealTimeService.

Implicit Types (l : list UpdateCallback) (callback : UpdateCallback) (s : t).

Lemma indexOf_None l callback : indexOf l callback = None <-> callback ∉ l.
Proof.
  induction l as [|c l IH]; simpl.
  - split; [intros _; apply not_elem_of_nil | reflexivity].
  - destruct (Nat.eqb_spec c callback) as [->|Hne].
    + split; [discriminate|]. intros H. exfalso. apply H. left.
    + rewrite not_elem_of_cons. destruct (indexOf l callback); simpl.
      * split; [discriminate|]. intros [_ H]. apply IH in H. discriminate.
      * split; [|reflexivity]. intros _. split; [congruence|]. by apply IH.
Qed.

Lemma indexOf_Some l callback index :
  indexOf l callback = Some index -> l !! index = Some callback.
Proof.
  revert index. induction l as [|c l IH]; simpl; intros index H; [discriminate|].
  destruct (Nat.eqb_spec c callback) as [->|Hne].
  - injection H as <-. reflexivity.
  - destruct (indexOf l callback) as [j|]; simpl in H; [|discriminate].
    injection H as <-. simpl. by apply IH.
Qed.

Lemma occurrences_zero l callback : occurrences callback l = 0%nat <-> callback ∉ l.
Proof.
  unfold occurrences. induction l as [|c l IH]; simpl.
  - split; [intros _; apply not_elem_of_nil | reflexivity].
  - rewrite filter_cons. destruct (decide (c = callback)) as [->|Hne]; simpl.
    + split; [discriminate|]. intros H. exfalso. apply H. left.
    + rewrite IH, not_elem_of_cons. split; [intros; split; congruence | tauto].
Qed.

Lemma occurrences_delete l callback index :
  l !! index = Some callback ->
  occurrences callback l = S (occurrences callback (delete index l)).
Proof.
  unfold occurrences. revert index.
  induction l as [|c l IH]; intros [|index] H; simpl in *; try discriminate.
  - injection H as ->. rewrite filter_cons.
    destruct (decide (callback = callback)); [reflexivity | congruence].
  - rewrite !filter_cons. destruct (decide (c = callback)); simpl;
      rewrite (IH _ H); reflexivity.
Qed.

Lemma unsubscribe_absent key callback s :
  (forall l, subscribers s !! key = Some l -> callback ∉ l) ->
  unsubscribe key callback s = s.
Proof.
  intros H. unfold unsubscribe.
  destruct (subscribers s !! key) as [l|]; [|reflexivity].
  specialize (H l eq_refl). apply indexOf_None in H. rewrite H. reflexivity.
Qed.

Lemma stopPolling_subscribers key s :
  subscribers (stopPolling key s) = subscribers s.
Proof. unfold stopPolling. destruct (pollingIntervals s !! key); reflexivity. Qed.

Lemma unsubscribe_twice key callback s :
  (forall l, subscribers s !! key = Some l -> (occurrences callback l <= 1)%nat) ->
  unsubscribe key callback (unsubscribe key callback s) = unsubscribe key callback s.
Proof.
  intros Hocc. apply unsubscribe_absent. intros l'. unfold unsubscribe.
  destruct (subscribers s !! key) as [l|] eqn:Hl.
  2: { rewrite Hl. discriminate. }
  destruct (indexOf l callback) as [index|] eqn:Hi.
  2: { rewrite Hl. intros [= <-]. by apply indexOf_None. }
  specialize (Hocc l eq_refl).
  apply indexOf_Some in Hi.
  rewrite (occurrences_delete _ _ _ Hi) in Hocc.
  assert (Hgone : callback ∉ delete index l).
  { apply occurrences_zero. lia. }
  destruct (delete index l) as [|c rest] eqn:Hd.
  - simpl. rewrite lookup_delete_eq. discriminate.
  - simpl. rewrite lookup_insert_eq. intros [= <-]. exact Hgone.
Qed.

(** C9, as amended.  Removing a listener that is not in the list of its
    topic changes nothing, whether the topic has a list or not; and calling
    the function returned by [subscribe] a second time changes nothing
    provided the listener was registered at most once under the topic. *)
Theorem unsubscribe_idempotent_for_single_registration key callback s :
  ((forall l, subscribers s !! key = Some l -> callback ∉ l) ->
   unsubscribe key callback s = s)
  /\ ((forall l, subscribers s !! key = Some l -> (occurrences callback l <= 1)%nat) ->
      unsubscribe key callback (unsubscribe key callback s)
      = unsubscribe key callback s).
Proof.
  split; [apply unsubscribe_absent | apply unsubscribe_twice].
Qed.

(** C9, witness: two listeners 7 and 8 on one topic; 7 is removed twice. *)
Lemma unsubscribe_idempotent_witness :
  let s := subscribe "co2" "Germany" 8%nat
             (subscribe "co2" "Germany" 7%nat (new (realTimeConfig None))) in
  subscribers s !! "co2-Germany" = Some [7%nat; 8%nat]
  /\ unsubscribe "co2-Germany" 7%nat (unsubscribe "co2-Germany" 7%nat s)
     = unsubscribe "co2-Germany" 7%nat s
  /\ unsubscribe "co2-Germany" 9%nat s = s.
Proof.
  intros s. split; [reflexivity|]. split.
  - apply (proj2 (unsubscribe_idempotent_for_single_registration
                    "co2-Germany" 7%nat s)).
    intros l. change (subscribers s !! "co2-Germany") with (Some [7%nat; 8%nat]).
    intros [= <-]. vm_compute. lia.
  - apply (proj1 (unsubscribe_idempotent_for_single_registration
                    "co2-Germany" 9%nat s)).
    intros l. change (subscribers s !! "co2-Germany") with (Some [7%nat; 8%nat]).
    intros [= <-]. rewrite !not_elem_of_cons. repeat split; try lia.
    apply not_elem_of_nil.
Defined.

(** C9, the claim as stated fails: the same listener subscribed twice to a
    topic; the function returned by the first [subscribe], called a second
    time, removes the second registration, stops the timer and deletes the
    topic. *)
Lemma second_unsubscribe_removes_other_registration :
  let s := subscribe "co2" "Germany" 7%nat
             (subscribe "co2" "Germany" 7%nat (new (realTimeConfig None))) in
  let once := unsubscribe "co2-Germany" 7%nat s in
  let twice := unsubscribe "co2-Germany" 7%nat once in
  subscribers once !! "co2-Germany" = Some [7%nat]
  /\ pollingIntervals once !! "co2-Germany" = Some 1%positive
  /\ subscribers twice !! "co2-Germany" = None
  /\ pollingIntervals twice !! "co2-Germany" = None
  /\ activeTimers twice !! 1%positive = None
  /\ twice <> once.
Proof.
  intros s once twice.
  assert (H1 : subscribers once !! "co2-Germany" = Some [7%nat]) by reflexivity.
  assert (H2 : subscribers twice !! "co2-Germany" = None) by reflexivity.
  repeat split; try reflexivity.
  intros H.
  assert (Hsame : subscribers twice !! "co2-Germany"
                  = subscribers once !! "co2-Germany") by (f_equal; f_equal; exact H).
  rewrite H1, H2 in Hsame. discriminate.
Qed.

End UnsubscribeClaims.

(** ** SubscriptionManager: timers and listeners *)

Section SubscriptionInvariant.

Import RealTimeService.

Variable rnd : nat -> Q.
Variable react : UpdateCallback -> DataUpdate -> t -> list call.
Variable reactToError : ErrorCallback -> exn -> t -> list call.

Implicit Types (s : t) (w : World) (key : string) (callback : UpdateCallback).

Lemma consistent_new c : consistent (new c).
Proof.
  constructor; simpl.
  - intros key l. rewrite lookup_empty. discriminate.
  - intros key. rewrite !lookup_empty. split; intros [? [=]].
  - intros key intervalId. rewrite lookup_empty. discriminate.
  - intros intervalId i r. rewrite lookup_empty. discriminate.
  - intros intervalId. rewrite lookup_empty. intros [? [=]].
Qed.

Lemma consistent_same_registry s s' :
  same_registry s s' -> consistent s -> consistent s'.
Proof.
  intros (Hs & Hp & Ha & Hn) [Hne Hiff Hrun Horph Hfresh].
  constructor; rewrite ?Hs, ?Hp, ?Ha, ?Hn; assumption.
Qed.

Lemma same_registry_refl s : same_registry s s.
Proof. repeat split. Qed.

Lemma same_registry_trans s1 s2 s3 :
  same_registry s1 s2 -> same_registry s2 s3 -> same_registry s1 s3.
Proof.
  intros (?&?&?&?) (?&?&?&?). repeat split; congruence.
Qed.

Lemma same_registry_setAlert i r c s : same_registry s (setAlert i r c s).
Proof. repeat split. Qed.

Lemma same_registry_removeAlert i r s : same_registry s (removeAlert i r s).
Proof. repeat split. Qed.

Lemma same_registry_onError h s : same_registry s (onError h s).
Proof. repeat split. Qed.

Lemma same_registry_offError h s : same_registry s (offError h s).
Proof. unfold offError. destruct (indexOf _ h); repeat split. Qed.

Lemma same_registry_record_delivery callback u s :
  same_registry s (record_delivery callback u s).
Proof. repeat split. Qed.

Lemma same_registry_record_notification h e s :
  same_registry s (record_notification h e s).
Proof. repeat split. Qed.

Lemma same_registry_timerFires intervalId s : same_registry s (timerFires intervalId s).
Proof.
  unfold timerFires. destruct (activeTimers s !! intervalId); repeat split.
Qed.

Lemma same_registry_checkAlerts u s : same_registry s (checkAlerts u s).
Proof.
  unfold checkAlerts. destruct (alerts s !! _); [|repeat split].
  destruct (alertFires _ u); repeat split.
Qed.

Lemma same_registry_attemptReconnection s :
  same_registry s (snd (attemptReconnection s)).
Proof.
  unfold attemptReconnection.
  destruct (connectionRetries s <? retryAttempts (config s))%nat; repeat split.
Qed.

Lemma same_registry_fetchLatestData i r s w :
  same_registry s (snd (fst (fetchLatestData rnd i r s w))).
Proof.
  unfold fetchLatestData. destruct (lastValueOf s i r); repeat split.
Qed.

Lemma consistent_subscribe i r callback s :
  consistent s -> consistent (subscribe i r callback s).
Proof.
  intros [Hne Hiff Hrun Horph Hfresh]. unfold subscribe.
  set (key := topicKey i r).
  destruct (subscribers s !! key) as [l|] eqn:Hl.
  - rewrite Hl. simpl. constructor; simpl.
    + intros k l0. destruct (decide (key = k)) as [<-|Hk].
      * rewrite lookup_insert_eq. intros [= <-]. destruct l; discriminate.
      * rewrite lookup_insert_ne by done. apply Hne.
    + intros k. rewrite Hiff. destruct (decide (key = k)) as [<-|Hk].
      * rewrite lookup_insert_eq, Hl. split; eauto.
      * rewrite lookup_insert_ne by done. reflexivity.
    + exact Hrun.
    + exact Horph.
    + exact Hfresh.
  - assert (Hp : pollingIntervals s !! key = None).
    { destruct (pollingIntervals s !! key) eqn:E; [|done].
      destruct (proj1 (Hiff key)) as [? ?]; [eauto | congruence]. }
    unfold startPolling, stopPolling. simpl. fold key. rewrite Hp. simpl.
    rewrite lookup_insert_eq. simpl. rewrite insert_insert_eq.
    constructor; simpl.
    + intros k l0. destruct (decide (key = k)) as [<-|Hk].
      * rewrite lookup_insert_eq. intros [= <-]. discriminate.
      * rewrite lookup_insert_ne by done. apply Hne.
    + intros k. destruct (decide (key = k)) as [<-|Hk].
      * rewrite !lookup_insert_eq. split; eauto.
      * rewrite !lookup_insert_ne by done. apply Hiff.
    + intros k intervalId. destruct (decide (key = k)) as [<-|Hk].
      * rewrite lookup_insert_eq. intros [= <-].
        exists i, r. rewrite lookup_insert_eq. done.
      * rewrite lookup_insert_ne by done. intros Hk'.
        destruct (Hrun _ _ Hk') as (i0 & r0 & Ha & Ht).
        exists i0, r0. split; [|exact Ht].
        rewrite lookup_insert_ne; [exact Ha|].
        intros <-. specialize (Hfresh (nextTimer s) (ltac:(eauto))). lia.
    + intros intervalId i0 r0. destruct (decide (nextTimer s = intervalId)) as [<-|Hi].
      * rewrite lookup_insert_eq. intros [= <- <-]. fold key.
        apply lookup_insert_eq.
      * rewrite lookup_insert_ne by done. intros Ha.
        specialize (Horph _ _ _ Ha).
        rewrite lookup_insert_ne; [exact Horph|].
        intros Hk. rewrite <- Hk in Horph. congruence.
    + intros intervalId. destruct (decide (nextTimer s = intervalId)) as [<-|Hi].
      * intros _. lia.
      * rewrite lookup_insert_ne by done. intros Ha.
        specialize (Hfresh _ Ha). lia.
Qed.

Lemma consistent_unsubscribe key callback s :
  consistent s -> consistent (unsubscribe key callback s).
Proof.
  intros Hc. pose proof Hc as [Hne Hiff Hrun Horph Hfresh]. unfold unsubscribe.
  destruct (subscribers s !! key) as [l|] eqn:Hl; [|exact Hc].
  destruct (indexOf l callback) as [index|]; [|exact Hc].
  destruct (delete index l) as [|c rest] eqn:Hd.
  - destruct (proj2 (Hiff key)) as [intervalId Hp]; [eauto|].
    unfold stopPolling. simpl. rewrite Hp. simpl.
    destruct (Hrun _ _ Hp) as (i & r & Ha & Hkey).
    constructor; simpl.
    + intros k l0. destruct (decide (key = k)) as [<-|Hk].
      * rewrite lookup_delete_eq. discriminate.
      * rewrite lookup_delete_ne, lookup_insert_ne by done. apply Hne.
    + intros k. destruct (decide (key = k)) as [<-|Hk].
      * rewrite !lookup_delete_eq. split; intros [? [=]].
      * rewrite !lookup_delete_ne, lookup_insert_ne by done. apply Hiff.
    + intros k id. destruct (decide (key = k)) as [<-|Hk].
      * rewrite lookup_delete_eq. discriminate.
      * rewrite lookup_delete_ne by done. intros Hk'.
        destruct (Hrun _ _ Hk') as (i0 & r0 & Ha0 & Ht).
        exists i0, r0. split; [|exact Ht].
        rewrite lookup_delete_ne; [exact Ha0|].
        intros <-. rewrite Ha in Ha0. injection Ha0 as <- <-. congruence.
    + intros id i0 r0. destruct (decide (intervalId = id)) as [<-|Hi].
      * rewrite lookup_delete_eq. discriminate.
      * rewrite lookup_delete_ne by done. intros Ha0.
        specialize (Horph _ _ _ Ha0).
        rewrite lookup_delete_ne; [exact Horph|].
        intros Hk. rewrite <- Hk in Horph. congruence.
    + intros id. destruct (decide (intervalId = id)) as [<-|Hi].
      * rewrite lookup_delete_eq. intros [? [=]].
      * rewrite lookup_delete_ne by done. apply Hfresh.
  - constructor; simpl.
    + intros k l0. destruct (decide (key = k)) as [<-|Hk].
      * rewrite lookup_insert_eq. intros [= <-]. discriminate.
      * rewrite lookup_insert_ne by done. apply Hne.
    + intros k. rewrite Hiff. destruct (decide (key = k)) as [<-|Hk].
      * rewrite lookup_insert_eq, Hl. split; eauto.
      * rewrite lookup_insert_ne by done. reflexivity.
    + exact Hrun.
    + exact Horph.
    + exact Hfresh.
Qed.

Lemma cleared_timers (timers : gmap positive (string * string))
    (intervals : gmap string positive) intervalId topic :
  map_fold (fun _ id acc => delete id acc) timers intervals !! intervalId = Some topic ->
  timers !! intervalId = Some topic
  /\ forall key, intervals !! key <> Some intervalId.
Proof.
  revert intervalId topic.
  apply (map_fold_weak_ind
           (fun acc (m : gmap string positive) =>
              forall intervalId topic, acc !! intervalId = Some topic ->
                timers !! intervalId = Some topic
                /\ forall key, m !! key <> Some intervalId)).
  - intros intervalId topic H. split; [exact H|].
    intros key. rewrite lookup_empty. discriminate.
  - intros k id m acc Hk IH intervalId topic H.
    destruct (decide (id = intervalId)) as [<-|Hne].
    + rewrite lookup_delete_eq in H. discriminate.
    + rewrite lookup_delete_ne in H by done.
      destruct (IH _ _ H) as [Ht Hm]. split; [exact Ht|].
      intros key. destruct (decide (k = key)) as [<-|Hkk].
      * rewrite lookup_insert_eq. congruence.
      * rewrite lookup_insert_ne by done. apply Hm.
Qed.

Lemma consistent_disconnect s : consistent s -> consistent (disconnect s).
Proof.
  intros [Hne Hiff Hrun Horph Hfresh].
  assert (Hnone : forall intervalId topic,
            activeTimers (disconnect s) !! intervalId <> Some topic).
  { intros intervalId [i r] H. simpl in H.
    apply cleared_timers in H as [Ha Hno].
    exact (Hno _ (Horph _ _ _ Ha)). }
  constructor.
  - simpl. intros key l. rewrite lookup_empty. discriminate.
  - simpl. intros key. rewrite !lookup_empty. split; intros [? [=]].
  - simpl. intros key intervalId. rewrite lookup_empty. discriminate.
  - intros intervalId i r H. exfalso. exact (Hnone _ _ H).
  - intros intervalId [topic H]. exfalso. exact (Hnone _ _ H).
Qed.

Lemma consistent_perform c s : consistent s -> consistent (perform c s).
Proof.
  intros Hc. destruct c; simpl.
  - by apply consistent_subscribe.
  - by apply consistent_unsubscribe.
  - eapply consistent_same_registry; [apply same_registry_setAlert | exact Hc].
  - eapply consistent_same_registry; [apply same_registry_removeAlert | exact Hc].
  - eapply consistent_same_registry; [apply same_registry_onError | exact Hc].
  - eapply consistent_same_registry; [apply same_registry_offError | exact Hc].
  - by apply consistent_disconnect.
Qed.

(** *** What holds through a walk over listeners *)

Lemma forEach_invariant {State Item : Type} (P : State -> Prop)
    (content : State -> list Item) (visit : Item -> State -> State) :
  (forall x st, P st -> P (visit x st)) ->
  forall n k st, P st -> P (forEach content visit k n st).
Proof.
  intros Hv n. induction n as [|n IH]; intros k st Hst; simpl; [exact Hst|].
  destruct (content st !! k); apply IH; [apply Hv|]; exact Hst.
Qed.

Lemma performs_invariant (P : t -> Prop) (calls : list call) :
  (forall c s, c ∈ calls -> P s -> P (perform c s)) ->
  forall s, P s -> P (foldl (fun s c => perform c s) s calls).
Proof.
  induction calls as [|c calls IH]; intros H s Hs; simpl; [exact Hs|].
  apply IH.
  - intros c' s' Hin. apply H. by right.
  - apply H; [left | exact Hs].
Qed.

Lemma snd_performWalking key (st : walk * t) c :
  snd (performWalking key st c) = perform c (snd st).
Proof. by destruct st. Qed.

Lemma snd_foldl_performWalking key calls (st : walk * t) :
  snd (foldl (performWalking key) st calls)
  = foldl (fun s c => perform c s) (snd st) calls.
Proof.
  revert st. induction calls as [|c calls IH]; intros st; simpl; [done|].
  by rewrite IH, snd_performWalking.
Qed.

Lemma snd_deliver key u callback (st : walk * t) :
  snd (deliver react key u callback st)
  = foldl (fun s c => perform c s) (record_delivery callback u (snd st))
      (react callback u (record_delivery callback u (snd st))).
Proof. unfold deliver. by rewrite snd_foldl_performWalking. Qed.

Lemma handleUpdate_invariant (P : t -> Prop) u s :
  (forall callback s', P s' -> P (record_delivery callback u s')) ->
  (forall callback s1 c s', c ∈ react callback u s1 -> P s' -> P (perform c s')) ->
  P (checkAlerts u s) -> P (handleUpdate react u s).
Proof.
  intros Hrec Hperf Hs. unfold handleUpdate.
  destruct (subscribers (checkAlerts u s) !! _) as [l|]; [|exact Hs].
  apply (forEach_invariant (fun st => P (snd st))); [|exact Hs].
  intros callback st Hst. rewrite snd_deliver.
  apply performs_invariant; [|by apply Hrec].
  intros c s' Hin. exact (Hperf callback _ c s' Hin).
Qed.

Lemma notifyError_invariant (P : t -> Prop) e s :
  (forall h s', P s' -> P (record_notification h e s')) ->
  (forall h s1 c s', c ∈ reactToError h e s1 -> P s' -> P (perform c s')) ->
  P s -> P (notifyError reactToError e s).
Proof.
  intros Hrec Hperf Hs. unfold notifyError.
  apply (forEach_invariant P); [|exact Hs].
  intros h s' Hs'. unfold notify.
  apply performs_invariant; [|by apply Hrec].
  intros c s2 Hin. exact (Hperf h _ c s2 Hin).
Qed.

Lemma consistent_handleUpdate u s :
  consistent s -> consistent (handleUpdate react u s).
Proof.
  intros Hc. apply handleUpdate_invariant.
  - intros callback s'.
    apply consistent_same_registry, same_registry_record_delivery.
  - intros callback s1 c s' _. apply consistent_perform.
  - revert Hc. apply consistent_same_registry, same_registry_checkAlerts.
Qed.

Lemma consistent_notifyError e s :
  consistent s -> consistent (notifyError reactToError e s).
Proof.
  intros Hc. apply notifyError_invariant; [| |exact Hc].
  - intros h s'.
    apply consistent_same_registry, same_registry_record_notification.
  - intros h s1 c s' _. apply consistent_perform.
Qed.

Lemma consistent_fetchSettles n s w :
  consistent s -> consistent (fst (fetchSettles rnd react reactToError n s w)).
Proof.
  intros Hc. unfold fetchSettles.
  destruct (inflight s !! n) as [[i r]|]; [|exact Hc].
  match goal with
  | |- context [fetchLatestData rnd i r ?s1 ?w1] =>
      pose proof (same_registry_fetchLatestData i r s1 w1) as Hreg;
      destruct (fetchLatestData rnd i r s1 w1) as [[o s2] w2]
  end.
  simpl in Hreg.
  assert (Hc2 : consistent s2).
  { eapply consistent_same_registry; [|exact Hc].
    destruct Hreg as (?&?&?&?). repeat split; assumption. }
  destruct o; simpl; [by apply consistent_handleUpdate | by apply consistent_notifyError].
Qed.

Lemma consistent_step e s w :
  consistent s -> consistent (fst (step rnd react reactToError e (s, w))).
Proof.
  intros Hc. destruct e; simpl.
  - by apply consistent_subscribe.
  - by apply consistent_unsubscribe.
  - eapply consistent_same_registry; [apply same_registry_setAlert | exact Hc].
  - eapply consistent_same_registry; [apply same_registry_removeAlert | exact Hc].
  - eapply consistent_same_registry; [apply same_registry_onError | exact Hc].
  - eapply consistent_same_registry; [apply same_registry_offError | exact Hc].
  - eapply consistent_same_registry; [apply same_registry_timerFires | exact Hc].
  - by apply consistent_fetchSettles.
  - by apply consistent_handleUpdate.
  - by apply consistent_disconnect.
  - eapply consistent_same_registry; [|exact Hc]. repeat split.
  - eapply consistent_same_registry; [apply same_registry_attemptReconnection | exact Hc].
  - by apply consistent_notifyError.
Qed.

Lemma run_snoc es e st :
  run rnd react reactToError (es ++ [e]) st
  = step rnd react reactToError e (run rnd react reactToError es st).
Proof. unfold run. rewrite foldl_app. reflexivity. Qed.

Lemma consistent_run es c w :
  consistent (fst (run rnd react reactToError es (new c, w))).
Proof.
  induction es as [|e es IH] using rev_ind.
  - apply consistent_new.
  - rewrite run_snoc. destruct (run rnd react reactToError es (new c, w)) as [s1 w1].
    by apply consistent_step.
Qed.

End SubscriptionInvariant.

Section SubscriptionLifecycle.

Import RealTimeService.

Variable rnd : nat -> Q.
Variable react : UpdateCallback -> DataUpdate -> t -> list call.
Variable reactToError : ErrorCallback -> exn -> t -> list call.

Implicit Types (s : t) (w : World) (key : string) (callback : UpdateCallback).

Lemma checkAlerts_delivered u s : delivered (checkAlerts u s) = delivered s.
Proof.
  unfold checkAlerts. destruct (alerts s !! _); [|reflexivity].
  destruct (alertFires _ u); reflexivity.
Qed.

Lemma checkAlerts_subscribers u s : subscribers (checkAlerts u s) = subscribers s.
Proof. apply same_registry_checkAlerts. Qed.

Lemma stopPolling_delivered key s : delivered (stopPolling key s) = delivered s.
Proof. unfold stopPolling. by destruct (pollingIntervals s !! key). Qed.

Lemma perform_delivered c s : delivered (perform c s) = delivered s.
Proof.
  destruct c; simpl; try reflexivity.
  - unfold subscribe. destruct (subscribers s !! _); simpl; [done|].
    by rewrite stopPolling_delivered.
  - unfold unsubscribe. destruct (subscribers s !! key) as [l|]; [|done].
    destruct (indexOf l callback); [|done].
    destruct (delete _ l); simpl; [by rewrite stopPolling_delivered | done].
  - unfold offError. by destruct (indexOf _ _).
Qed.

Lemma performs_delivered calls s :
  delivered (foldl (fun s c => perform c s) s calls) = delivered s.
Proof.
  apply (performs_invariant (fun s' => delivered s' = delivered s)); [|done].
  intros c s' _ H. by rewrite perform_delivered.
Qed.

Lemma deliver_delivered key u callback (st : walk * t) :
  delivered (snd (deliver react key u callback st))
  = (delivered (snd st) ++ [(callback, u)])%list.
Proof. by rewrite snd_deliver, performs_delivered. Qed.

(** Whatever the listeners do, [handleUpdate] only adds invocations with
    the update it was given. *)
Lemma handleUpdate_appends u s :
  exists callbacks,
    delivered (handleUpdate react u s)
    = (delivered s ++ map (fun cb => (cb, u)) callbacks)%list.
Proof.
  apply (handleUpdate_invariant react
           (fun s' => exists callbacks,
              delivered s' = (delivered s ++ map (fun cb => (cb, u)) callbacks)%list)).
  - intros callback s' [callbacks H]. exists (callbacks ++ [callback])%list.
    simpl. rewrite H, map_app, app_assoc. done.
  - intros callback s1 c s' _ [callbacks H]. exists callbacks.
    by rewrite perform_delivered.
  - exists []. by rewrite checkAlerts_delivered, app_nil_r.
Qed.

(** The first listener of the list is invoked, whatever it and the others
    do. *)
Lemma handleUpdate_first u s callback rest :
  subscribers s !! topicKey (indicator u) (region u) = Some (callback :: rest) ->
  exists callbacks,
    delivered (handleUpdate react u s)
    = (delivered s ++ (callback, u) :: map (fun cb => (cb, u)) callbacks)%list.
Proof.
  intros Hl. unfold handleUpdate. rewrite checkAlerts_subscribers, Hl.
  cbn [List.length forEach]. unfold walked at 1.
  cbn [fst snd]. rewrite checkAlerts_subscribers, Hl. cbn [default lookup].
  simpl.
  apply (forEach_invariant
           (fun st => exists callbacks,
              delivered (snd st)
              = (delivered s ++ (callback, u) :: map (fun cb => (cb, u)) callbacks)%list)).
  - intros cb st [callbacks H]. exists (callbacks ++ [cb])%list.
    rewrite deliver_delivered, H, map_app. simpl.
    by rewrite <- app_assoc.
  - exists []. rewrite deliver_delivered. simpl.
    by rewrite checkAlerts_delivered.
Qed.

Lemma record_deliveries u l s :
  delivered (foldl (fun s cb => record_delivery cb u s) s l)
  = (delivered s ++ map (fun cb => (cb, u)) l)%list
  /\ same_registry s (foldl (fun s cb => record_delivery cb u s) s l)
  /\ alerted (foldl (fun s cb => record_delivery cb u s) s l) = alerted s.
Proof.
  revert s. induction l as [|cb l IH]; intros s; simpl.
  - rewrite app_nil_r. repeat split.
  - destruct (IH (record_delivery cb u s)) as (Hd & Hr & Ha).
    rewrite Hd. simpl. rewrite <- app_assoc. split; [done|]. split; [|done].
    destruct Hr as (?&?&?&?). repeat split; assumption.
Qed.

(** Listeners that call nothing back are invoked once each, in the order
    of the list. *)
Lemma handleUpdate_quiet u s l :
  subscribers s !! topicKey (indicator u) (region u) = Some l ->
  (forall cb s', cb ∈ l -> react cb u s' = []) ->
  handleUpdate react u s
  = foldl (fun s cb => record_delivery cb u s) (checkAlerts u s) l.
Proof.
  intros Hl Hquiet. unfold handleUpdate. rewrite checkAlerts_subscribers, Hl.
  set (key := topicKey (indicator u) (region u)) in *.
  assert (Hgen : forall post pre sk,
            l = (pre ++ post)%list ->
            subscribers sk !! key = Some l ->
            forEach (walked key) (deliver react key u) (List.length pre)
              (List.length post) (Attached, sk)
            = (Attached, foldl (fun s cb => record_delivery cb u s) sk post)).
  { induction post as [|x post IH]; intros pre sk Hsplit Hsk; [reflexivity|].
    cbn [List.length forEach]. unfold walked at 1. cbn [fst snd].
    assert (Hx : l !! List.length pre = Some x).
    { rewrite Hsplit. by apply list_lookup_middle. }
    rewrite Hsk. cbn [default]. change (id l) with l. rewrite Hx.
    unfold deliver at 2. cbn [fst snd].
    rewrite Hquiet by (rewrite Hsplit; apply elem_of_app; right; left).
    cbn [foldl].
    replace (S (List.length pre)) with (List.length (pre ++ [x])%list)
      by (rewrite length_app; simpl; lia).
    rewrite (IH (pre ++ [x])%list (record_delivery x u sk)).
    - reflexivity.
    - by rewrite <- app_assoc.
    - exact Hsk. }
  specialize (Hgen l [] (checkAlerts u s) eq_refl).
  simpl in Hgen. rewrite Hgen; [reflexivity|].
  by rewrite checkAlerts_subscribers.
Qed.

(** A listener that unsubscribes itself while it is invoked moves its
    successor into the slot the walk has just left: the successor is not
    invoked. *)
Lemma handleUpdate_skips u s a b :
  a <> b ->
  subscribers s !! topicKey (indicator u) (region u) = Some [a; b] ->
  (forall s', react a u s'
              = [CallUnsubscribe (topicKey (indicator u) (region u)) a]) ->
  delivered (handleUpdate react u s) = (delivered s ++ [(a, u)])%list
  /\ subscribers (handleUpdate react u s) !! topicKey (indicator u) (region u)
     = Some [b].
Proof.
  intros Hab Hl Ha.
  set (key := topicKey (indicator u) (region u)) in *.
  set (s1 := record_delivery a u (checkAlerts u s)).
  assert (Hs1 : subscribers s1 !! key = Some [a; b]).
  { subst s1. simpl. by rewrite checkAlerts_subscribers. }
  assert (Hun : unsubscribe key a s1
                = set_subscribers s1 (<[key := [b]]> (subscribers s1))).
  { unfold unsubscribe. rewrite Hs1. simpl. rewrite Nat.eqb_refl. reflexivity. }
  assert (Hfirst : deliver react key u a (Attached, checkAlerts u s)
                   = (Attached, unsubscribe key a s1)).
  { unfold deliver. cbn [fst snd]. fold s1. rewrite Ha. cbn [foldl].
    unfold performWalking. cbn [perform]. rewrite Hun. simpl.
    by rewrite lookup_insert_eq. }
  assert (Heq : handleUpdate react u s = unsubscribe key a s1).
  { unfold handleUpdate. fold key. rewrite checkAlerts_subscribers, Hl.
    cbn [List.length forEach]. unfold walked at 1. cbn [fst snd].
    rewrite checkAlerts_subscribers, Hl. cbn [default]. change (id [a; b]) with [a; b].
    cbn [lookup list_lookup]. rewrite Hfirst.
    unfold walked. cbn [fst snd]. rewrite Hun. simpl.
    by rewrite lookup_insert_eq. }
  rewrite Heq, Hun. simpl. rewrite lookup_insert_eq, checkAlerts_delivered.
  done.
Qed.

Lemma notifyError_delivered e s :
  delivered (notifyError reactToError e s) = delivered s.
Proof.
  apply (notifyError_invariant reactToError (fun s' => delivered s' = delivered s));
    [done | | done].
  intros h s1 c s' _ H. by rewrite perform_delivered.
Qed.

Lemma notifyError_no_handlers e s :
  errorHandlers s = [] -> notifyError reactToError e s = s.
Proof. intros H. unfold notifyError. by rewrite H. Qed.

Lemma fetchLatestData_registry i r s w :
  let '(o, s', _) := fetchLatestData rnd i r s w in
  subscribers s' = subscribers s /\ delivered s' = delivered s
  /\ errorHandlers s' = errorHandlers s /\ alerts s' = alerts s
  /\ forall u, o = Resolved u -> indicator u = i /\ region u = r.
Proof.
  unfold fetchLatestData. destruct (lastValueOf s i r); simpl.
  - repeat split; by injection H as <-.
  - repeat split; discriminate.
Qed.

(** *** A key nobody listens to *)

Lemma perform_silent key c s :
  ~ call_subscribes_to key c ->
  subscribers s !! key = None ->
  subscribers (perform c s) !! key = None.
Proof.
  intros Hns Hnone. destruct c; simpl in *; try exact Hnone.
  - unfold subscribe. set (k := topicKey indicator_ region_) in *.
    assert (Hk : k <> key) by exact Hns.
    destruct (subscribers s !! k) eqn:Hl; simpl.
    + by rewrite lookup_insert_ne.
    + unfold startPolling. simpl. fold k. rewrite stopPolling_subscribers. simpl.
      by rewrite !lookup_insert_ne.
  - unfold unsubscribe. destruct (decide (key0 = key)) as [->|Hk].
    + by rewrite Hnone.
    + destruct (subscribers s !! key0) as [l|]; [|done].
      destruct (indexOf l callback) as [index|]; [|done].
      destruct (delete index l); simpl.
      * rewrite stopPolling_subscribers. simpl.
        by rewrite lookup_delete_ne, lookup_insert_ne.
      * by rewrite lookup_insert_ne.
  - unfold offError. by destruct (indexOf _ _).
  - apply lookup_empty.
Qed.

Lemma deliveries_for_perform key c s :
  deliveries_for key (perform c s) = deliveries_for key s.
Proof. unfold deliveries_for. by rewrite perform_delivered. Qed.

Lemma deliveries_for_elsewhere key callback u s :
  topicKey (indicator u) (region u) <> key ->
  deliveries_for key (record_delivery callback u s) = deliveries_for key s.
Proof.
  intros Hne. unfold deliveries_for. simpl. rewrite filter_app, filter_cons.
  destruct (decide (delivery_key (callback, u) = key)) as [H|_];
    [exact (False_ind _ (Hne H))|]. by rewrite filter_nil, app_nil_r.
Qed.

Lemma silent_handleUpdate key u s :
  (forall callback s1, Forall (fun c => ~ call_subscribes_to key c) (react callback u s1)) ->
  subscribers s !! key = None ->
  subscribers (handleUpdate react u s) !! key = None
  /\ deliveries_for key (handleUpdate react u s) = deliveries_for key s.
Proof.
  intros Hquiet Hnone.
  destruct (decide (topicKey (indicator u) (region u) = key)) as [Hk|Hk].
  - unfold handleUpdate. rewrite checkAlerts_subscribers, Hk, Hnone.
    rewrite checkAlerts_subscribers. split; [exact Hnone|].
    unfold deliveries_for. by rewrite checkAlerts_delivered.
  - apply (handleUpdate_invariant react
             (fun s' => subscribers s' !! key = None
                        /\ deliveries_for key s' = deliveries_for key s)).
    + intros callback s' [Hs Hd]. split; [exact Hs|].
      by rewrite deliveries_for_elsewhere.
    + intros callback s1 c s' Hin [Hs Hd]. split.
      * apply perform_silent; [|exact Hs].
        specialize (Hquiet callback s1). rewrite Forall_forall in Hquiet.
        by apply Hquiet.
      * by rewrite deliveries_for_perform.
    + rewrite checkAlerts_subscribers. split; [exact Hnone|].
      unfold deliveries_for. by rewrite checkAlerts_delivered.
Qed.

Lemma silent_notifyError key e s :
  (forall h s1, Forall (fun c => ~ call_subscribes_to key c) (reactToError h e s1)) ->
  subscribers s !! key = None ->
  subscribers (notifyError reactToError e s) !! key = None
  /\ deliveries_for key (notifyError reactToError e s) = deliveries_for key s.
Proof.
  intros Hquiet Hnone.
  apply (notifyError_invariant reactToError
           (fun s' => subscribers s' !! key = None
                      /\ deliveries_for key s' = deliveries_for key s)).
  - intros h s' H. exact H.
  - intros h s1 c s' Hin [Hs Hd]. split.
    + apply perform_silent; [|exact Hs].
      specialize (Hquiet h s1). rewrite Forall_forall in Hquiet.
      by apply Hquiet.
    + by rewrite deliveries_for_perform.
  - done.
Qed.

Section Silence.

Variable key : string.

Hypothesis listeners_leave_the_key_alone :
  forall callback u s, Forall (fun c => ~ call_subscribes_to key c) (react callback u s).

Hypothesis handlers_leave_the_key_alone :
  forall h e s, Forall (fun c => ~ call_subscribes_to key c) (reactToError h e s).

(** A step that is not a subscription to the key leaves the key without
    listeners and adds no delivery under it. *)
Lemma silent_step e s w :
  subscribers s !! key = None ->
  ~ subscribes_to key e ->
  subscribers (fst (step rnd react reactToError e (s, w))) !! key = None
  /\ deliveries_for key (fst (step rnd react reactToError e (s, w)))
     = deliveries_for key s.
Proof.
  intros Hnone Hns. destruct e; simpl in *.
  - split; [|apply (deliveries_for_perform key (CallSubscribe indicator_ region_ callback))].
    by apply (perform_silent key (CallSubscribe indicator_ region_ callback)).
  - split; [|apply (deliveries_for_perform key (CallUnsubscribe key0 callback))].
    by apply (perform_silent key (CallUnsubscribe key0 callback)).
  - done.
  - done.
  - done.
  - unfold offError. by destruct (indexOf _ _).
  - unfold timerFires. by destruct (activeTimers s !! intervalId).
  - unfold fetchSettles. destruct (inflight s !! n) as [[i r]|]; [|done].
    match goal with
    | |- context [fetchLatestData rnd i r ?s1 ?w1] =>
        pose proof (fetchLatestData_registry i r s1 w1) as Hreg;
        destruct (fetchLatestData rnd i r s1 w1) as [[o s2] w2]
    end.
    simpl in Hreg. destruct Hreg as (Hs & Hd & _).
    assert (Hnone2 : subscribers s2 !! key = None) by (by rewrite Hs).
    assert (Hd2 : deliveries_for key s2 = deliveries_for key s).
    { unfold deliveries_for. by rewrite Hd. }
    destruct o as [u|e]; simpl; rewrite <- Hd2.
    + by apply silent_handleUpdate.
    + by apply silent_notifyError.
  - by apply silent_handleUpdate.
  - split; [apply lookup_empty | reflexivity].
  - done.
  - unfold attemptReconnection.
    by destruct (connectionRetries s <? retryAttempts (config s))%nat.
  - by apply silent_notifyError.
Qed.

Lemma silent_run es s w :
  subscribers s !! key = None ->
  Forall (fun e => ~ subscribes_to key e) es ->
  subscribers (fst (run rnd react reactToError es (s, w))) !! key = None
  /\ deliveries_for key (fst (run rnd react reactToError es (s, w)))
     = deliveries_for key s.
Proof.
  intros Hnone. induction es as [|e es IH] using rev_ind; intros Hall.
  - done.
  - apply Forall_app in Hall as [Hes He]. rewrite Forall_singleton in He.
    destruct (IH Hes) as [Hs Hd].
    rewrite run_snoc. destruct (run rnd react reactToError es (s, w)) as [s1 w1].
    destruct (silent_step e s1 w1 Hs He) as [Hs' Hd'].
    split; [exact Hs' | etransitivity; [exact Hd' | exact Hd]].
Qed.

End Silence.

(** *** A timer at work *)

Lemma delete_last {A} (l : list A) (x : A) :
  delete (List.length l) (l ++ [x])%list = l.
Proof.
  induction l as [|y l IH]; simpl; [reflexivity|]. by rewrite IH.
Qed.

Lemma poll_unfolds intervalId i r s w :
  activeTimers s !! intervalId = Some (i, r) ->
  run rnd react reactToError
    [TimerFires intervalId; FetchSettles (List.length (inflight s))] (s, w)
  = match fetchLatestData rnd i r s (sleep 100 w) with
    | (Resolved update, s2, w1) => (handleUpdate react update s2, w1)
    | (Rejected error, s2, w1) => (notifyError reactToError error s2, w1)
    end.
Proof.
  intros Ha. unfold run. cbn [foldl step]. unfold timerFires. rewrite Ha.
  unfold fetchSettles. simpl.
  rewrite list_lookup_middle by done. rewrite delete_last.
  by destruct s.
Qed.

(** A running timer fires and its fetch settles: when the fetch succeeds the
    first listener of the key is handed the update, when it fails nobody
    is. *)
Lemma poll_reaches_first_listener key intervalId i r callback rest s w :
  subscribers s !! key = Some (callback :: rest) ->
  activeTimers s !! intervalId = Some (i, r) ->
  topicKey i r = key ->
  let polled :=
    fst (run rnd react reactToError
           [TimerFires intervalId; FetchSettles (List.length (inflight s))] (s, w)) in
  match fst (fst (fetchLatestData rnd i r s (sleep 100 w))) with
  | Resolved u =>
      indicator u = i /\ region u = r
      /\ exists callbacks,
           delivered polled
           = (delivered s ++ (callback, u) :: map (fun cb => (cb, u)) callbacks)%list
  | Rejected _ => delivered polled = delivered s
  end.
Proof.
  intros Hl Ha Hkey polled. subst polled.
  rewrite (poll_unfolds _ _ _ _ _ Ha).
  pose proof (fetchLatestData_registry i r s (sleep 100 w)) as Hreg.
  destruct (fetchLatestData rnd i r s (sleep 100 w)) as [[o s2] w2].
  destruct Hreg as (Hs & Hd & _ & _ & Hu).
  destruct o as [u|e]; cbn [fst snd].
  - destruct (Hu u eq_refl) as [Hi Hr]. split; [exact Hi|]. split; [exact Hr|].
    rewrite <- Hd. apply (handleUpdate_first u s2 callback rest).
    by rewrite Hi, Hr, Hkey, Hs.
  - by rewrite notifyError_delivered.
Qed.

End SubscriptionLifecycle.

Section SubscriptionClaim.

Import RealTimeService.

Variable rnd : nat -> Q.
Variable react : UpdateCallback -> DataUpdate -> t -> list call.
Variable reactToError : ErrorCallback -> exn -> t -> list call.

Implicit Types (s : t) (w : World) (key : string) (callback : UpdateCallback).

Lemma first_subscribe i r callback s :
  consistent s ->
  subscribers s !! topicKey i r = None ->
  let s' := subscribe i r callback s in
  pollingIntervals s' !! topicKey i r = Some (nextTimer s)
  /\ activeTimers s' !! nextTimer s = Some (i, r)
  /\ activeTimers s !! nextTimer s = None
  /\ inflight s' = (inflight s ++ [(i, r)])%list
  /\ subscribers s' !! topicKey i r = Some [callback].
Proof.
  intros [Hne Hiff Hrun Horph Hfresh] Hl s'. subst s'. unfold subscribe.
  rewrite Hl.
  assert (Hp : pollingIntervals s !! topicKey i r = None).
  { destruct (pollingIntervals s !! topicKey i r) eqn:E; [|done].
    destruct (proj1 (Hiff (topicKey i r))) as [? ?]; [eauto | congruence]. }
  unfold startPolling, stopPolling. simpl. rewrite Hp. simpl.
  rewrite !lookup_insert_eq. repeat split.
  destruct (activeTimers s !! nextTimer s) eqn:E; [|done].
  specialize (Hfresh (nextTimer s) (ltac:(eauto))). lia.
Qed.

Lemma later_subscribe i r callback s l :
  subscribers s !! topicKey i r = Some l ->
  let s' := subscribe i r callback s in
  subscribers s' !! topicKey i r = Some (l ++ [callback])%list
  /\ pollingIntervals s' = pollingIntervals s
  /\ activeTimers s' = activeTimers s
  /\ inflight s' = inflight s.
Proof.
  intros Hl s'. subst s'. unfold subscribe. rewrite Hl. simpl.
  rewrite Hl, lookup_insert_eq. done.
Qed.

Lemma remove_one_of_several key callback l s :
  consistent s ->
  subscribers s !! key = Some l ->
  callback ∈ l ->
  (2 <= List.length l)%nat ->
  let s' := unsubscribe key callback s in
  pollingIntervals s' = pollingIntervals s
  /\ activeTimers s' = activeTimers s
  /\ exists index first rest intervalId i r,
       l !! index = Some callback
       /\ delete index l = first :: rest
       /\ subscribers s' !! key = Some (first :: rest)
       /\ pollingIntervals s' !! key = Some intervalId
       /\ activeTimers s' !! intervalId = Some (i, r)
       /\ topicKey i r = key
       /\ (forall u,
             topicKey (indicator u) (region u) = key ->
             (exists callbacks,
                delivered (handleUpdate react u s')
                = (delivered s' ++ (first, u) :: map (fun cb => (cb, u)) callbacks)%list)
             /\ ((forall cb s1, cb ∈ first :: rest -> react cb u s1 = []) ->
                 delivered (handleUpdate react u s')
                 = (delivered s' ++ map (fun cb => (cb, u)) (first :: rest))%list))
       /\ (forall w,
             let polled :=
               fst (run rnd react reactToError
                      [TimerFires intervalId; FetchSettles (List.length (inflight s'))]
                      (s', w)) in
             match fst (fst (fetchLatestData rnd i r s' (sleep 100 w))) with
             | Resolved u =>
                 indicator u = i /\ region u = r
                 /\ exists callbacks,
                      delivered polled
                      = (delivered s' ++ (first, u) :: map (fun cb => (cb, u)) callbacks)%list
             | Rejected _ => delivered polled = delivered s'
             end).
Proof.
  intros [Hne Hiff Hrun Horph Hfresh] Hl Hin Hlen s'.
  destruct (proj2 (Hiff key)) as [intervalId Hp]; [eauto|].
  destruct (Hrun _ _ Hp) as (i & r & Ha & Hkey).
  destruct (indexOf l callback) as [index|] eqn:Hi.
  2: { apply indexOf_None in Hi. contradiction. }
  assert (Hs' : s' = set_subscribers s (<[key := delete index l]> (subscribers s))
                /\ exists first rest, delete index l = first :: rest).
  { subst s'. unfold unsubscribe. rewrite Hl, Hi.
    apply indexOf_Some in Hi.
    assert (Hd : List.length (delete index l) = (List.length l - 1)%nat).
    { apply length_delete. eauto. }
    destruct (delete index l) as [|c rest] eqn:Hdel; [simpl in Hd; lia|].
    split; [reflexivity | eauto]. }
  destruct Hs' as (Hs' & first & rest & Hdel).
  apply indexOf_Some in Hi.
  assert (Hsub : subscribers s' !! key = Some (first :: rest)).
  { rewrite Hs'. simpl. by rewrite lookup_insert_eq, Hdel. }
  assert (Hact : activeTimers s' !! intervalId = Some (i, r)).
  { by rewrite Hs'. }
  split; [by rewrite Hs'|]. split; [by rewrite Hs'|].
  exists index, first, rest, intervalId, i, r.
  split; [exact Hi|]. split; [exact Hdel|]. split; [exact Hsub|].
  split; [by rewrite Hs'|]. split; [exact Hact|]. split; [exact Hkey|].
  split.
  - intros u Hu. split.
    + apply (handleUpdate_first react u s' first rest). by rewrite Hu.
    + intros Hquiet. rewrite (handleUpdate_quiet react u s' (first :: rest)).
      * destruct (record_deliveries u (first :: rest) (checkAlerts u s')) as (Hd & _).
        by rewrite Hd, checkAlerts_delivered.
      * by rewrite Hu.
      * exact Hquiet.
  - intros w.
    exact (poll_reaches_first_listener rnd react reactToError key intervalId
             i r first rest s' w Hsub Hact Hkey).
Qed.

Lemma remove_last key callback s :
  consistent s ->
  subscribers s !! key = Some [callback] ->
  let s' := unsubscribe key callback s in
  subscribers s' !! key = None
  /\ pollingIntervals s' !! key = None
  /\ (exists intervalId,
        pollingIntervals s !! key = Some intervalId
        /\ is_Some (activeTimers s !! intervalId)
        /\ activeTimers s' !! intervalId = None
        /\ forall w, step rnd react reactToError (TimerFires intervalId) (s', w) = (s', w))
  /\ ((forall cb u s1, Forall (fun c => ~ call_subscribes_to key c) (react cb u s1)) ->
      (forall h e s1, Forall (fun c => ~ call_subscribes_to key c) (reactToError h e s1)) ->
      forall es w,
        Forall (fun e => ~ subscribes_to key e) es ->
        deliveries_for key (fst (run rnd react reactToError es (s', w)))
        = deliveries_for key s').
Proof.
  intros [Hne Hiff Hrun Horph Hfresh] Hl s'.
  destruct (proj2 (Hiff key)) as [intervalId Hp]; [eauto|].
  destruct (Hrun _ _ Hp) as (i & r & Ha & _).
  assert (Hs' : s' = set_subscribers
                  (stopPolling key (set_subscribers s (<[key := []]> (subscribers s))))
                  (delete key (<[key := []]> (subscribers s)))).
  { subst s'. unfold unsubscribe. rewrite Hl. simpl. rewrite Nat.eqb_refl. simpl.
    rewrite stopPolling_subscribers. reflexivity. }
  assert (Hsub : subscribers s' !! key = None).
  { rewrite Hs'. simpl. apply lookup_delete_eq. }
  assert (Hact : activeTimers s' !! intervalId = None).
  { rewrite Hs'. unfold stopPolling. simpl. rewrite Hp. simpl.
    apply lookup_delete_eq. }
  split; [exact Hsub|]. split.
  { rewrite Hs'. unfold stopPolling. simpl. rewrite Hp. simpl.
    apply lookup_delete_eq. }
  split.
  { exists intervalId. split; [exact Hp|]. split; [eauto|]. split; [exact Hact|].
    intros w. simpl. unfold timerFires. rewrite Hact. reflexivity. }
  intros Hreact Hhandlers es w Hall. by apply silent_run.
Qed.

(** C7, as amended.  In every state the service reaches, a topic key has a
    running polling timer exactly when it has a listener, and every running
    timer belongs to a key with a listener.  The first subscription of a key
    registers a fresh timer and starts one fetch at once; removing one of
    several listeners leaves the timers alone, the timer of the key keeps
    running, and when it fires and its fetch succeeds the update is handed
    to the first listener that remains (to all that remain, in order, if
    they call nothing back), while a fetch that fails hands it to nobody;
    removing the last listener deletes the list and the timer, the cancelled
    timer does nothing when fired, and no listener is invoked under the key
    again until somebody, a listener or a handler included, subscribes to
    it. *)
Theorem timer_exists_iff_topic_has_listener (es : list event)
    (c : RealTimeConfig) (w0 : World) :
  let s := fst (run rnd react reactToError es (new c, w0)) in
  (forall i r,
      (exists intervalId,
          pollingIntervals s !! topicKey i r = Some intervalId
          /\ is_Some (activeTimers s !! intervalId))
      <-> (exists callback, callback ∈ default [] (subscribers s !! topicKey i r)))
  /\ (forall intervalId i r,
        activeTimers s !! intervalId = Some (i, r) ->
        exists callback, callback ∈ default [] (subscribers s !! topicKey i r))
  /\ (forall i r callback,
        subscribers s !! topicKey i r = None ->
        let s' := subscribe i r callback s in
        pollingIntervals s' !! topicKey i r = Some (nextTimer s)
        /\ activeTimers s' !! nextTimer s = Some (i, r)
        /\ activeTimers s !! nextTimer s = None
        /\ inflight s' = (inflight s ++ [(i, r)])%list
        /\ subscribers s' !! topicKey i r = Some [callback])
  /\ (forall i r callback l,
        subscribers s !! topicKey i r = Some l ->
        let s' := subscribe i r callback s in
        subscribers s' !! topicKey i r = Some (l ++ [callback])%list
        /\ pollingIntervals s' = pollingIntervals s
        /\ activeTimers s' = activeTimers s
        /\ inflight s' = inflight s)
  /\ (forall key callback l,
        subscribers s !! key = Some l ->
        callback ∈ l ->
        (2 <= List.length l)%nat ->
        let s' := unsubscribe key callback s in
        pollingIntervals s' = pollingIntervals s
        /\ activeTimers s' = activeTimers s
        /\ exists index first rest intervalId i r,
             l !! index = Some callback
             /\ delete index l = first :: rest
             /\ subscribers s' !! key = Some (first :: rest)
             /\ pollingIntervals s' !! key = Some intervalId
             /\ activeTimers s' !! intervalId = Some (i, r)
             /\ topicKey i r = key
             /\ (forall u,
                   topicKey (indicator u) (region u) = key ->
                   (exists callbacks,
                      delivered (handleUpdate react u s')
                      = (delivered s'
                         ++ (first, u) :: map (fun cb => (cb, u)) callbacks)%list)
                   /\ ((forall cb s1, cb ∈ first :: rest -> react cb u s1 = []) ->
                       delivered (handleUpdate react u s')
                       = (delivered s'
                          ++ map (fun cb => (cb, u)) (first :: rest))%list))
             /\ (forall w,
                   let polled :=
                     fst (run rnd react reactToError
                            [TimerFires intervalId;
                             FetchSettles (List.length (inflight s'))]
                            (s', w)) in
                   match fst (fst (fetchLatestData rnd i r s' (sleep 100 w))) with
                   | Resolved u =>
                       indicator u = i /\ region u = r
                       /\ exists callbacks,
                            delivered polled
                            = (delivered s'
                               ++ (first, u) :: map (fun cb => (cb, u)) callbacks)%list
                   | Rejected _ => delivered polled = delivered s'
                   end))
  /\ (forall key callback,
        subscribers s !! key = Some [callback] ->
        let s' := unsubscribe key callback s in
        subscribers s' !! key = None
        /\ pollingIntervals s' !! key = None
        /\ (exists intervalId,
              pollingIntervals s !! key = Some intervalId
              /\ is_Some (activeTimers s !! intervalId)
              /\ activeTimers s' !! intervalId = None
              /\ forall w,
                   step rnd react reactToError (TimerFires intervalId) (s', w) = (s', w))
        /\ ((forall cb u s1,
               Forall (fun c => ~ call_subscribes_to key c) (react cb u s1)) ->
            (forall h e s1,
               Forall (fun c => ~ call_subscribes_to key c) (reactToError h e s1)) ->
            forall es' w,
              Forall (fun e => ~ subscribes_to key e) es' ->
              deliveries_for key (fst (run rnd react reactToError es' (s', w)))
              = deliveries_for key s')).
Proof.
  intros s.
  pose proof (consistent_run rnd react reactToError es c w0) as Hc. fold s in Hc.
  pose proof Hc as [Hne Hiff Hrun Horph Hfresh].
  assert (Hlisteners : forall key,
            is_Some (subscribers s !! key)
            <-> exists callback, callback ∈ default [] (subscribers s !! key)).
  { intros key. split.
    - intros [l Hl]. rewrite Hl. simpl. specialize (Hne _ _ Hl).
      destruct l as [|c0 l]; [done|]. exists c0. left.
    - intros [callback Hin]. destruct (subscribers s !! key); [eauto|].
      simpl in Hin. by apply not_elem_of_nil in Hin. }
  split; [|split; [|split; [|split; [|split]]]].
  - intros i r. rewrite <- Hlisteners, <- Hiff. split.
    + intros (intervalId & Hp & _). eauto.
    + intros [intervalId Hp]. exists intervalId. split; [exact Hp|].
      destruct (Hrun _ _ Hp) as (i0 & r0 & Ha & _). eauto.
  - intros intervalId i r Ha. apply Hlisteners, Hiff. eauto.
  - intros i r callback. by apply first_subscribe.
  - intros i r callback l. by apply later_subscribe.
  - intros key callback l. by apply remove_one_of_several.
  - intros key callback. by apply remove_last.
Qed.

(** C7, the claim as stated fails for topics.  Two topics whose keys read
    the same share one list of listeners and one timer, which polls the
    topic subscribed first: the listener of the other topic is handed the
    first topic's updates and none of its own, and once the first topic's
    listener has left, that topic is still polled.  And a topic whose
    indicator is the name of a member every object inherits has a timer and
    a listener, but each of its fetches fails: the listener is handed
    nothing. *)
Lemma colliding_topics_share_one_timer :
  let quiet := fun (_ : UpdateCallback) (_ : DataUpdate) (_ : t) => @nil call in
  let unheard := fun (_ : ErrorCallback) (_ : exn) (_ : t) => @nil call in
  let half := fun _ : nat => 1 # 2 in
  let s :=
    subscribe "x" "y-z" 2 (subscribe "x-y" "z" 1 (new (realTimeConfig None))) in
  ("x-y", "z") <> ("x", "y-z")
  /\ subscribers s !! topicKey "x" "y-z" = Some [1; 2]%nat
  /\ map_to_list (activeTimers s) = [(1%positive, ("x-y", "z"))]
  /\ inflight s = [("x-y", "z")]
  /\ map (fun d => (fst d, indicator (snd d), region (snd d)))
       (delivered (fst (run half quiet unheard [FetchSettles 0] (s, epoch))))
     = [(1%nat, "x-y", "z"); (2%nat, "x-y", "z")]
  /\ (let s' := unsubscribe (topicKey "x-y" "z") 1 s in
      subscribers s' !! topicKey "x-y" "z" = Some [2%nat]
      /\ activeTimers s' !! 1%positive = Some ("x-y", "z"))
  /\ (let lone := subscribe "constructor" "Germany" 1 (new (realTimeConfig None)) in
      let polled :=
        fst (run half quiet unheard
               [FetchSettles 0; TimerFires 1; FetchSettles 0; TimerFires 1;
                FetchSettles 0] (lone, epoch)) in
      subscribers polled !! topicKey "constructor" "Germany" = Some [1%nat]
      /\ activeTimers polled !! 1%positive = Some ("constructor", "Germany")
      /\ inflight polled = []
      /\ delivered polled = []).
Proof.
  cbv zeta. split; [discriminate|].
  repeat split; vm_compute; reflexivity.
Qed.

End SubscriptionClaim.

(** ** Similarity search: the results cache *)

Section SimilarityCache.

Import VectorSearchService.

Variable rnd : nat -> Q.
Variable Math_sin : Q -> Q.
Variable Math_cos : Q -> Q.
Variable Math_PI : Q.

Local Abbreviation findSimilarRegions := (findSimilarRegions rnd Math_sin Math_cos Math_PI).
Local Abbreviation begin := (begin Math_sin Math_cos Math_PI).
Local Abbreviation afterEmbedding := (afterEmbedding rnd).
Local Abbreviation afterSearch := (afterSearch rnd).
Local Abbreviation invoke := (invoke Math_sin Math_cos Math_PI).
Local Abbreviation resume := (resume rnd).
Local Abbreviation step := (step rnd Math_sin Math_cos Math_PI).
Local Abbreviation run := (run rnd Math_sin Math_cos Math_PI).
Local Abbreviation generateVectorSearchResults := (generateVectorSearchResults rnd).
Local Abbreviation performVectorSearch := (performVectorSearch rnd).
Local Abbreviation enhanceWithAIAnalysis := (enhanceWithAIAnalysis rnd).

Implicit Types (s : t) (w : World) (st : t * World) (c : request).

(** *** The search succeeds for an ordinary indicator and throws for an
    inherited name *)

Lemma getMatchingPatterns_ordinary indicator_ climate :
  indicator_ ∉ objectPrototypeNames -> climate ∉ objectPrototypeNames ->
  exists l, getMatchingPatterns indicator_ climate = Resolved l.
Proof.
  intros Hi Hc. unfold getMatchingPatterns.
  match goal with |- context [lookup_or ?T indicator_ ?d] =>
    destruct (lookup_or_ordinary T indicator_ d Hi) as [a ->] end.
  match goal with |- context [lookup_or ?T climate ?d] =>
    destruct (lookup_or_ordinary T climate d Hc) as [b ->] end.
  simpl. eauto.
Qed.


Lemma generateAIInsights_ordinary targetRegion_ indicator_ :
  indicator_ ∉ objectPrototypeNames ->
  exists l, generateAIInsights targetRegion_ indicator_ = Resolved l.
Proof.
  intros Hi. unfold generateAIInsights.
  match goal with |- context [lookup_or ?T indicator_ ?d] =>
    destruct (lookup_or_ordinary T indicator_ d Hi) as [a ->] end.
  simpl. eauto.
Qed.

Lemma climates_ordinary entry :
  entry ∈ regions -> snd entry ∉ objectPrototypeNames.
Proof.
  unfold regions. intros H.
  repeat (apply elem_of_cons in H as [-> | H]; [ordinary_name|]).
  by apply elem_of_nil in H.
Qed.

Lemma mapi_world_resolves {A B} (body : A -> nat -> World -> outcome B * World)
    (l : list A) index w :
  (forall a i wi, a ∈ l -> exists b, fst (body a i wi) = Resolved b) ->
  exists bs w1, mapi_world body l index w = (Resolved bs, w1).
Proof.
  revert index w. induction l as [|a l IH]; intros index w Hb; [simpl; eauto|].
  simpl. destruct (Hb a index w ltac:(left)) as [b Hbody].
  destruct (body a index w) as [[b'|e] w1]; [|discriminate].
  destruct (IH (S index) w1) as (bs & w2 & ->); [|eauto].
  intros a' i wi Ha'. apply Hb. by right.
Qed.

Lemma search_ordinary indicator_ timeRange_ targetEmbedding w :
  indicator_ ∉ objectPrototypeNames ->
  exists results w1,
    performVectorSearch targetEmbedding indicator_ timeRange_ w = (Resolved results, w1).
Proof.
  intros Hi. unfold VectorSearchService.performVectorSearch.
  destruct (mapi_world_resolves (searchResult rnd indicator_) regions 0 w)
    as (results & w1 & H).
  - intros [[region_ country_] climate] i wi Hin. unfold searchResult.
    destruct (getMatchingPatterns_ordinary indicator_ climate Hi
                (climates_ordinary _ Hin)) as [l ->].
    destruct (generateKeyMetrics rnd indicator_ i wi). simpl. eauto.
  - unfold VectorSearchService.generateVectorSearchResults. rewrite H. eauto.
Qed.

Lemma enhance_ordinary results targetRegion_ indicator_ w :
  indicator_ ∉ objectPrototypeNames ->
  exists enhanced w1,
    enhanceWithAIAnalysis results targetRegion_ indicator_ w = (Resolved enhanced, w1).
Proof.
  intros Hi. apply mapi_world_resolves.
  intros r i wi _. unfold enhance, random.
  destruct (generateAIInsights_ordinary targetRegion_ indicator_ Hi) as [l ->].
  simpl. eauto.
Qed.


(** *** One call *)

Lemma begin_hit c s w cached :
  resultsCache s !! keyOf c = Some cached ->
  begin c (s, w) = (Done cached, (s, w)).
Proof. intros H. unfold VectorSearchService.begin. by rewrite H. Qed.

Lemma begin_miss c s w :
  resultsCache s !! keyOf c = None ->
  exists embedding s1,
    begin c (s, w) = (Await (Resolved embedding), (s1, w))
    /\ resultsCache s1 = resultsCache s.
Proof.
  intros H. unfold VectorSearchService.begin, generateEmbedding. rewrite H.
  destruct (embeddingCache s !! _); eauto.
Qed.

Lemma findSimilarRegions_hit targetRegion_ indicator_ timeRange_ s w cached :
  resultsCache s !! cacheKey targetRegion_ indicator_ (default "10y" timeRange_)
  = Some cached ->
  findSimilarRegions targetRegion_ indicator_ timeRange_ (s, w)
  = (Resolved cached, (s, w)).
Proof.
  intros H. unfold VectorSearchService.findSimilarRegions.
  rewrite (begin_hit (mkCall targetRegion_ indicator_ (default "10y" timeRange_))
             s w cached H).
  reflexivity.
Qed.

Lemma findSimilarRegions_stores targetRegion_ indicator_ timeRange_ st :
  indicator_ ∉ objectPrototypeNames ->
  exists results,
    fst (findSimilarRegions targetRegion_ indicator_ timeRange_ st) = Resolved results
    /\ resultsCache (fst (snd (findSimilarRegions targetRegion_ indicator_ timeRange_ st)))
         !! cacheKey targetRegion_ indicator_ (default "10y" timeRange_)
       = Some results.
Proof.
  intros Hi. destruct st as [s w].
  set (c := mkCall targetRegion_ indicator_ (default "10y" timeRange_)).
  destruct (resultsCache s !! keyOf c) as [cached|] eqn:Hc.
  - rewrite (findSimilarRegions_hit targetRegion_ indicator_ timeRange_ s w cached Hc).
    eauto.
  - unfold VectorSearchService.findSimilarRegions. fold c.
    destruct (begin_miss c s w Hc) as (embedding & s1 & -> & Hs1).
    unfold VectorSearchService.afterEmbedding. cbn [snd fst indicator timeRange c].
    destruct (search_ordinary indicator_ (default "10y" timeRange_) embedding w Hi)
      as (results & w1 & ->).
    unfold VectorSearchService.afterSearch. cbn [snd fst indicator targetRegion c].
    destruct (enhance_ordinary results targetRegion_ indicator_ w1 Hi)
      as (enhanced & w2 & ->).
    unfold afterEnhancement. cbn [fst snd]. exists enhanced.
    split; [reflexivity|]. apply lookup_insert_eq.
Qed.


(** *** Calls in any order *)






(** [clearCache] is what ends it: right after it the entry is gone. *)
Lemma clearCache_forgets s key : resultsCache (clearCache s) !! key = None.
Proof. apply lookup_empty. Qed.

End SimilarityCache.


(** ** Numbers *)

Section NumberFacts.

Lemma Math_round_mono x y : (x <= y)%Q -> Math_round x <= Math_round y.
Proof.
  intros H. unfold Math_round. apply Qfloor_resp_le.
  apply Qplus_le_compat; [exact H | apply Qle_refl].
Qed.

Lemma round2_mono x y : (x <= y)%Q -> (round2 x <= round2 y)%Q.
Proof.
  intros H. unfold round2.
  apply Qmult_le_compat_r; [|discriminate].
  rewrite <- Zle_Qle. apply Math_round_mono.
  apply Qmult_le_compat_r; [exact H | discriminate].
Qed.

Lemma num_leb_Num x y : num_leb (Num x) (Num y) = true <-> (x <= y)%Q.
Proof. simpl. apply Qle_bool_iff. Qed.

Lemma num_geb_Num x y : num_geb (Num x) (Num y) = true <-> (y <= x)%Q.
Proof. unfold num_geb. apply num_leb_Num. Qed.

(** A band of ten percent around a value that is not negative, rounded to
    cents, straddles the rounded value. *)
Lemma rounded_band_ok (z : Z) (v : Q) :
  (0 <= v)%Q ->
  bounds_ok (mkPoint z (Num (round2 v)) (Num (round2 (v * (9 # 10))))
               (Num (round2 (v * (11 # 10))))).
Proof.
  intros Hv. split; simpl; apply Qle_bool_iff; apply round2_mono; lra.
Qed.

End NumberFacts.

(** ** Loops *)

Section LoopFacts.

Context {A : Type}.
Implicit Types (body : nat -> World -> A * World).

Lemma for_range_length body start n w :
  List.length (fst (for_range body start n w)) = n.
Proof.
  revert start w. induction n as [|n IH]; intros start w; simpl; [reflexivity|].
  destruct (body start w) as [a w1].
  specialize (IH (S start) w1).
  destruct (for_range body (S start) n w1) as [rest w2]. simpl in *. lia.
Qed.

(** The [k]-th element is what the body made in round [start + k], in a
    world that satisfies whatever the body preserves. *)
Lemma for_range_lookup_inv body start n w k (I : World -> Prop) :
  (forall i wi, I wi -> I (snd (body i wi))) ->
  I w ->
  (k < n)%nat ->
  exists wk, I wk
             /\ fst (for_range body start n w) !! k = Some (fst (body (start + k)%nat wk)).
Proof.
  intros Hpres. revert start w k.
  induction n as [|n IH]; intros start w k Hw Hk; [lia|].
  simpl. pose proof (Hpres start w Hw) as Hw1.
  destruct (body start w) as [a w1] eqn:Hb.
  specialize (IH (S start) w1).
  destruct (for_range body (S start) n w1) as [rest w2]. simpl in *.
  destruct k as [|k].
  - exists w. rewrite Nat.add_0_r, Hb. done.
  - destruct (IH k Hw1 ltac:(lia)) as (wk & Hwk & Hlk).
    exists wk. split; [exact Hwk|]. simpl. rewrite Hlk. do 3 f_equal. lia.
Qed.

Lemma for_range_lookup body start n w k :
  (k < n)%nat ->
  exists wk, fst (for_range body start n w) !! k = Some (fst (body (start + k)%nat wk)).
Proof.
  intros Hk.
  destruct (for_range_lookup_inv body start n w k (fun _ => True)) as (wk & _ & H);
    eauto.
Qed.

Lemma for_range_elem body start n w (P : A -> Prop) :
  (forall i wi, P (fst (body i wi))) ->
  Forall P (fst (for_range body start n w)).
Proof.
  intros HP. revert start w. induction n as [|n IH]; intros start w; simpl.
  - constructor.
  - pose proof (HP start w) as Ha. destruct (body start w) as [a w1].
    specialize (IH (S start) w1).
    destruct (for_range body (S start) n w1) as [rest w2]. simpl in *.
    constructor; assumption.
Qed.

End LoopFacts.

(** ** Tables keyed by indicator and time range *)

Section TableFacts.

Import BigQueryService.

Lemma getBaseValue_own indicator_ b :
  getBaseValue indicator_ = Own b -> (0 < b)%Q.
Proof.
  unfold getBaseValue, lookup_or. cbn [own].
  repeat (destruct (String.eqb indicator_ _); [intros [= <-]; reflexivity|]).
  destruct (bool_decide _); [discriminate|]. intros [= <-]. reflexivity.
Qed.


Lemma getBaseValue_found indicator_ :
  if bool_decide (indicator_ ∈ objectPrototypeNames)
  then getBaseValue indicator_ = Inherited indicator_
       /\ getTrendMultiplier indicator_ = Inherited indicator_
  else exists b t, getBaseValue indicator_ = Own b
                   /\ getTrendMultiplier indicator_ = Own t.
Proof.
  case_bool_decide as Hin.
  - unfold objectPrototypeNames in Hin.
    repeat (apply elem_of_cons in Hin as [-> | Hin]; [split; reflexivity|]).
    by apply elem_of_nil in Hin.
  - unfold getBaseValue, getTrendMultiplier, lookup_or. cbn [own].
    repeat (destruct (String.eqb indicator_ _); [eauto|]).
    rewrite bool_decide_eq_false_2 by exact Hin. eauto.
Qed.

Lemma getTimeHorizon_cases timeRange_ :
  iterations (getTimeHorizon timeRange_) = 12%nat
  \/ iterations (getTimeHorizon timeRange_) = 60%nat
  \/ iterations (getTimeHorizon timeRange_) = 120%nat
  \/ (iterations (getTimeHorizon timeRange_) = 0%nat
      /\ timeRange_ ∈ objectPrototypeNames).
Proof.
  unfold getTimeHorizon, lookup_or. cbn [own].
  repeat (destruct (String.eqb timeRange_ _); [cbn; tauto|]).
  case_bool_decide; cbn; tauto.
Qed.

End TableFacts.

(** ** Forecast series *)

Section SeriesFacts.

Import BigQueryService.

Variable rnd : nat -> Q.
Hypothesis rnd_range : forall n, (0 <= rnd n)%Q /\ (rnd n < 1)%Q.

Variable month_of : Z -> Z.
Variable month_start : Z -> Z.
Hypothesis month_start_mono : forall a b, a < b -> month_start a < month_start b.

Variable Math_sin : Q -> Q.
Variable Math_PI : Q.

Local Abbreviation generateDemoForecast := (generateDemoForecast rnd month_of month_start).
Local Abbreviation demoPoint := (demoPoint rnd month_start).
Local Abbreviation formatForecastResult := (formatForecastResult rnd month_of month_start).
Local Abbreviation generateIntelligentForecast :=
  (generateIntelligentForecast rnd Math_sin Math_PI).
Local Abbreviation intelligentPoint := (intelligentPoint rnd Math_sin Math_PI).

Lemma demoPoint_ts end_ horizon baseValue trend_ i w :
  ts (fst (demoPoint end_ horizon baseValue trend_ i w))
  = month_start (end_ - (Z.of_nat horizon - 1 - Z.of_nat i)).
Proof. reflexivity. Qed.



Lemma demo_forecast_eq request w :
  forecast (fst (generateDemoForecast request w))
  = fst (for_range (demoPoint (month_of (now w))
                      (iterations (getTimeHorizon (timeRange request)))
                      (getBaseValue (indicator request))
                      (getTrendMultiplier (indicator request)))
           0 (iterations (getTimeHorizon (timeRange request))) w)
  /\ trend (summary (fst (generateDemoForecast request w)))
     = demoTrend (forecast (fst (generateDemoForecast request w))).
Proof.
  unfold BigQueryService.generateDemoForecast.
  destruct (for_range _ 0 _ w) as [fc w1]. simpl. done.
Qed.

Lemma demo_forecast_length request w :
  List.length (forecast (fst (generateDemoForecast request w)))
  = iterations (getTimeHorizon (timeRange request)).
Proof.
  rewrite (proj1 (demo_forecast_eq request w)). apply for_range_length.
Qed.

Lemma demo_forecast_ts request w k :
  (k < iterations (getTimeHorizon (timeRange request)))%nat ->
  exists p,
    forecast (fst (generateDemoForecast request w)) !! k = Some p
    /\ ts p = month_start
                (month_of (now w)
                 - (Z.of_nat (iterations (getTimeHorizon (timeRange request))) - 1
                    - Z.of_nat k)).
Proof.
  intros Hk. rewrite (proj1 (demo_forecast_eq request w)).
  destruct (for_range_lookup
              (demoPoint (month_of (now w))
                 (iterations (getTimeHorizon (timeRange request)))
                 (getBaseValue (indicator request))
                 (getTrendMultiplier (indicator request)))
              0 (iterations (getTimeHorizon (timeRange request))) w k Hk) as [wk Hwk].
  eexists. split; [exact Hwk|]. apply demoPoint_ts.
Qed.

Lemma demo_series_ascending request w :
  ascending_ts (forecast (fst (generateDemoForecast request w))).
Proof.
  intros i p q Hp Hq.
  assert (Hi : (S i < iterations (getTimeHorizon (timeRange request)))%nat).
  { rewrite <- (demo_forecast_length request w). eapply lookup_lt_Some, Hq. }
  destruct (demo_forecast_ts request w i ltac:(lia)) as (p' & Hp' & Htp).
  destruct (demo_forecast_ts request w (S i) Hi) as (q' & Hq' & Htq).
  rewrite Hp in Hp'. rewrite Hq in Hq'.
  injection Hp' as <-. injection Hq' as <-.
  rewrite Htp, Htq. apply month_start_mono. lia.
Qed.



Lemma formatRows_plain now_ pts :
  formatRows now_ (map (fun p => Some (plainRow p)) pts) = Some pts.
Proof.
  unfold formatRows. induction pts as [|[z v lo hi] pts IH]; [reflexivity|].
  simpl. simpl in IH. rewrite IH. reflexivity.
Qed.

Lemma format_plain_rows pts request w :
  pts <> [] ->
  fst (formatForecastResult (answerWith pts) request w)
  = mkForecastData pts
      (mkSummary (formatTrend pts)
         (getImpactMessage (indicator request) (region request))
         (getRecommendation (indicator request)) (88 # 100)).
Proof.
  intros Hne. destruct pts as [|p pts]; [done|].
  pose proof (formatRows_plain (now w) (p :: pts)) as H.
  unfold BigQueryService.formatForecastResult, answerWith.
  cbn [raw_rows default from_option id map] in *. rewrite H. reflexivity.
Qed.

Lemma intelligent_forecast_eq data horizon w :
  raw_forecast (fst (generateIntelligentForecast data horizon w))
  = Some (fst (for_range
                 (intelligentPoint (map d_value data)
                    (calculateTrend (map d_value data))
                    (detectSeasonality (map d_value data)))
                 0 (iterations horizon) w))
  /\ raw_rows (fst (generateIntelligentForecast data horizon w)) = None.
Proof.
  unfold BigQueryService.generateIntelligentForecast.
  destruct (for_range _ 0 (iterations horizon) w) as [fc w1]. done.
Qed.






End SeriesFacts.



(** ** The forecast pipeline *)

Section PipelineFacts.

Import BigQueryService.

Variable rnd : nat -> Q.
Variable month_of : Z -> Z.
Variable month_start : Z -> Z.
Variable Math_sin : Q -> Q.
Variable Math_PI : Q.
Variable remote : string -> nat -> outcome BQResponse.
Variable forecastQuery : list DataRow -> found nat -> string.
Variable JSON_stringify : list DataRow -> found nat -> string.

Local Abbreviation generateDemoForecast := (generateDemoForecast rnd month_of month_start).
Local Abbreviation formatForecastResult := (formatForecastResult rnd month_of month_start).
Local Abbreviation generateForecast :=
  (generateForecast rnd month_of month_start Math_sin Math_PI remote
     forecastQuery JSON_stringify).
Local Abbreviation forecastTimeSeries :=
  (forecastTimeSeries rnd Math_sin Math_PI remote forecastQuery JSON_stringify).
Local Abbreviation getHistoricalData := (getHistoricalData rnd month_of month_start).

Local Abbreviation demo_or_formatted := (demo_or_formatted rnd month_of month_start).

Lemma formatForecastResult_cases result_ request w :
  demo_or_formatted request (fst (formatForecastResult result_ request w)).
Proof.
  unfold BigQueryService.formatForecastResult.
  destruct (default [] (raw_rows result_)) as [|row rows_] eqn:Hr.
  - left. eauto.
  - destruct (formatRows (now w) (row :: rows_)) as [fc|] eqn:Hf.
    + right. exists (now w), (row :: rows_), fc. done.
    + left. eauto.
Qed.

Lemma demoFallback_resolves request s :
  exists d s', demoFallback rnd month_of month_start request s = (Resolved d, s')
               /\ demo_or_formatted request d.
Proof.
  unfold demoFallback.
  destruct (generateDemoForecast request (world s)) as [d w1] eqn:Hd.
  exists d, (with_world s w1). split; [reflexivity|].
  left. exists (world s). by rewrite Hd.
Qed.

Lemma getHistoricalData_resolves request w :
  exists data w', getHistoricalData request w = (Resolved data, w').
Proof.
  unfold BigQueryService.getHistoricalData.
  destruct (for_range _ 0 _ w) as [data w1]. eauto.
Qed.

Lemma forecastTimeSeries_resolves data horizon s :
  exists a s', forecastTimeSeries data horizon s = (Resolved a, s').
Proof.
  unfold BigQueryService.forecastTimeSeries.
  destruct (getCachedResult _ _ _); [eauto|].
  destruct (executeBigQueryAI remote _ s) as [[response|e] s1]; [eauto|].
  destruct (generateIntelligentForecast _ _ _ _ _ _) as [fallback w1]. eauto.
Qed.

Lemma generateForecast_resolves request s :
  exists d s', generateForecast request s = (Resolved d, s')
               /\ demo_or_formatted request d.
Proof.
  unfold BigQueryService.generateForecast.
  destruct (mode request); [apply demoFallback_resolves|].
  destruct (getHistoricalData_resolves request (world s)) as (data & w1 & ->).
  destruct (forecastTimeSeries_resolves data (getTimeHorizon (timeRange request))
              (with_world s w1)) as (a & s2 & ->).
  destruct (has_forecast a) as [r|]; [|apply demoFallback_resolves].
  pose proof (formatForecastResult_cases r request (world s2)) as Hc.
  destruct (formatForecastResult r request (world s2)) as [d w3].
  exists d, (with_world s2 w3). done.
Qed.

(** *** The trend of a series *)

Lemma demoTrend_of_series fc :
  (2 <= List.length fc)%nat -> trend_of_series fc (demoTrend fc).
Proof.
  intros Hlen. unfold demoTrend, trend_of_series.
  destruct fc as [|p fc]; [simpl in Hlen; lia|].
  destruct (last (p :: fc)) as [q|] eqn:Hl.
  2: { rewrite last_lookup in Hl. apply lookup_ge_None in Hl. simpl in *. lia. }
  exists p, q. split; [reflexivity|]. split; [reflexivity|].
  replace (1 <? List.length (p :: fc))%nat with true
    by (symmetry; apply Nat.ltb_lt; lia).
  reflexivity.
Qed.

Lemma formatTrend_of_series fc :
  fc <> [] -> trend_of_series fc (formatTrend fc).
Proof.
  intros Hne. unfold formatTrend, trend_of_series.
  destruct fc as [|p fc]; [done|].
  destruct (last (p :: fc)) as [q|] eqn:Hl.
  2: { rewrite last_lookup in Hl. apply lookup_ge_None in Hl. simpl in *. lia. }
  exists p, q. done.
Qed.

Lemma getTimeHorizon_ge_12 timeRange_ :
  timeRange_ ∉ objectPrototypeNames ->
  (12 <= iterations (getTimeHorizon timeRange_))%nat.
Proof.
  intros Hin.
  destruct (getTimeHorizon_cases timeRange_) as [H|[H|[H|[_ H]]]]; [lia..|done].
Qed.

Lemma demo_trend_of_series request w :
  timeRange request ∉ objectPrototypeNames ->
  trend_of_series (forecast (fst (generateDemoForecast request w)))
    (trend (summary (fst (generateDemoForecast request w)))).
Proof.
  intros Hin. unfold BigQueryService.generateDemoForecast.
  destruct (for_range _ 0 _ w) as [fc w1] eqn:Hfc. simpl.
  apply demoTrend_of_series.
  apply (f_equal fst) in Hfc. simpl in Hfc. rewrite <- Hfc, for_range_length.
  pose proof (getTimeHorizon_ge_12 (timeRange request) Hin). lia.
Qed.

Lemma demo_trend_read_off request w :
  trend_read_off (forecast (fst (generateDemoForecast request w)))
    (trend (summary (fst (generateDemoForecast request w)))).
Proof.
  unfold BigQueryService.generateDemoForecast.
  destruct (for_range _ 0 _ w) as [fc w1] eqn:Hfc. simpl.
  apply (f_equal fst) in Hfc. simpl in Hfc.
  pose proof (for_range_length
                (demoPoint rnd month_start (month_of (now w))
                   (iterations (getTimeHorizon (timeRange request)))
                   (getBaseValue (indicator request))
                   (getTrendMultiplier (indicator request)))
                0 (iterations (getTimeHorizon (timeRange request))) w) as Hlen.
  rewrite Hfc in Hlen.
  destruct (getTimeHorizon_cases (timeRange request)) as [H|[H|[H|[H _]]]];
    rewrite H in Hlen;
    try (left; apply demoTrend_of_series; lia).
  right. destruct fc; [done|discriminate].
Qed.

Lemma demo_or_formatted_trend request d :
  demo_or_formatted request d ->
  trend_read_off (forecast d) (trend (summary d))
  /\ (timeRange request ∉ objectPrototypeNames ->
      trend_of_series (forecast d) (trend (summary d))).
Proof.
  intros [[w ->]|(now_ & rows_ & fc & Hne & Hf & ->)].
  - split; [apply demo_trend_read_off | apply demo_trend_of_series].
  - assert (H : trend_of_series fc (formatTrend fc)).
    { apply formatTrend_of_series.
      intros ->. apply length_mapM in Hf. destruct rows_; [done|discriminate]. }
    simpl. split; [left|intros _]; exact H.
Qed.

End PipelineFacts.

(** ** The engine's fallback *)

Section EngineFallback.

Import Engine.

Variable rnd : nat -> Q.
Variable month_of : Z -> Z.
Variable month_start : Z -> Z.
Variable Math_sin : Q -> Q.
Hypothesis sin_bounded : forall x, (-1 <= Math_sin x)%Q /\ (Math_sin x <= 1)%Q.
Variable Math_PI : Q.
Variable remote : string -> nat -> outcome BigQueryService.BQResponse.
Variable forecastQuery : list BigQueryService.DataRow -> found nat -> string.
Variable JSON_stringify : list BigQueryService.DataRow -> found nat -> string.

Local Abbreviation mockPoint := (mockPoint rnd month_start Math_sin).
Local Abbreviation mockForecast := (mockForecast rnd month_of month_start Math_sin).
Local Abbreviation fetchClimateData :=
  (fetchClimateData rnd month_of month_start Math_sin Math_PI remote
     forecastQuery JSON_stringify).

Lemma trend_of_series_unique fc t1 t2 :
  trend_of_series fc t1 -> trend_of_series fc t2 -> t1 = t2.
Proof.
  intros (p1 & q1 & Hh1 & Hl1 & ->) (p2 & q2 & Hh2 & Hl2 & ->).
  rewrite Hh1 in Hh2. rewrite Hl1 in Hl2.
  injection Hh2 as <-. injection Hl2 as <-. reflexivity.
Qed.

Lemma mockPoint_gdp_value year i w :
  value (fst (mockPoint year "gdp" i w))
  = Num (round2 (50000 + Math_sin (inject_Z (Z.of_nat i) * (2 # 100)) * 5000
                 + inject_Z (Z.of_nat i) * 100)).
Proof. reflexivity. Qed.

Lemma mock_gdp_rises w :
  trend_of_series (fst (generateMockForecast rnd month_of month_start Math_sin "gdp" w))
    increasing.
Proof.
  unfold generateMockForecast.
  set (body := mockPoint (month_of (now w) / 12) "gdp").
  destruct (for_range_lookup body 0 120 w 0 ltac:(lia)) as [w0 H0].
  destruct (for_range_lookup body 0 120 w 119 ltac:(lia)) as [w119 H119].
  exists (fst (body 0%nat w0)), (fst (body 119%nat w119)).
  split; [rewrite head_lookup; exact H0|].
  split; [rewrite last_lookup, for_range_length; exact H119|].
  unfold body. rewrite !mockPoint_gdp_value.
  replace (num_geb _ _) with true; [reflexivity|].
  symmetry. apply num_geb_Num, round2_mono.
  destruct (sin_bounded (inject_Z (Z.of_nat 0) * (2 # 100))) as [_ Hhi].
  destruct (sin_bounded (inject_Z (Z.of_nat 119) * (2 # 100))) as [Hlo _].
  change (inject_Z (Z.of_nat 0)) with 0%Q in *.
  change (inject_Z (Z.of_nat 119)) with 119%Q in *.
  lra.
Qed.

Lemma fetchClimateData_import_failure climateData e forecastData s :
  fetchClimateData climateData (Rejected e) forecastData s
  = (Some (fst (mockForecast climateData (BigQueryService.world s))),
     BigQueryService.mkSys (BigQueryService.svc s)
       (ErrorService.handleError (BigQueryService.err s)
          (if negb (ErrorService.isValid
                      (ErrorService.validateClimateData (asRecord climateData)))
           then AppErr invalidParams else e))
       (snd (mockForecast climateData (BigQueryService.world s)))).
Proof.
  unfold Engine.fetchClimateData.
  destruct (negb _); destruct (mockForecast climateData _); reflexivity.
Qed.

(** C4.  The forecasts of the service carry a trend read off their own
    series, first value against last (a series is empty only when the time
    range names a member of [Object.prototype], and is then labelled
    decreasing).  The engine's fallback does not: for GDP it builds a series
    whose last value is above the first and labels it decreasing. *)
Theorem engine_fallback_trend_contradicts_series :
  (forall request s,
      exists d s',
        BigQueryService.generateForecast rnd month_of month_start Math_sin
          Math_PI remote forecastQuery JSON_stringify request s = (Resolved d, s')
        /\ trend_read_off (forecast d) (trend (summary d))
        /\ (BigQueryService.timeRange request ∉ objectPrototypeNames ->
            trend_of_series (forecast d) (trend (summary d))))
  /\ (forall region_ mode_ timeRange_ e forecastData s,
        exists mock s',
          fetchClimateData (mkClimateData "gdp" region_ mode_ timeRange_)
            (Rejected e) forecastData s = (Some mock, s')
          /\ trend (summary mock) = decreasing
          /\ trend_of_series (forecast mock) increasing
          /\ ~ trend_of_series (forecast mock) (trend (summary mock))).
Proof.
  split.
  - intros request s.
    destruct (generateForecast_resolves rnd month_of month_start Math_sin Math_PI
                remote forecastQuery JSON_stringify request s) as (d & s' & H & Hd).
    exists d, s'. split; [exact H|].
    eapply demo_or_formatted_trend, Hd.
  - intros region_ mode_ timeRange_ e forecastData s.
    rewrite fetchClimateData_import_failure.
    eexists _, _. split; [reflexivity|].
    pose proof (mock_gdp_rises (BigQueryService.world s)) as Hrise.
    unfold Engine.mockForecast. cbn [indicator].
    destruct (generateMockForecast _ _ _ _ "gdp" _) as [fc w1]. simpl in *.
    split; [reflexivity|]. split; [exact Hrise|].
    intros Hdec. pose proof (trend_of_series_unique _ _ _ Hrise Hdec). discriminate.
Qed.

End EngineFallback.

(** C4, witness: the engine falls back for GDP in the sample environment
    because the service modules fail to load. *)
Lemma engine_fallback_trend_witness :
  exists mock s',
    Engine.fetchClimateData always_half thirty_day_month_of thirty_day_month_start
      flat_sine 3%Q always_throws (fun _ _ => "") (fun _ _ => "")
      (Engine.mkClimateData "gdp" "United States" BigQueryService.demo "10y")
      (Rejected (PlainError "Failed to fetch dynamically imported module")) None
      (BigQueryService.mkSys (BigQueryService.new (BigQueryService.mkConfig "demo-project" None))
         ErrorService.errorService epoch)
    = (Some mock, s')
    /\ trend (summary mock) = decreasing
    /\ trend_of_series (forecast mock) increasing
    /\ ~ trend_of_series (forecast mock) (trend (summary mock)).
Proof.
  apply (proj2 (engine_fallback_trend_contradicts_series always_half
                  thirty_day_month_of thirty_day_month_start flat_sine
                  (fun x => conj (ltac:(discriminate) : (-1 <= flat_sine x)%Q)
                                 (ltac:(discriminate) : (flat_sine x <= 1)%Q))
                  3%Q always_throws (fun _ _ => "") (fun _ _ => ""))).
Defined.

(** ** Degradation: what a fallback result looks like *)

Section Degradation.

Import BigQueryService.

Variable rnd : nat -> Q.
Variable month_of : Z -> Z.
Variable month_start : Z -> Z.
Variable Math_sin : Q -> Q.
Variable Math_PI : Q.
Variable remote : string -> nat -> outcome BQResponse.
Hypothesis remote_throws : forall query n, exists e, remote query n = Rejected e.
Variable forecastQuery : list DataRow -> found nat -> string.
Variable JSON_stringify : list DataRow -> found nat -> string.

Local Abbreviation generateDemoForecast := (generateDemoForecast rnd month_of month_start).
Local Abbreviation generateForecast :=
  (generateForecast rnd month_of month_start Math_sin Math_PI remote
     forecastQuery JSON_stringify).
Local Abbreviation forecastTimeSeries :=
  (forecastTimeSeries rnd Math_sin Math_PI remote forecastQuery JSON_stringify).

Lemma remoteOperation_rejects query w :
  exists e, fst (remoteOperation remote query w) = Rejected e.
Proof. unfold remoteOperation. simpl. apply remote_throws. Qed.

Lemma executeBigQueryAI_rejects query s :
  exists e s', executeBigQueryAI remote query s = (Rejected e, s')
               /\ queryCache (svc s') = queryCache (svc s).
Proof.
  unfold executeBigQueryAI.
  destruct (ErrorService.isValid _).
  - pose proof (withRetry_settled (remoteOperation remote query)
                  ("bigquery-" ++ substring 0 50 query) None (err s, world s))
      as (_ & _ & _ & _ & Hres & _).
    destruct (ErrorService.withRetry _ _ _ _) as [[response|e] [es1 w1]].
    + destruct (Hres response eq_refl) as [w0 Hw0].
      destruct (remoteOperation_rejects query w0) as [e He].
      rewrite Hw0 in He. discriminate.
    + eauto.
  - eauto.
Qed.

Lemma forecastTimeSeries_falls_back data horizon s :
  queryCache (svc s) = ∅ ->
  exists r s', forecastTimeSeries data horizon s = (Resolved (AForecast r), s')
               /\ is_Some (raw_forecast r) /\ raw_rows r = None
               /\ queryCache (svc s') = ∅.
Proof.
  intros Hc. unfold BigQueryService.forecastTimeSeries, getCachedResult.
  rewrite Hc, lookup_empty.
  destruct (executeBigQueryAI_rejects (forecastQuery data horizon) s)
    as (e & s1 & -> & Hc1).
  pose proof (intelligent_forecast_eq rnd Math_sin Math_PI data horizon (world s1))
    as [Hf Hr].
  destruct (generateIntelligentForecast _ _ _ _ _ _) as [fallback w1].
  simpl in *. exists fallback, (with_world s1 w1).
  split; [reflexivity|]. split; [rewrite Hf; eauto|]. split; [exact Hr|].
  simpl. congruence.
Qed.

(** With a remote that always throws the forecast is the demo generator's. *)
Lemma generateForecast_degrades request s :
  queryCache (svc s) = ∅ ->
  exists w s', generateForecast request s
               = (Resolved (fst (generateDemoForecast request w)), s').
Proof.
  intros Hc. unfold BigQueryService.generateForecast, demoFallback.
  destruct (mode request).
  - destruct (generateDemoForecast request (world s)) as [d w1] eqn:Hd.
    exists (world s). rewrite Hd. eauto.
  - destruct (getHistoricalData_resolves rnd month_of month_start request (world s))
      as (data & w1 & ->).
    destruct (forecastTimeSeries_falls_back data (getTimeHorizon (timeRange request))
                (with_world s w1) Hc) as (r & s2 & -> & [fc Hfc] & Hrows & _).
    unfold has_forecast. rewrite Hfc.
    unfold formatForecastResult. rewrite Hrows. cbn [default from_option id].
    destruct (generateDemoForecast request (world s2)) as [d w3] eqn:Hd.
    exists (world s2). rewrite Hd. eauto.
Qed.

Lemma demoTrend_formatTrend fc :
  (2 <= List.length fc)%nat -> formatTrend fc = demoTrend fc.
Proof.
  intros Hlen. unfold formatTrend, demoTrend.
  destruct fc as [|p fc]; [simpl in Hlen; lia|].
  replace (1 <? List.length (p :: fc))%nat with true
    by (symmetry; apply Nat.ltb_lt; lia).
  cbn [lookup list_lookup andb].
  destruct (last (p :: fc)) as [q|] eqn:Hl; [reflexivity|].
  rewrite last_lookup in Hl. apply lookup_ge_None in Hl. simpl in *. lia.
Qed.

End Degradation.

Section DegradationClaim.

Import BigQueryService.

Variable rnd : nat -> Q.
Variable month_of : Z -> Z.
Variable month_start : Z -> Z.
Hypothesis month_start_mono : forall a b, a < b -> month_start a < month_start b.
Variable Math_sin : Q -> Q.
Variable Math_PI : Q.
Variable remote : string -> nat -> outcome BQResponse.
Hypothesis remote_throws : forall query n, exists e, remote query n = Rejected e.
Variable forecastQuery : list DataRow -> found nat -> string.
Variable JSON_stringify : list DataRow -> found nat -> string.

Lemma demo_accuracy request w :
  exists n,
    accuracy_score (summary (fst (generateDemoForecast rnd month_of month_start request w)))
    = ((85 # 100) + rnd n * (1 # 10))%Q.
Proof.
  unfold BigQueryService.generateDemoForecast.
  destruct (for_range _ 0 _ w) as [fc w1]. simpl. eauto.
Qed.

Lemma demo_matches_formatted request w w' :
  (2 <= iterations (getTimeHorizon (timeRange request)))%nat ->
  let d := fst (generateDemoForecast rnd month_of month_start request w) in
  let real := fst (formatForecastResult rnd month_of month_start
                     (answerWith (forecast d)) request w') in
  forecast real = forecast d
  /\ trend (summary real) = trend (summary d)
  /\ impact (summary real) = impact (summary d)
  /\ recommendation (summary real) = recommendation (summary d)
  /\ accuracy_score (summary real) = 88 # 100.
Proof.
  intros Hh d real.
  assert (Hlen : List.length (forecast d) = iterations (getTimeHorizon (timeRange request))).
  { apply demo_forecast_length. }
  assert (Hne : forecast d <> []).
  { intros E. rewrite E in Hlen. simpl in Hlen. lia. }
  subst real.
  rewrite (format_plain_rows rnd month_of month_start (forecast d) request w' Hne).
  cbn [forecast summary trend impact recommendation accuracy_score].
  split; [reflexivity|].
  split; [|subst d; unfold BigQueryService.generateDemoForecast;
           destruct (for_range _ 0 _ w) as [fc w1]; done].
  rewrite (demoTrend_formatTrend (forecast d)) by lia.
  symmetry. apply demo_forecast_eq.
Qed.

(** C5, as amended.  With a remote call that always throws, the request
    (co2, Germany, 5y) yields the series of the demo generator: 60 points,
    one per month, in strictly ascending order.  Nothing in the result says
    so: its series, trend, impact and recommendation are those the formatter
    gives a backend answer with the same rows, and its accuracy score is
    0.85 plus a tenth of a random draw where the formatter writes 0.88.  The
    feed of the real-time service labels every value it makes up with
    reliability 'high'. *)
Theorem degraded_forecast_has_sixty_ascending_months (s : Sys) :
  queryCache (svc s) = ∅ ->
  let request := mkRequest "co2" "Germany" "5y" bigquery in
  (exists d s',
      generateForecast rnd month_of month_start Math_sin Math_PI remote
        forecastQuery JSON_stringify request s = (Resolved d, s')
      /\ (exists w, d = fst (generateDemoForecast rnd month_of month_start request w))
      /\ List.length (forecast d) = 60%nat
      /\ (exists first_month,
            forall k, (k < 60)%nat ->
              exists p, forecast d !! k = Some p
                        /\ ts p = month_start (first_month + Z.of_nat k))
      /\ ascending_ts (forecast d)
      /\ (forall w',
            let real := fst (formatForecastResult rnd month_of month_start
                               (answerWith (forecast d)) request w') in
            forecast real = forecast d
            /\ trend (summary real) = trend (summary d)
            /\ impact (summary real) = impact (summary d)
            /\ recommendation (summary real) = recommendation (summary d)
            /\ accuracy_score (summary real) = 88 # 100)
      /\ (exists n,
            accuracy_score (summary d) = ((85 # 100) + rnd n * (1 # 10))%Q
            /\ ((rnd n == 3 # 10)%Q ->
                forall w',
                  same_forecast
                    (fst (formatForecastResult rnd month_of month_start
                            (answerWith (forecast d)) request w'))
                    d)))
  /\ (forall feed_rnd indicator_ region_ rt w,
        match fst (fst (RealTimeService.fetchLatestData feed_rnd
                          indicator_ region_ rt w)) with
        | Resolved update =>
            RealTimeService.reliability update = RealTimeService.high
            /\ RealTimeService.source update
               = RealTimeService.getDataSource indicator_
        | Rejected _ =>
            RealTimeService.lastValueOf rt indicator_ region_ = None
        end)
  /\ (forall feed_rnd region_ rt w,
        RealTimeService.lastValues rt !! RealTimeService.topicKey "co2" region_
        <> Some RealTimeService.Garbled ->
        exists update,
          fst (fst (RealTimeService.fetchLatestData feed_rnd "co2" region_ rt w))
          = Resolved update
          /\ RealTimeService.reliability update = RealTimeService.high
          /\ RealTimeService.source update
             = Own "NOAA Global Monitoring Laboratory").
Proof.
  intros Hc request. split; [|split].
  2: { intros feed_rnd indicator_ region_ rt w.
       unfold RealTimeService.fetchLatestData.
       destruct (RealTimeService.lastValueOf rt indicator_ region_); done. }
  2: { intros feed_rnd region_ rt w Hkept.
       unfold RealTimeService.fetchLatestData, RealTimeService.lastValueOf.
       destruct (RealTimeService.lastValues rt !! _) as [[[v|]|]|];
         [destruct (Qeq_bool v 0)| |exfalso; by apply Hkept|]; eexists; done. }
  destruct (generateForecast_degrades rnd month_of month_start Math_sin Math_PI
              remote remote_throws forecastQuery JSON_stringify request s Hc)
    as (w & s' & H).
  eexists _, s'. split; [exact H|]. split; [eauto|].
  split; [apply demo_forecast_length|]. split; [|split; [|split]].
  - exists (month_of (now w) - 59). intros k Hk.
    destruct (demo_forecast_ts rnd month_of month_start request w k Hk)
      as (p & Hp & Hts).
    exists p. split; [exact Hp|]. rewrite Hts. f_equal.
    change (iterations (getTimeHorizon (timeRange request))) with 60%nat. lia.
  - apply demo_series_ascending, month_start_mono.
  - intros w'. apply demo_matches_formatted.
    change (iterations (getTimeHorizon (timeRange request))) with 60%nat. lia.
  - destruct (demo_accuracy request w) as [n Hn]. exists n. split; [exact Hn|].
    intros Hdraw w'.
    destruct (demo_matches_formatted request w w') as (Hf & Ht & Him & Hrec & Hacc).
    { change (iterations (getTimeHorizon (timeRange request))) with 60%nat. lia. }
    unfold same_forecast. rewrite Hf, Ht, Him, Hrec, Hacc, Hn, Hdraw.
    done.
Qed.

End DegradationClaim.

(** C5, witness: the page's services in the sample environment, the remote
    throwing on every call. *)
Lemma degraded_forecast_witness :
  exists d s',
    BigQueryService.generateForecast always_half thirty_day_month_of
      thirty_day_month_start flat_sine 3%Q always_throws
      (fun _ _ => "SELECT AI.FORECAST(data_table, STRUCT(60 AS horizon))")
      (fun _ _ => "{}")
      (BigQueryService.mkRequest "co2" "Germany" "5y" BigQueryService.bigquery)
      fresh_system = (Resolved d, s')
    /\ List.length (forecast d) = 60%nat
    /\ ascending_ts (forecast d).
Proof.
  destruct (proj1 (degraded_forecast_has_sixty_ascending_months always_half
                     thirty_day_month_of thirty_day_month_start
                     (fun a b (H : a < b) =>
                        (ltac:(unfold thirty_day_month_start; lia)
                         : thirty_day_month_start a < thirty_day_month_start b))
                     flat_sine 3%Q always_throws
                     (fun query n => ex_intro _ (PlainError "backend unavailable") eq_refl)
                     (fun _ _ => "SELECT AI.FORECAST(data_table, STRUCT(60 AS horizon))")
                     (fun _ _ => "{}")
                     fresh_system eq_refl))
    as (d & s' & H & _ & Hlen & _ & Hasc & _).
  exists d, s'. auto.
Defined.

(** C5, the claim as stated fails.  With a remote that always throws, the
    forecast for (co2, Germany, 5y) is field for field what the formatter
    returns for a backend answer with the same rows: no field marks it as
    synthetic.  And the value the real-time feed makes up for co2 is
    labelled NOAA, reliability high. *)
Lemma synthetic_results_carry_no_marker :
  let request :=
    BigQueryService.mkRequest "co2" "Germany" "5y" BigQueryService.bigquery in
  (exists synthetic s',
      BigQueryService.generateForecast always_three_tenths thirty_day_month_of
        thirty_day_month_start flat_sine 3%Q always_throws
        (fun _ _ => "SELECT AI.FORECAST(data_table, STRUCT(60 AS horizon))")
        (fun _ _ => "{}") request fresh_system = (Resolved synthetic, s')
      /\ same_forecast
           (fst (BigQueryService.formatForecastResult always_three_tenths
                   thirty_day_month_of thirty_day_month_start
                   (answerWith (forecast synthetic)) request epoch))
           synthetic)
  /\ (exists update,
        fst (fst (RealTimeService.fetchLatestData always_half "co2" "Germany"
                    (RealTimeService.new (RealTimeService.realTimeConfig None))
                    epoch))
        = Resolved update
        /\ RealTimeService.reliability update = RealTimeService.high
        /\ RealTimeService.source update
           = Own "NOAA Global Monitoring Laboratory").
Proof.
  intros request. split; [|eexists; done].
  destruct (generateForecast_degrades always_three_tenths thirty_day_month_of
              thirty_day_month_start flat_sine 3%Q always_throws
              (fun query n => ex_intro _ (PlainError "backend unavailable") eq_refl)
              (fun _ _ => "SELECT AI.FORECAST(data_table, STRUCT(60 AS horizon))")
              (fun _ _ => "{}") request fresh_system eq_refl) as (w & s' & H).
  eexists _, s'. split; [exact H|].
  set (d := fst (BigQueryService.generateDemoForecast always_three_tenths
                   thirty_day_month_of thirty_day_month_start request w)).
  assert (Hlen : List.length (forecast d) = 60%nat).
  { apply demo_forecast_length. }
  assert (Hne : forecast d <> []).
  { intros E. rewrite E in Hlen. discriminate. }
  rewrite (format_plain_rows always_three_tenths thirty_day_month_of
             thirty_day_month_start (forecast d) request epoch Hne).
  unfold same_forecast. cbn [forecast summary trend impact recommendation accuracy_score].
  split; [reflexivity|].
  subst d. unfold BigQueryService.generateDemoForecast in *.
  destruct (for_range _ 0 _ w) as [fc w1]. simpl in *.
  split; [apply demoTrend_formatTrend; lia|].
  split; [reflexivity|]. split; [reflexivity|].
  unfold always_three_tenths. reflexivity.
Qed.

(** ** Further properties of the error service *)

Section ErrorServiceFacts.

Import ErrorService.

Implicit Types (es : t) (w : World).





(** *** Validation of the dashboard's parameters *)

Lemma includes_iff l (s : string) : includes l (VString s) = true <-> s ∈ l.
Proof. simpl. apply bool_decide_eq_true. Qed.

Lemma asRecord_fields d :
  get_field (Engine.asRecord d) "indicator" = VString (Engine.indicator d)
  /\ get_field (Engine.asRecord d) "region" = VString (Engine.region d)
  /\ get_field (Engine.asRecord d) "timeRange" = VString (Engine.timeRange d).
Proof.
  unfold get_field, Engine.asRecord. repeat split.
Qed.

Lemma validate_isValid data rules :
  isValid (validate data rules) = true
  <-> Forall (fun rule => check_rule rule (get_field data (field rule)) = true) rules.
Proof.
  unfold validate. cbn [isValid]. rewrite bool_decide_eq_true.
  induction rules as [|rule rules IH]; cbn [omap list_omap].
  - split; [constructor | reflexivity].
  - rewrite Forall_cons.
    destruct (check_rule rule (get_field data (field rule))); cbn [option_bind mbind].
    + rewrite IH. tauto.
    + split; [discriminate | intros [[=] _]].
Qed.

Lemma required_string (s : string) :
  check_rule (mkRule "indicator" required "Climate indicator is required" None None None)
    (VString s) = true <-> s <> "".
Proof.
  unfold check_rule. cbn [type].
  destruct s; [split; [discriminate|congruence] | split; [discriminate|reflexivity]].
Qed.

(** X2.  The engine's parameters pass [validateClimateData] exactly when
    the indicator is one of the four known ones, the region has between 2
    and 100 characters, and the time range is one of 1y, 5y, 10y. *)
Theorem validateClimateData_accepts_iff d :
  isValid (validateClimateData (Engine.asRecord d)) = true
  <-> Engine.indicator d ∈ ["co2"; "avg_temperature"; "gdp"; "renewable_adoption"]
      /\ (2 <= String.length (Engine.region d) <= 100)%nat
      /\ Engine.timeRange d ∈ ["1y"; "5y"; "10y"].
Proof.
  destruct (asRecord_fields d) as (Hi & Hr & Ht).
  unfold validateClimateData. rewrite validate_isValid. unfold climateRules.
  rewrite !Forall_cons, Forall_nil. cbn [field].
  rewrite Hi, Hr, Ht, required_string.
  unfold check_rule. cbn [type validator min max].
  rewrite !includes_iff.
  unfold Qgeb. rewrite andb_true_iff, !Qle_bool_iff.
  change 2%Q with (inject_Z 2). change 100%Q with (inject_Z 100).
  rewrite <- !Zle_Qle.
  split.
  - intros (_ & Hin & Hlen & Htr & _). split; [exact Hin|]. split; [lia | exact Htr].
  - intros (Hin & Hlen & Htr).
    split; [|split; [exact Hin|split; [lia|split; [exact Htr|exact I]]]].
    intros E. rewrite E in Hin.
    repeat (apply elem_of_cons in Hin as [Hin|Hin]; [discriminate|]).
    by apply not_elem_of_nil in Hin.
Qed.

(** *** The e-mail rule *)

Lemma span_class_app s :
  s = (fst (span_class s) ++ snd (span_class s))%string.
Proof.
  induction s as [|c s IH]; [reflexivity|]. cbn [span_class].
  destruct (email_class c); [|reflexivity].
  destruct (span_class s) as [a b]. cbn [fst snd] in *.
  change (String c a ++ b)%string with (String c (a ++ b)%string).
  by rewrite <- IH.
Qed.

Lemma has_char_app c a b :
  has_char c (a ++ b)%string = has_char c a || has_char c b.
Proof.
  induction a as [|c' a IH]; [reflexivity|].
  change (String c' a ++ b)%string with (String c' (a ++ b)%string).
  cbn [has_char]. rewrite IH. apply orb_assoc.
Qed.

Lemma span_class_prefix_clean s c :
  email_class c = false -> has_char c (fst (span_class s)) = false.
Proof.
  intros Hc. induction s as [|c' s IH]; [reflexivity|]. cbn [span_class].
  destruct (email_class c') eqn:Ec'; [|reflexivity].
  destruct (span_class s) as [a b]. cbn [fst snd has_char] in *.
  rewrite IH, orb_false_r.
  destruct (Ascii.eqb_spec c' c) as [->|]; [congruence|reflexivity].
Qed.

(** X3.  The pattern of the e-mail rule is written with doubled
    backslashes inside a regex literal, so a value passes only if it
    contains a backslash, and its part before the [@] contains no letter
    [s]; an ordinary address such as user@example.com is rejected. *)
Theorem email_rule_demands_a_backslash (value : string) :
  (email_regex_test value = true ->
   has_char "\"%char value = true
   /\ has_char "s"%char (fst (span_class value)) = false)
  /\ email_regex_test "user@example.com" = false
  /\ email_regex_test "u@example\.com" = true.
Proof.
  split; [|split; reflexivity].
  intros H. split; [|by apply span_class_prefix_clean].
  unfold email_regex_test in H.
  pose proof (span_class_app value) as Hv.
  destruct (span_class value) as [a r]. cbn [fst snd] in Hv.
  destruct a as [|a0 a]; [discriminate|].
  destruct r as [|c1 rest]; [discriminate|].
  destruct c1 as [[] [] [] [] [] [] [] []]; try discriminate H.
  pose proof (span_class_app rest) as Hr.
  destruct (span_class rest) as [b r2]. cbn [fst snd] in Hr.
  destruct b as [|b0 b]; [discriminate|].
  destruct r2 as [|c2 r3]; [discriminate|].
  destruct c2 as [[] [] [] [] [] [] [] []]; try discriminate H.
  rewrite Hv, has_char_app. cbn [has_char].
  rewrite Hr, has_char_app. cbn [has_char Ascii.eqb Bool.eqb andb].
  rewrite !orb_true_r. reflexivity.
Qed.

End ErrorServiceFacts.

(** ** Further properties of the retry policy *)

Section RetryFacts.

Import ErrorService.

Context {T : Type}.
Implicit Types (es : t) (w : World).

Lemma withRetry_exhausted (operation : World -> outcome T * World)
    operationId maxRetries_arg es w e w1 :
  operation w = (Rejected e, w1) ->
  ~ (currentRetryCount es operationId < effectiveRetries (config es) maxRetries_arg)%nat ->
  withRetry operation operationId maxRetries_arg (es, w)
  = (Rejected (AppErr (retryExhausted (effectiveRetries (config es) maxRetries_arg)
                         operationId e)),
     (deleteRetryCount es operationId, w1)).
Proof.
  intros Hop Hge. rewrite withRetry_equation_1. rewrite Hop. simpl.
  destruct (decide _) as [?|Hn]; [contradiction | reflexivity].
Qed.

Lemma withRetry_success (operation : World -> outcome T * World)
    operationId maxRetries_arg es w a w1 :
  operation w = (Resolved a, w1) ->
  withRetry operation operationId maxRetries_arg (es, w)
  = (Resolved a, (deleteRetryCount es operationId, w1)).
Proof.
  intros Hop. rewrite withRetry_equation_1. rewrite Hop. reflexivity.
Qed.

Lemma failing_from (e : exn) operationId maxRetries_arg (remaining : nat) es w :
  (currentRetryCount es operationId + remaining
   = effectiveRetries (config es) maxRetries_arg)%nat ->
  let res := withRetry (failing (T := T) e) operationId maxRetries_arg (es, w) in
  fst res = Rejected (AppErr (retryExhausted
                                (effectiveRetries (config es) maxRetries_arg)
                                operationId e))
  /\ calls (snd (snd res)) = (calls w + S remaining)%nat
  /\ now (snd (snd res))
     = now w + retryDelay (config es)
               * (2 ^ Z.of_nat (effectiveRetries (config es) maxRetries_arg)
                  - 2 ^ Z.of_nat (currentRetryCount es operationId))
  /\ draws (snd (snd res)) = draws w.
Proof.
  revert es w. induction remaining as [|remaining IH]; intros es w Hsum res; subst res.
  - rewrite (withRetry_exhausted _ _ _ _ _ e (tick_call w)); [|reflexivity|lia].
    rewrite Nat.add_0_r in Hsum. rewrite Hsum. cbn [fst snd tick_call calls now draws].
    split; [reflexivity|]. split; [lia|]. split; [|reflexivity].
    rewrite Z.sub_diag. lia.
  - rewrite (withRetry_first_failure _ _ _ _ _ e (tick_call w)); [|reflexivity|lia].
    set (es1 := setRetryCount es operationId (currentRetryCount es operationId + 1)).
    assert (Hcur : currentRetryCount es1 operationId
                   = S (currentRetryCount es operationId)).
    { unfold es1, setRetryCount. unfold currentRetryCount at 1.
      cbn [retryCount]. rewrite lookup_insert_eq. apply Nat.add_1_r. }
    specialize (IH es1 (sleep (backoffDelay (config es)
                                 (currentRetryCount es operationId)) (tick_call w))).
    change (config es1) with (config es) in IH.
    destruct IH as (Hres & Hcalls & Hnow & Hdraws); [rewrite Hcur; lia|].
    rewrite Hres, Hcalls, Hnow, Hdraws, Hcur. simpl.
    unfold backoffDelay.
    rewrite Nat2Z.inj_succ, Z.pow_succ_r by lia.
    repeat split; lia.
Qed.

(** X4.  An operation that fails every time, started with no counter for
    its id, is invoked [retries + 1] times and no more; the waits between
    the attempts add up to [retryDelay * (2^retries - 1)], and the call ends
    in the RETRY_EXHAUSTED error.  With the singleton's configuration that
    is 4 attempts and 7 seconds. *)
Theorem withRetry_bounded_attempts_and_wait (e : exn) operationId maxRetries_arg es w :
  let start := deleteRetryCount es operationId in
  let retries := effectiveRetries (config es) maxRetries_arg in
  let res := withRetry (failing (T := T) e) operationId maxRetries_arg (start, w) in
  fst res = Rejected (AppErr (retryExhausted retries operationId e))
  /\ calls (snd (snd res)) = (calls w + retries + 1)%nat
  /\ now (snd (snd res)) = now w + retryDelay (config es) * (2 ^ Z.of_nat retries - 1)
  /\ (effectiveRetries errorServiceConfig None + 1 = 4)%nat
  /\ retryDelay errorServiceConfig
     * (2 ^ Z.of_nat (effectiveRetries errorServiceConfig None) - 1) = 7000.
Proof.
  intros start retries res.
  assert (Hcur : currentRetryCount start operationId = 0%nat).
  { unfold currentRetryCount, start. simpl. by rewrite lookup_delete_eq. }
  destruct (failing_from e operationId maxRetries_arg retries start w)
    as (Hres & Hcalls & Hnow & _); [rewrite Hcur; reflexivity|].
  fold res in Hres, Hcalls, Hnow. rewrite Hcur in Hnow.
  change (config start) with (config es) in *. fold retries in Hres, Hnow.
  split; [exact Hres|]. split; [lia|]. split; [rewrite Hnow; simpl; lia|].
  split; reflexivity.
Qed.

(** X5.  A call of [withRetry] that succeeds at the first attempt waits
    for nothing and changes nothing but the counter of its id; and however
    a call ends, the counters of the other ids, the configuration and the
    error log are as before. *)
Theorem withRetry_touches_only_its_counter
    (operation : World -> outcome T * World) operationId maxRetries_arg es w :
  (forall a w1, operation w = (Resolved a, w1) ->
     withRetry operation operationId maxRetries_arg (es, w)
     = (Resolved a, (deleteRetryCount es operationId, w1)))
  /\ (let es' := fst (snd (withRetry operation operationId maxRetries_arg (es, w))) in
      config es' = config es
      /\ errorLog es' = errorLog es
      /\ forall other, other <> operationId ->
           retryCount es' !! other = retryCount es !! other).
Proof.
  split; [intros a w1; apply withRetry_success|].
  pose proof (withRetry_settled operation operationId maxRetries_arg (es, w))
    as (_ & Hc & Hl & Ho & _).
  simpl. auto.
Qed.

End RetryFacts.

(** ** Further properties of rounding and of the generators *)

Section GeneratorFacts.

Import BigQueryService.

Variable rnd : nat -> Q.
Hypothesis rnd_range : forall n, (0 <= rnd n)%Q /\ (rnd n < 1)%Q.
Variable month_of : Z -> Z.
Variable month_start : Z -> Z.

Local Abbreviation generateDemoForecast := (generateDemoForecast rnd month_of month_start).
Local Abbreviation demoPoint := (demoPoint rnd month_start).

Lemma Math_round_near x :
  (x - (1 # 2) < inject_Z (Math_round x))%Q /\ (inject_Z (Math_round x) <= x + (1 # 2))%Q.
Proof.
  unfold Math_round. split.
  - pose proof (Qlt_floor (x + (1 # 2))) as H.
    rewrite inject_Z_plus in H. change (inject_Z 1) with 1%Q in H. lra.
  - apply Qfloor_le.
Qed.

Lemma round2_near x :
  (x - (1 # 200) < round2 x)%Q /\ (round2 x <= x + (1 # 200))%Q.
Proof.
  unfold round2. destruct (Math_round_near (x * 100)) as [Hlo Hhi].
  set (n := inject_Z (Math_round (x * 100))) in *.
  split.
  - apply Qlt_shift_div_l; [reflexivity|]. lra.
  - apply Qle_shift_div_r; [reflexivity|]. lra.
Qed.

(** X6.  [Math.round(x * 100) / 100] moves a number by at most half a
    cent, never down by a full half: the result lies in
    (x - 1/200, x + 1/200]. *)
Theorem round2_within_half_a_cent x :
  (x - (1 # 200) < round2 x)%Q /\ (round2 x <= x + (1 # 200))%Q.
Proof.
  unfold round2. destruct (Math_round_near (x * 100)) as [Hlo Hhi].
  set (n := inject_Z (Math_round (x * 100))) in *.
  split.
  - apply Qlt_shift_div_l; [reflexivity|]. lra.
  - apply Qle_shift_div_r; [reflexivity|]. lra.
Qed.

Lemma for_range_world {A} (body : nat -> World -> A * World) start n w :
  (forall i wi, snd (body i wi) = tick_draw wi) ->
  snd (for_range body start n w) = mkWorld (now w) (draws w + n) (calls w).
Proof.
  intros Hb. revert start w. induction n as [|n IH]; intros start w; simpl.
  - destruct w. simpl. f_equal. lia.
  - pose proof (Hb start w) as H1. destruct (body start w) as [a w1]. simpl in H1.
    specialize (IH (S start) w1).
    destruct (for_range body (S start) n w1) as [rest w2]. simpl in *.
    rewrite IH, H1. simpl. f_equal. lia.
Qed.

Lemma demo_forecast_world request w :
  snd (generateDemoForecast request w)
  = mkWorld (now w) (draws w + iterations (getTimeHorizon (timeRange request)) + 1)
      (calls w).
Proof.
  unfold BigQueryService.generateDemoForecast.
  pose proof (for_range_world
                (demoPoint (month_of (now w))
                   (iterations (getTimeHorizon (timeRange request)))
                   (getBaseValue (indicator request))
                   (getTrendMultiplier (indicator request)))
                0 (iterations (getTimeHorizon (timeRange request))) w
                (fun i wi => eq_refl)) as Hw.
  destruct (for_range _ 0 _ w) as [fc w1]. simpl in *. rewrite Hw.
  unfold tick_draw. simpl. f_equal. lia.
Qed.

(** X7.  The demo generator draws one random number per point and one for
    the accuracy score, and does nothing else to the world: the clock and
    the count of remote calls are as before.  The series has 12, 60 or 120
    points, except that a time range naming a member of [Object.prototype]
    gives no point at all. *)
Theorem generateDemoForecast_draws request w :
  let points := List.length (forecast (fst (generateDemoForecast request w))) in
  snd (generateDemoForecast request w)
  = mkWorld (now w) (draws w + points + 1) (calls w)
  /\ (points = 12 \/ points = 60 \/ points = 120
      \/ (points = 0 /\ timeRange request ∈ objectPrototypeNames))%nat
  /\ (timeRange request ∈ objectPrototypeNames -> points = 0%nat).
Proof.
  intros points. subst points.
  rewrite (demo_forecast_length rnd month_of month_start request w).
  split; [|split; [apply getTimeHorizon_cases|]].
  - unfold BigQueryService.generateDemoForecast.
    pose proof (for_range_world
                  (demoPoint (month_of (now w))
                     (iterations (getTimeHorizon (timeRange request)))
                     (getBaseValue (indicator request))
                     (getTrendMultiplier (indicator request)))
                  0 (iterations (getTimeHorizon (timeRange request))) w
                  (fun i wi => eq_refl)) as Hw.
    destruct (for_range _ 0 _ w) as [fc w1]. simpl in *. rewrite Hw.
    unfold tick_draw. simpl. f_equal. lia.
  - intros Hin. unfold objectPrototypeNames in Hin.
    repeat (apply elem_of_cons in Hin as [-> | Hin]; [reflexivity|]).
    by apply elem_of_nil in Hin.
Qed.

Lemma demoPoint_value end_ horizon b t i w :
  value (fst (demoPoint end_ horizon (Own b) (Own t) i w))
  = Num (round2 (b + inject_Z (Z.of_nat i) * t
                 + (rnd (draws w) - (1 # 2)) * b * (1 # 10))).
Proof. reflexivity. Qed.

(** X8.  For an indicator that does not name a member of
    [Object.prototype], every value of a demo series lies within five
    percent of the base value (and half a cent of rounding) of the straight
    line [base + i * trend] of its indicator. *)
Theorem demo_values_follow_the_trend_line request w k p :
  indicator request ∉ objectPrototypeNames ->
  forecast (fst (generateDemoForecast request w)) !! k = Some p ->
  exists base slope_ v,
    getBaseValue (indicator request) = Own base
    /\ getTrendMultiplier (indicator request) = Own slope_
    /\ value p = Num v
    /\ (Qabs (v - (base + inject_Z (Z.of_nat k) * slope_))
        <= base * (5 # 100) + (1 # 200))%Q.
Proof.
  intros Hin Hp.
  assert (Hk : (k < iterations (getTimeHorizon (timeRange request)))%nat).
  { rewrite <- (demo_forecast_length rnd month_of month_start request w).
    eapply lookup_lt_Some, Hp. }
  rewrite (proj1 (demo_forecast_eq rnd month_of month_start request w)) in Hp.
  pose proof (getBaseValue_found (indicator request)) as Hf.
  rewrite bool_decide_eq_false_2 in Hf by exact Hin.
  destruct Hf as (b & t & Hb & Ht). rewrite Hb, Ht in Hp.
  destruct (for_range_lookup
              (demoPoint (month_of (now w))
                 (iterations (getTimeHorizon (timeRange request))) (Own b) (Own t))
              0 (iterations (getTimeHorizon (timeRange request))) w k Hk) as [wk Hwk].
  rewrite Hwk in Hp. injection Hp as <-.
  exists b, t. eexists. split; [exact Hb|]. split; [exact Ht|].
  split; [apply demoPoint_value|].
  match goal with |- context [round2 ?x] =>
    destruct (round2_near x) as [Hlo Hhi]; set (v := x) in * end.
  destruct (rnd_range (draws wk)) as [Hr0 Hr1].
  pose proof (getBaseValue_own _ _ Hb) as Hbpos.
  change (0 + k)%nat with k in *.
  apply Qabs_Qle_condition. subst v. split; nra.
Qed.

End GeneratorFacts.

(** X8, witness: the first point of the CO2 series in the sample
    environment. *)
Lemma demo_values_follow_the_trend_line_witness :
  let request := BigQueryService.mkRequest "co2" "Germany" "1y" BigQueryService.demo in
  let first_ :=
    fst (BigQueryService.demoPoint always_half thirty_day_month_start
           (thirty_day_month_of 0) 12 (Own 410%Q) (Own (25 # 10)) 0 epoch) in
  forecast (fst (BigQueryService.generateDemoForecast always_half
                   thirty_day_month_of thirty_day_month_start request epoch))
    !! 0%nat = Some first_
  /\ exists base slope_ v,
       BigQueryService.getBaseValue "co2" = Own base
       /\ BigQueryService.getTrendMultiplier "co2" = Own slope_
       /\ value first_ = Num v
       /\ (Qabs (v - (base + inject_Z (Z.of_nat 0) * slope_))
           <= base * (5 # 100) + (1 # 200))%Q.
Proof.
  intros request first_.
  assert (H : forecast (fst (BigQueryService.generateDemoForecast always_half
                               thirty_day_month_of thirty_day_month_start request epoch))
                !! 0%nat = Some first_) by reflexivity.
  split; [exact H|].
  exact (demo_values_follow_the_trend_line always_half
           (fun n => conj (ltac:(discriminate) : (0 <= always_half n)%Q)
                          (ltac:(reflexivity) : (always_half n < 1)%Q))
           thirty_day_month_of thirty_day_month_start request epoch 0%nat first_
           ltac:(ordinary_name) H).
Defined.

(** ** Further properties of the remote pipeline *)

Section PipelineEdges.

Import BigQueryService.

Variable rnd : nat -> Q.
Variable month_of : Z -> Z.
Variable month_start : Z -> Z.
Variable Math_sin : Q -> Q.
Variable Math_PI : Q.
Variable remote : string -> nat -> outcome BQResponse.
Variable forecastQuery : list DataRow -> found nat -> string.
Variable JSON_stringify : list DataRow -> found nat -> string.

Local Abbreviation generateDemoForecast := (generateDemoForecast rnd month_of month_start).
Local Abbreviation formatForecastResult := (formatForecastResult rnd month_of month_start).

Lemma query_valid_iff query :
  ErrorService.isValid
    (ErrorService.validate {[ "query" := ErrorService.VString query ]} queryRules) = true
  <-> (10 <= String.length query)%nat.
Proof.
  rewrite validate_isValid. unfold queryRules.
  rewrite !Forall_cons, Forall_nil. cbn [ErrorService.field].
  unfold ErrorService.get_field. rewrite lookup_singleton_eq. cbn [default from_option id].
  unfold ErrorService.check_rule.
  cbn [ErrorService.type ErrorService.min ErrorService.max].
  unfold ErrorService.Qgeb. rewrite andb_true_r, Qle_bool_iff.
  change 10%Q with (inject_Z 10). rewrite <- Zle_Qle.
  split.
  - intros (_ & H & _). lia.
  - intros H. split; [|split; [lia|exact I]].
    destruct query; [simpl in H; lia | reflexivity].
Qed.

(** X9.  A query of fewer than ten characters never reaches the backend:
    [executeBigQueryAI] rejects with BIGQUERY_EXECUTION_ERROR, logs the
    error, and leaves the clock, the count of remote calls and the retry
    counters as they were. *)
Theorem executeBigQueryAI_rejects_short_query query s :
  (String.length query < 10)%nat ->
  exists a,
    executeBigQueryAI remote query s
    = (Rejected (AppErr a),
       mkSys (svc s) (ErrorService.handleError (err s) (AppErr a)) (world s))
    /\ code a = "BIGQUERY_EXECUTION_ERROR"
    /\ category a = API
    /\ severity a = HIGH.
Proof.
  intros Hshort. unfold executeBigQueryAI.
  destruct (ErrorService.isValid _) eqn:Hv.
  - apply query_valid_iff in Hv. lia.
  - eexists. split; [reflexivity|]. done.
Qed.

Lemma formatRows_unusable now_ rows_ :
  (None ∈ rows_
   \/ exists row, Some row ∈ rows_ /\ forecast_timestamp row = BadDate) ->
  formatRows now_ rows_ = None.
Proof.
  intros H. unfold formatRows. apply mapM_None, Exists_exists.
  destruct H as [H|(row & H & Hbad)].
  - exists None. done.
  - exists (Some row). split; [exact H|]. simpl. rewrite Hbad. reflexivity.
Qed.

(** X10.  The formatter is all or nothing.  When the answer has no [rows]
    array or an empty one, or when one of its rows is null or carries a
    [forecast_timestamp] that is not a date, no part of the answer is used:
    the result is the demo generator's. *)
Theorem formatter_falls_back_on_unusable_rows result_ request w :
  (raw_rows result_ = None
   \/ raw_rows result_ = Some []
   \/ exists rows_,
        raw_rows result_ = Some rows_
        /\ (None ∈ rows_
            \/ exists row, Some row ∈ rows_ /\ forecast_timestamp row = BadDate)) ->
  formatForecastResult result_ request w = generateDemoForecast request w.
Proof.
  unfold BigQueryService.formatForecastResult.
  intros [->|[->|(rows_ & -> & Hbad)]]; [reflexivity..|].
  cbn [default from_option id].
  destruct rows_ as [|row rows_]; [reflexivity|].
  by rewrite (formatRows_unusable (now w) (row :: rows_) Hbad).
Qed.

(** X11.  Missing cells.  A row with no cell at all becomes the point
    (now, 0, 0, 0).  A legacy row whose array has at most one cell becomes a
    point whose three numbers are NaN.  And a series whose first or last
    value is NaN is labelled decreasing. *)
Theorem formatter_defaults_for_missing_cells :
  (forall now_,
      formatRow now_ (Some (mkRow NoDate NoDate NoDate None None None None None None None))
      = Some (mkPoint now_ (Num 0) (Num 0) (Num 0)))
  /\ (forall now_ cells,
        (List.length cells <= 1)%nat ->
        exists z,
          formatRow now_ (Some (mkRow NoDate NoDate NoDate None None None None
                                  None None (Some cells)))
          = (match legacy_date (Some cells) with
             | BadDate => None
             | _ => Some (mkPoint z NaN NaN NaN)
             end))
  /\ (forall fc p q,
        head fc = Some p -> last fc = Some q ->
        value p = NaN \/ value q = NaN ->
        formatTrend fc = decreasing).
Proof.
  split; [reflexivity|]. split.
  - intros now_ cells Hlen.
    assert (H : forall i, (1 <= i)%nat -> legacy cells i = None).
    { intros i Hi. unfold legacy. rewrite (proj2 (lookup_ge_None cells i)); [reflexivity|lia]. }
    unfold formatRow. cbn [forecast_timestamp row_timestamp row_ts forecast_value
      row_value confidence_lower_bound row_confidence_low confidence_upper_bound
      row_confidence_high f date_or nullish legacy_float].
    rewrite !H by lia. cbn [to_number default from_option id].
    destruct (legacy_date (Some cells)); eauto.
  - intros fc p q Hp Hq Hnan. unfold formatTrend.
    rewrite <- head_lookup, Hp, Hq.
    destruct Hnan as [Hn|Hn]; rewrite Hn; unfold num_geb, num_leb;
      [reflexivity | destruct (value p); reflexivity].
Qed.

End PipelineEdges.

(** X9, witness. *)
Lemma executeBigQueryAI_rejects_short_query_witness :
  exists a,
    BigQueryService.executeBigQueryAI always_throws "SELECT 1" fresh_system
    = (Rejected (AppErr a),
       BigQueryService.mkSys (BigQueryService.svc fresh_system)
         (ErrorService.handleError (BigQueryService.err fresh_system) (AppErr a))
         (BigQueryService.world fresh_system))
    /\ code a = "BIGQUERY_EXECUTION_ERROR"
    /\ category a = API
    /\ severity a = HIGH.
Proof.
  apply (executeBigQueryAI_rejects_short_query always_throws "SELECT 1" fresh_system).
  simpl. lia.
Defined.

(** X10, witness: an answer with one null row. *)
Lemma formatter_falls_back_witness :
  let request :=
    BigQueryService.mkRequest "gdp" "Japan" "1y" BigQueryService.bigquery in
  BigQueryService.formatForecastResult always_half thirty_day_month_of
    thirty_day_month_start
    (BigQueryService.mkRawForecast (Some []) (Some [None]) None None) request epoch
  = BigQueryService.generateDemoForecast always_half thirty_day_month_of
      thirty_day_month_start request epoch.
Proof.
  intros request.
  apply (formatter_falls_back_on_unusable_rows always_half thirty_day_month_of
           thirty_day_month_start).
  right. right. exists [None]. split; [reflexivity|]. left. left.
Defined.

(** ** The pipeline as the source wires it *)

Section SimulatedBackend.

Import BigQueryService.

Variable rnd : nat -> Q.
Variable month_of : Z -> Z.
Variable month_start : Z -> Z.
Variable Math_sin : Q -> Q.
Variable Math_PI : Q.
Variable forecastQuery : list DataRow -> found nat -> string.
Hypothesis query_long : forall data horizon,
  (10 <= String.length (forecastQuery data horizon))%nat.
Variable JSON_stringify : list DataRow -> found nat -> string.

Local Abbreviation generateDemoForecast := (generateDemoForecast rnd month_of month_start).
Local Abbreviation getHistoricalData := (getHistoricalData rnd month_of month_start).
Local Abbreviation forecastTimeSeries :=
  (forecastTimeSeries rnd Math_sin Math_PI simulatedRemote forecastQuery JSON_stringify).
Local Abbreviation generateForecast :=
  (generateForecast rnd month_of month_start Math_sin Math_PI simulatedRemote
     forecastQuery JSON_stringify).

Lemma getHistoricalData_world request w :
  snd (getHistoricalData request w)
  = mkWorld (now w) (draws w + iterations (getTimeHorizon (timeRange request))) (calls w)
  /\ exists data, fst (getHistoricalData request w) = Resolved data.
Proof.
  unfold BigQueryService.getHistoricalData.
  pose proof (for_range_world
                (historicalPoint rnd month_start (month_of (now w))
                   (iterations (getTimeHorizon (timeRange request)))
                   (getBaseValue (indicator request))
                   (getTrendMultiplier (indicator request)))
                0 (iterations (getTimeHorizon (timeRange request))) w (fun i wi => eq_refl)) as Hw.
  destruct (for_range _ 0 _ w) as [data w1]. simpl in *. eauto.
Qed.

Lemma executeBigQueryAI_simulated query s :
  (10 <= String.length query)%nat ->
  executeBigQueryAI simulatedRemote query s
  = (Resolved simulatedResponse,
     mkSys (svc s)
       (ErrorService.deleteRetryCount (err s) ("bigquery-" ++ substring 0 50 query))
       (sleep 1500 (tick_call (world s)))).
Proof.
  intros Hlen. unfold executeBigQueryAI.
  apply query_valid_iff in Hlen. rewrite Hlen.
  rewrite (withRetry_success (remoteOperation simulatedRemote query) _ None
             (err s) (world s) simulatedResponse (sleep 1500 (tick_call (world s))));
    reflexivity.
Qed.

Lemma forecastTimeSeries_simulated data horizon s :
  queryCache (svc s) = ∅ ->
  exists s',
    forecastTimeSeries data horizon s = (Resolved (AForecast emptyForecast), s')
    /\ world s' = sleep 1500 (tick_call (world s))
    /\ queryCache (svc s')
       = {[ "ai_forecast_" ++ JSON_stringify (take 5 data) horizon
            := mkEntry (AForecast emptyForecast) (now (world s) + 1500) ]}.
Proof.
  intros Hc. unfold BigQueryService.forecastTimeSeries, getCachedResult.
  rewrite Hc, lookup_empty.
  rewrite (executeBigQueryAI_simulated _ s (query_long data horizon)).
  eexists. split; [reflexivity|]. split; [reflexivity|].
  simpl. unfold setCachedResult. rewrite Hc. reflexivity.
Qed.

(** X12.  As the source wires it, the remote call is a simulation that
    answers with no rows, so "bigquery" mode ends where demo mode does: on a
    fresh cache the call takes one remote round of 1.5 s, stores the empty
    answer under its cache key, and returns the series of the demo
    generator. *)
Theorem simulated_backend_serves_demo_data request s :
  mode request = bigquery ->
  queryCache (svc s) = ∅ ->
  let after_remote :=
    mkWorld (now (world s) + 1500)
      (draws (world s) + iterations (getTimeHorizon (timeRange request)))
      (S (calls (world s))) in
  exists s',
    generateForecast request s
    = (Resolved (fst (generateDemoForecast request after_remote)), s')
    /\ world s' = snd (generateDemoForecast request after_remote)
    /\ calls (world s') = S (calls (world s))
    /\ now (world s') = now (world s) + 1500
    /\ exists key,
         queryCache (svc s') !! key
         = Some (mkEntry (AForecast emptyForecast) (now (world s) + 1500)).
Proof.
  intros Hmode Hc after_remote.
  unfold BigQueryService.generateForecast. rewrite Hmode.
  destruct (getHistoricalData_world request (world s)) as [Hw1 [data Hdata]].
  destruct (getHistoricalData request (world s)) as [r w1]. simpl in Hw1, Hdata.
  subst r w1.
  destruct (forecastTimeSeries_simulated data (getTimeHorizon (timeRange request))
              (with_world s (mkWorld (now (world s))
                               (draws (world s) + iterations (getTimeHorizon (timeRange request)))
                               (calls (world s)))) Hc)
    as (s2 & -> & Hw2 & Hcache).
  cbn [has_forecast emptyForecast raw_forecast].
  unfold formatForecastResult. cbn [raw_rows default from_option id].
  simpl in Hw2. unfold sleep, tick_call in Hw2. simpl in Hw2. rewrite Hw2.
  fold after_remote.
  pose proof (demo_forecast_world rnd month_of month_start request after_remote)
    as Hd.
  destruct (generateDemoForecast request after_remote) as [d w3]. simpl in Hd.
  eexists. split; [reflexivity|]. simpl. split; [reflexivity|].
  rewrite Hd. simpl. split; [reflexivity|]. split; [reflexivity|].
  eexists. rewrite Hcache. apply lookup_singleton_eq.
Qed.

End SimulatedBackend.

(** X12, witness: the page's services asked for GDP over one year. *)
Lemma simulated_backend_serves_demo_data_witness :
  let request :=
    BigQueryService.mkRequest "gdp" "Japan" "1y" BigQueryService.bigquery in
  exists s',
    BigQueryService.generateForecast always_half thirty_day_month_of
      thirty_day_month_start flat_sine 3%Q BigQueryService.simulatedRemote
      (fun _ _ => "SELECT AI.FORECAST(data_table, STRUCT(12 AS horizon))")
      (fun _ _ => "{}") request fresh_system
    = (Resolved (fst (BigQueryService.generateDemoForecast always_half
                        thirty_day_month_of thirty_day_month_start request
                        (mkWorld 1500 12 1))), s')
    /\ calls (BigQueryService.world s') = 1%nat.
Proof.
  intros request.
  destruct (simulated_backend_serves_demo_data always_half thirty_day_month_of
              thirty_day_month_start flat_sine 3%Q
              (fun _ _ => "SELECT AI.FORECAST(data_table, STRUCT(12 AS horizon))")
              (fun _ _ => ltac:(simpl; lia))
              (fun _ _ => "{}") request fresh_system eq_refl eq_refl)
    as (s' & H & _ & Hcalls & _).
  exists s'. split; [exact H | exact Hcalls].
Defined.

(** ** Further properties of the real-time service *)

Section RealTimeFacts.

Import RealTimeService.

Variable rnd : nat -> Q.
Variable react : UpdateCallback -> DataUpdate -> t -> list call.
Variable reactToError : ErrorCallback -> exn -> t -> list call.

Implicit Types (s : t) (w : World).

Lemma string_app_assoc (a b c : string) :
  ((a ++ b) ++ c = a ++ (b ++ c))%string.
Proof.
  induction a as [|x a IH]; [reflexivity|].
  change (String x a ++ b)%string with (String x (a ++ b)%string).
  change (String x (a ++ b) ++ c)%string with (String x ((a ++ b) ++ c)%string).
  change (String x a ++ (b ++ c))%string with (String x (a ++ (b ++ c))%string).
  by rewrite IH.
Qed.

Lemma subscribe_lookup i r callback s :
  exists l, subscribers (subscribe i r callback s) !! topicKey i r
            = Some (l ++ [callback])%list
            /\ l = default [] (subscribers s !! topicKey i r).
Proof.
  unfold subscribe. destruct (subscribers s !! topicKey i r) as [l|] eqn:Hl.
  - exists l. rewrite Hl. simpl. rewrite lookup_insert_eq. done.
  - exists []. unfold startPolling. simpl. rewrite stopPolling_subscribers. simpl.
    rewrite !lookup_insert_eq. done.
Qed.

(** X13.  The key of a topic does not determine the topic: the pairs
    (a-b, c) and (a, b-c) share the key a-b-c.  A listener subscribed to the
    second while the first is active starts no timer and no fetch; it is
    appended to the first topic's list, and so receives the first topic's
    updates. *)
Theorem topic_keys_collide (a b c : string) cb1 cb2 s :
  topicKey (a ++ "-" ++ b) c = topicKey a (b ++ "-" ++ c)
  /\ (let s1 := subscribe (a ++ "-" ++ b) c cb1 s in
      let s2 := subscribe a (b ++ "-" ++ c) cb2 s1 in
      pollingIntervals s2 = pollingIntervals s1
      /\ activeTimers s2 = activeTimers s1
      /\ inflight s2 = inflight s1
      /\ exists l, subscribers s2 !! topicKey (a ++ "-" ++ b) c
                   = Some (l ++ [cb1; cb2])%list).
Proof.
  assert (Hkey : topicKey (a ++ "-" ++ b) c = topicKey a (b ++ "-" ++ c)).
  { unfold topicKey. rewrite !string_app_assoc. reflexivity. }
  split; [exact Hkey|]. intros s1 s2.
  destruct (subscribe_lookup (a ++ "-" ++ b) c cb1 s) as (l & Hl & _).
  fold s1 in Hl. rewrite Hkey in Hl.
  destruct (later_subscribe a (b ++ "-" ++ c) cb2 s1 _ Hl) as (Hs & Hp & Ha & Hi).
  fold s2 in Hs, Hp, Ha, Hi. rewrite Hkey.
  repeat split; try assumption.
  exists l. rewrite Hs, <- app_assoc. reflexivity.
Qed.

Lemma deliveries_elsewhere key u (callbacks : list UpdateCallback) :
  key <> topicKey (indicator u) (region u) ->
  filter (fun d => delivery_key d = key) (map (fun cb => (cb, u)) callbacks) = [].
Proof.
  intros Hne. induction callbacks as [|cb callbacks IH]; [reflexivity|].
  simpl. rewrite filter_cons.
  destruct (decide (delivery_key (cb, u) = key)) as [H|_]; [|exact IH].
  exfalso. apply Hne. symmetry. exact H.
Qed.

(** X14.  [handleUpdate] walks the live array of the listeners registered
    under the key of the update.  Whatever the listeners do while they are
    invoked, only this update is handed out, nothing is handed out under
    another key, and the first listener of the list is invoked.  Listeners
    that call nothing back are invoked once each, in the order of the list,
    and lists and timers stay as they were.  A listener that unsubscribes
    itself while it is invoked makes the walk skip its successor. *)
Theorem handleUpdate_invokes_the_topic_listeners u s :
  let key := topicKey (indicator u) (region u) in
  (exists callbacks,
      delivered (handleUpdate react u s)
      = (delivered s ++ map (fun cb => (cb, u)) callbacks)%list)
  /\ (forall key', key' <> key ->
        deliveries_for key' (handleUpdate react u s) = deliveries_for key' s)
  /\ (forall first rest,
        subscribers s !! key = Some (first :: rest) ->
        exists callbacks,
          delivered (handleUpdate react u s)
          = (delivered s ++ (first, u) :: map (fun cb => (cb, u)) callbacks)%list)
  /\ (forall l,
        subscribers s !! key = Some l ->
        (forall cb s', cb ∈ l -> react cb u s' = []) ->
        delivered (handleUpdate react u s)
        = (delivered s ++ map (fun cb => (cb, u)) l)%list
        /\ same_registry s (handleUpdate react u s))
  /\ (subscribers s !! key = None ->
      delivered (handleUpdate react u s) = delivered s
      /\ same_registry s (handleUpdate react u s))
  /\ (forall a b,
        a <> b ->
        subscribers s !! key = Some [a; b] ->
        (forall s', react a u s' = [CallUnsubscribe key a]) ->
        delivered (handleUpdate react u s) = (delivered s ++ [(a, u)])%list
        /\ subscribers (handleUpdate react u s) !! key = Some [b]).
Proof.
  intros key. split; [apply handleUpdate_appends|].
  split; [|split; [|split; [|split]]].
  - intros key' Hne. unfold deliveries_for.
    destruct (handleUpdate_appends react u s) as [callbacks ->].
    by rewrite filter_app, deliveries_elsewhere, app_nil_r.
  - intros first rest. apply handleUpdate_first.
  - intros l Hl Hquiet. rewrite (handleUpdate_quiet react u s l Hl Hquiet).
    destruct (record_deliveries u l (checkAlerts u s)) as (Hd & Hr & _).
    rewrite Hd, checkAlerts_delivered. split; [reflexivity|].
    eapply same_registry_trans; [apply same_registry_checkAlerts | exact Hr].
  - intros Hnone. unfold handleUpdate. fold key.
    rewrite checkAlerts_subscribers, Hnone.
    split; [apply checkAlerts_delivered | apply same_registry_checkAlerts].
  - intros a b. apply handleUpdate_skips.
Qed.

(** X15.  [disconnect] in any state the service reaches: no interval timer
    is left running, no listener is left registered, so a timer that fires
    late and a message that arrives late invoke nobody. *)
Theorem disconnect_stops_everything (es : list event) (c : RealTimeConfig) (w0 : World) :
  let s := disconnect (fst (run rnd react reactToError es (new c, w0))) in
  activeTimers s = ∅
  /\ pollingIntervals s = ∅
  /\ subscribers s = ∅
  /\ alerts s = ∅
  /\ (forall intervalId, timerFires intervalId s = s)
  /\ (forall u, delivered (handleUpdate react u s) = delivered s
                /\ alerted (handleUpdate react u s) = alerted s).
Proof.
  intros s.
  pose proof (consistent_run rnd react reactToError es c w0) as Hc.
  assert (Ha : activeTimers s = ∅).
  { apply map_eq. intros intervalId. rewrite lookup_empty.
    destruct (activeTimers s !! intervalId) as [[i r]|] eqn:E; [|reflexivity].
    subst s. simpl in E. apply cleared_timers in E as [E Hno].
    exfalso. exact (Hno _ (no_orphan_timer _ Hc _ _ _ E)). }
  split; [exact Ha|]. split; [reflexivity|]. split; [reflexivity|].
  split; [reflexivity|]. split.
  - intros intervalId. unfold timerFires. rewrite Ha, lookup_empty. reflexivity.
  - intros u. unfold handleUpdate, checkAlerts.
    change (alerts s) with (∅ : gmap string AlertConfig).
    rewrite lookup_empty.
    change (subscribers s) with (∅ : gmap string (list nat)).
    rewrite lookup_empty. done.
Qed.

(** X16.  [attemptReconnection] schedules a new attempt only while fewer
    than [retryAttempts] have been made; the delay doubles from 2 s and is
    capped at 30 s; once the attempts are used up nothing is scheduled and
    nothing changes. *)
Theorem attemptReconnection_backs_off_within_bounds s :
  match attemptReconnection s with
  | (Some delay, s') =>
      delay = Z.min (1000 * 2 ^ Z.of_nat (S (connectionRetries s))) 30000
      /\ 2000 <= delay <= 30000
      /\ connectionRetries s' = S (connectionRetries s)
      /\ (connectionRetries s' <= retryAttempts (config s))%nat
      /\ same_registry s s'
  | (None, s') =>
      s' = s /\ (retryAttempts (config s) <= connectionRetries s)%nat
  end.
Proof.
  unfold attemptReconnection.
  destruct (Nat.ltb_spec (connectionRetries s) (retryAttempts (config s))) as [Hlt|Hge].
  - split; [reflexivity|]. split.
    + assert (2 <= 2 ^ Z.of_nat (S (connectionRetries s))).
      { rewrite Nat2Z.inj_succ, Z.pow_succ_r by lia.
        pose proof (Z.pow_pos_nonneg 2 (Z.of_nat (connectionRetries s))). lia. }
      lia.
    + simpl. repeat split. lia.
  - split; [reflexivity | lia].
Qed.

End RealTimeFacts.

(** ** The simulated feed *)

Section FeedFacts.

Import RealTimeService.

Variable rnd : nat -> Q.
Hypothesis rnd_range : forall n, (0 <= rnd n)%Q /\ (rnd n < 1)%Q.

Implicit Types (s : t) (w : World).

Lemma scale_pos (d : nat) : (0 < inject_Z (10 ^ Z.of_nat d))%Q.
Proof.
  change 0%Q with (inject_Z 0). rewrite <- Zlt_Qlt.
  apply Z.pow_pos_nonneg; lia.
Qed.

Lemma floor_half_near y :
  (y - (1 # 2) < inject_Z (Qfloor (y + (1 # 2))))%Q
  /\ (inject_Z (Qfloor (y + (1 # 2))) <= y + (1 # 2))%Q.
Proof.
  split.
  - pose proof (Qlt_floor (y + (1 # 2))) as H.
    rewrite inject_Z_plus in H. change (inject_Z 1) with 1%Q in H. lra.
  - apply Qfloor_le.
Qed.

(** X17.  [Number(x.toFixed(d))] is within half a unit of the last kept
    digit of [x]: scaled by [10^d], the difference is at most 1/2. *)
Theorem toFixed_within_half_a_unit (d : nat) (x : Q) :
  (Qabs ((toFixed d x - x) * inject_Z (10 ^ Z.of_nat d)) <= 1 # 2)%Q.
Proof.
  unfold toFixed. pose proof (scale_pos d) as Hs.
  set (sc := inject_Z (10 ^ Z.of_nat d)) in *.
  destruct (floor_half_near (Qabs x * sc)) as [Hlo Hhi].
  set (n := inject_Z (Qfloor (Qabs x * sc + (1 # 2)))) in *.
  assert (Hq : (n / sc * sc == n)%Q) by (field; lra).
  apply Qabs_Qle_condition.
  destruct (Qle_bool 0 x) eqn:Hx.
  - apply Qle_bool_iff in Hx. rewrite (Qabs_pos x Hx) in Hlo, Hhi.
    split; nra.
  - assert (Hneg : (x <= 0)%Q).
    { apply Qnot_lt_le. intros H. apply Qlt_le_weak in H.
      apply Qle_bool_iff in H. congruence. }
    rewrite (Qabs_neg x Hneg) in Hlo, Hhi.
    split; nra.
Qed.

Lemma toFixed2_small x :
  (Qabs x <= 6 # 10)%Q -> (Qabs (toFixed 2 x) <= 6 # 10)%Q.
Proof.
  intros Hx. unfold toFixed.
  change (inject_Z (10 ^ Z.of_nat 2)) with 100%Q.
  assert (Hn : 0 <= Qfloor (Qabs x * 100 + (1 # 2)) <= 60).
  { split.
    - rewrite <- (Qfloor_Z 0). apply Qfloor_resp_le.
      pose proof (Qabs_nonneg x). change (inject_Z 0) with 0%Q. lra.
    - change 60 with (Qfloor (605 # 10)). apply Qfloor_resp_le. lra. }
  set (n := Qfloor (Qabs x * 100 + (1 # 2))) in *.
  assert (Hq : (0 <= inject_Z n / 100)%Q /\ (inject_Z n / 100 <= 6 # 10)%Q).
  { destruct Hn as [H0 H60]. rewrite Zle_Qle in H0, H60.
    change (inject_Z 0) with 0%Q in H0. change (inject_Z 60) with 60%Q in H60.
    split.
    - apply Qle_shift_div_l; [reflexivity|]. lra.
    - apply Qle_shift_div_r; [reflexivity|]. lra. }
  apply Qabs_Qle_condition.
  destruct (Qle_bool 0 x); lra.
Qed.

Lemma feed_trend_own indicator_ trend_ :
  getTrend indicator_ = Own trend_ -> (0 <= trend_)%Q /\ (trend_ <= 1)%Q.
Proof.
  unfold getTrend, lookup_or. cbn [own].
  repeat (destruct (String.eqb indicator_ _); [intros [= <-]; split; discriminate|]).
  destruct (bool_decide _); [discriminate|]. intros [= <-]. split; discriminate.
Qed.

Lemma feed_volatility_own indicator_ volatility :
  getVolatility indicator_ = Own volatility ->
  (0 < volatility)%Q /\ (volatility <= 1 # 100)%Q.
Proof.
  unfold getVolatility, lookup_or. cbn [own].
  repeat (destruct (String.eqb indicator_ _);
          [intros [= <-]; split; [reflexivity|discriminate]|]).
  destruct (bool_decide _); [discriminate|].
  intros [= <-]. split; [reflexivity|discriminate].
Qed.

Lemma feed_base_own indicator_ base :
  getBaseValue indicator_ = Own base -> (0 < base)%Q.
Proof.
  unfold getBaseValue, lookup_or. cbn [own].
  repeat (destruct (String.eqb indicator_ _); [intros [= <-]; reflexivity|]).
  destruct (bool_decide _); [discriminate|]. intros [= <-]. reflexivity.
Qed.

Lemma lastValueOf_nonzero s indicator_ region_ lastValue :
  lastValueOf s indicator_ region_ = Some lastValue -> ~ (lastValue == 0)%Q.
Proof.
  unfold lastValueOf.
  assert (Hbase : match getBaseValue indicator_ with
                  | Own b => Some b
                  | Inherited _ => None
                  end = Some lastValue -> ~ (lastValue == 0)%Q).
  { destruct (getBaseValue indicator_) as [b|] eqn:Hb; [|discriminate].
    intros [= <-] H. apply feed_base_own in Hb. rewrite H in Hb.
    exact (Qlt_irrefl _ Hb). }
  destruct (lastValues s !! _) as [[[v|]|]|]; try exact Hbase; [|discriminate].
  destruct (Qeq_bool v 0) eqn:E; [exact Hbase|].
  intros [= <-] H. apply Qeq_bool_iff in H. congruence.
Qed.

(** An indicator that no object inherits, and a key on which no failed fetch
    has left a string: the fetch has a number to start from. *)
Lemma lastValueOf_ordinary s indicator_ region_ :
  indicator_ ∉ objectPrototypeNames ->
  lastValues s !! topicKey indicator_ region_ <> Some Garbled ->
  exists lastValue, lastValueOf s indicator_ region_ = Some lastValue.
Proof.
  intros Hin Hkept. unfold lastValueOf.
  destruct (lookup_or_ordinary
              [ ("co2", 415%Q); ("avg_temperature", 148 # 10); ("gdp", 52000%Q);
                ("renewable_adoption", 28%Q) ] indicator_ 100%Q Hin) as [b Hb].
  unfold getBaseValue. rewrite Hb.
  destruct (lastValues s !! _) as [[[v|]|]|]; eauto.
  - destruct (Qeq_bool v 0); eauto.
  - by destruct Hkept.
Qed.

(** X18.  For an indicator that is not the name of a member every object
    inherits, polled on a key where no failed fetch has left a string, the
    simulated feed delivers an update, and the value it makes up never moves
    by more than 0.6 percent from one poll to the next, whatever the random
    draw; so a percentage rule with a threshold above 0.6 is never triggered
    by polled data. *)
Theorem simulated_feed_moves_less_than_one_percent indicator_ region_ s w :
  indicator_ ∉ objectPrototypeNames ->
  lastValues s !! topicKey indicator_ region_ <> Some Garbled ->
  exists update percent,
    fst (fst (fetchLatestData rnd indicator_ region_ s w)) = Resolved update
    /\ changePercent update = Num percent
    /\ (Qabs percent <= 6 # 10)%Q
    /\ forall c, type c = percentage -> (6 # 10 < threshold c)%Q ->
         alertFires c update = false.
Proof.
  intros Hin Hkept.
  destruct (lastValueOf_ordinary s indicator_ region_ Hin Hkept) as [lastValue Hlast].
  pose proof (lastValueOf_nonzero s indicator_ region_ lastValue Hlast) as Hl.
  destruct (lookup_or_ordinary
              [ ("co2", 2 # 1000); ("avg_temperature", 1 # 100); ("gdp", 5 # 1000);
                ("renewable_adoption", 3 # 1000) ] indicator_ (5 # 1000) Hin)
    as [vol Hvol].
  destruct (lookup_or_ordinary
              [ ("co2", 5 # 10); ("avg_temperature", 3 # 10); ("gdp", 2 # 10);
                ("renewable_adoption", 1%Q) ] indicator_ 0%Q Hin)
    as [tr Htr].
  fold (getVolatility indicator_) in Hvol. fold (getTrend indicator_) in Htr.
  destruct (feed_trend_own _ _ Htr) as [Ht0 Ht1].
  destruct (feed_volatility_own _ _ Hvol) as [Hv0 Hv1].
  destruct (rnd_range (draws w)) as [Hr0 Hr1].
  unfold fetchLatestData. rewrite Hlast. unfold drift. rewrite Hvol, Htr.
  cbn [fst num_map2 toFixedNumber changePercent].
  set (r := rnd (draws w)) in *.
  eexists _, _. split; [reflexivity|]. split; [reflexivity|].
  assert (Hcp : (Qabs (toFixed 2
                   ((lastValue + lastValue * (tr * (1 # 1000) + (r - (1 # 2)) * vol)
                     - lastValue) / lastValue * 100)) <= 6 # 10)%Q).
  { apply toFixed2_small.
    assert (E : ((lastValue + lastValue * (tr * (1 # 1000) + (r - (1 # 2)) * vol)
                  - lastValue) / lastValue * 100
                 == (tr * (1 # 1000) + (r - (1 # 2)) * vol) * 100)%Q).
    { field. exact Hl. }
    rewrite E. apply Qabs_Qle_condition. split; nra. }
  split; [exact Hcp|].
  intros c Hty Hth.
  match goal with |- alertFires c ?u = false => destruct (alertFires c u) eqn:E end;
    [|reflexivity].
  apply alertFires_iff in E as [E _]. unfold threshold_passes in E.
  rewrite Hty in E. cbn [changePercent at_least] in E. exfalso.
  apply (Qlt_irrefl (threshold c)).
  eapply Qle_lt_trans; [exact E|]. eapply Qle_lt_trans; [exact Hcp | exact Hth].
Qed.

End FeedFacts.

(** X18, witness: one poll of CO2 for Germany in the sample environment. *)
Lemma simulated_feed_witness :
  exists update percent,
    fst (fst (RealTimeService.fetchLatestData always_half "co2" "Germany"
                (RealTimeService.new (RealTimeService.realTimeConfig None))
                epoch))
    = Resolved update
    /\ RealTimeService.changePercent update = Num percent
    /\ (Qabs percent <= 6 # 10)%Q.
Proof.
  destruct (simulated_feed_moves_less_than_one_percent always_half
              (fun n => conj (ltac:(discriminate) : (0 <= always_half n)%Q)
                             (ltac:(reflexivity) : (always_half n < 1)%Q))
              "co2" "Germany"
              (RealTimeService.new (RealTimeService.realTimeConfig None)) epoch
              ltac:(ordinary_name) ltac:(discriminate))
    as (update & percent & H1 & H2 & H3 & _).
  exists update, percent. auto.
Defined.

(** ** Similarity search: hashing, embeddings and keys *)

Section VectorFacts.

Import VectorSearchService.

Lemma toInt32_range z : - 2 ^ 31 <= toInt32 z < 2 ^ 31.
Proof.
  unfold toInt32.
  pose proof (Z.mod_pos_bound (z + 2 ^ 31) (2 ^ 32) ltac:(lia)). lia.
Qed.

Lemma toInt32_small z : - 2 ^ 31 <= z < 2 ^ 31 -> toInt32 z = z.
Proof.
  intros H. unfold toInt32. rewrite Z.mod_small; lia.
Qed.

Lemma toInt32_wraps z : exists k, toInt32 z = z + k * 2 ^ 32.
Proof.
  exists (- ((z + 2 ^ 31) / 2 ^ 32)). unfold toInt32.
  rewrite Z.mod_eq by lia. lia.
Qed.

Lemma toInt32_shift z k : toInt32 (z + k * 2 ^ 32) = toInt32 z.
Proof.
  unfold toInt32.
  replace (z + k * 2 ^ 32 + 2 ^ 31) with (z + 2 ^ 31 + k * 2 ^ 32) by lia.
  rewrite Z_mod_plus_full. reflexivity.
Qed.

Lemma hashStep_wrapped x char :
  hashStep (toInt32 x) char
  = toInt32 (31 * x + Z.of_nat (nat_of_ascii char)).
Proof.
  unfold hashStep. cbv zeta.
  rewrite Z.land_diag.
  rewrite (toInt32_small (toInt32 x)) by apply toInt32_range.
  rewrite (toInt32_small (toInt32 (_ - _ + _))) by apply toInt32_range.
  rewrite Z.shiftl_mul_pow2 by lia.
  destruct (toInt32_wraps (toInt32 x * 2 ^ 5)) as [k1 Hk1]. rewrite Hk1.
  destruct (toInt32_wraps x) as [k2 Hk2]. rewrite Hk2.
  replace ((x + k2 * 2 ^ 32) * 2 ^ 5 + k1 * 2 ^ 32 - (x + k2 * 2 ^ 32)
           + Z.of_nat (nat_of_ascii char))
    with (31 * x + Z.of_nat (nat_of_ascii char) + (31 * k2 + k1) * 2 ^ 32) by lia.
  apply toInt32_shift.
Qed.

Lemma hashLoop_wrapped x str :
  hashLoop (toInt32 x) str = toInt32 (polynomialHash x str).
Proof.
  revert x. induction str as [|char rest IH]; intros x; [reflexivity|].
  cbn [hashLoop polynomialHash]. rewrite hashStep_wrapped. apply IH.
Qed.

(** X19.  [hashString] is the absolute value of the 31-multiplier
    polynomial hash of the character codes wrapped to a signed 32-bit
    integer; it lies between 0 and 2^31, both ends included. *)
Theorem hashString_is_wrapped_polynomial_hash (str : string) :
  hashString str = Z.abs (toInt32 (polynomialHash 0 str))
  /\ 0 <= hashString str <= 2 ^ 31.
Proof.
  assert (E : hashString str = Z.abs (toInt32 (polynomialHash 0 str))).
  { unfold hashString. f_equal.
    rewrite <- (toInt32_small 0) at 1 by lia. apply hashLoop_wrapped. }
  split; [exact E|]. rewrite E.
  pose proof (toInt32_range (polynomialHash 0 str)). lia.
Qed.

Section Embedding.

Variable Math_sin : Q -> Q.
Variable Math_cos : Q -> Q.
Variable Math_PI : Q.
Hypothesis sin_range : forall x, (-1 <= Math_sin x)%Q /\ (Math_sin x <= 1)%Q.
Hypothesis cos_range : forall x, (-1 <= Math_cos x)%Q /\ (Math_cos x <= 1)%Q.

(** X20.  The simulated embedding has 768 components whatever the
    arguments.  For an indicator that does not name a member of
    [Object.prototype], and with sine and cosine in [-1, 1], every component
    is a number of absolute value at most 1/2; for an indicator that does,
    the components 256 to 511 are [NaN]. *)
Theorem generateSemanticEmbedding_shape region_ indicator_ timeRange_ :
  let e := generateSemanticEmbedding Math_sin Math_cos Math_PI
             region_ indicator_ timeRange_ in
  List.length e = 768%nat
  /\ (indicator_ ∉ objectPrototypeNames ->
      Forall (fun x => exists q, x = Num q /\ (Qabs q <= 1 # 2)%Q) e)
  /\ (indicator_ ∈ objectPrototypeNames ->
      forall i, (256 <= i < 512)%nat -> e !! i = Some NaN).
Proof.
  intros e. subst e. unfold generateSemanticEmbedding. cbv zeta.
  split; [|split].
  - rewrite !length_app, !length_map, !length_seq. reflexivity.
  - intros Hi.
    match goal with |- context [lookup_or ?T indicator_ ?d] =>
      destruct (lookup_or_ordinary T indicator_ d Hi) as [base ->] end.
    rewrite !Forall_app. repeat split; apply Forall_map, Forall_forall;
      intros i _; unfold compose; cbv beta; eexists; (split; [reflexivity|]);
      apply Qabs_Qle_condition.
    + destruct (sin_range (inject_Z (hashString region_) + inject_Z (Z.of_nat i))).
      split; lra.
    + match goal with |- context [Math_cos ?a] =>
        destruct (cos_range a) end.
      split; lra.
    + match goal with |- context [Math_sin ?a] =>
        destruct (sin_range a) end.
      split; lra.
  - intros Hi i Hrange.
    rewrite lookup_or_inherited; [|exact Hi|each_inherited Hi; reflexivity].
    rewrite lookup_app_r by (rewrite length_map, length_seq; lia).
    rewrite lookup_app_l by (rewrite !length_map, !length_seq; lia).
    rewrite list_lookup_fmap, length_map, length_seq.
    rewrite lookup_seq_lt by lia. reflexivity.
Qed.

End Embedding.

Section SearchFacts.

Variable rnd : nat -> Q.
Variable Math_sin : Q -> Q.
Variable Math_cos : Q -> Q.
Variable Math_PI : Q.

Local Abbreviation findSimilarRegions :=
  (VectorSearchService.findSimilarRegions rnd Math_sin Math_cos Math_PI).

Lemma dashed_ordinary (b c : string) : (b ++ "-" ++ c)%string ∉ objectPrototypeNames.
Proof.
  intros H.
  assert (Hd : has_char "-"%char (b ++ "-" ++ c)%string = true).
  { rewrite has_char_app. apply orb_true_iff. right. reflexivity. }
  unfold objectPrototypeNames in H.
  repeat (apply elem_of_cons in H as [E | H]; [rewrite E in Hd; discriminate Hd|]).
  by apply elem_of_nil in H.
Qed.

(** X21.  The cache key of a search does not determine the search: the
    pairs (a, b-c) and (a-b, c) share the key.  After a search for the
    first, a search for the second is answered with the first one's results
    and changes nothing. *)
Theorem search_keys_collide (a b c : string) timeRange_ st :
  let first := findSimilarRegions a (b ++ "-" ++ c) timeRange_ st in
  findSimilarRegions (a ++ "-" ++ b) c timeRange_ (snd first)
  = (fst first, snd first).
Proof.
  intros first.
  destruct (findSimilarRegions_stores rnd Math_sin Math_cos Math_PI
              a (b ++ "-" ++ c) timeRange_ st (dashed_ordinary b c))
    as (results & Hr & Hc).
  fold first in Hr, Hc. rewrite Hr.
  destruct (snd first) as [s1 w1] eqn:E. cbn [fst] in Hc.
  apply findSimilarRegions_hit. rewrite <- Hc. f_equal.
  unfold cacheKey. rewrite !string_app_assoc. reflexivity.
Qed.

Lemma mapi_world_map {A B C} (body : A -> nat -> World -> outcome B * World)
    (f : B -> C) (g : A -> C) l index w bs w' :
  (forall a i wi b, fst (body a i wi) = Resolved b -> f b = g a) ->
  mapi_world body l index w = (Resolved bs, w') ->
  map f bs = map g l.
Proof.
  intros Hb. revert index w bs w'.
  induction l as [|a l IH]; intros index w bs w' H; simpl in H.
  - by injection H as <- _.
  - pose proof (Hb a index w) as Ha.
    destruct (body a index w) as [[b|e] w1]; [|discriminate].
    destruct (mapi_world body l (S index) w1) as [[bs1|e] w2] eqn:Hrest; [|discriminate].
    injection H as <- _. simpl. f_equal; [by apply Ha | by eapply IH].
Qed.

Lemma mapi_world_lookup {A B} (body : A -> nat -> World -> outcome B * World)
    l index w bs w' i b :
  mapi_world body l index w = (Resolved bs, w') ->
  bs !! i = Some b ->
  exists a wi, l !! i = Some a /\ fst (body a (index + i)%nat wi) = Resolved b.
Proof.
  revert index w bs w' i.
  induction l as [|a l IH]; intros index w bs w' i H Hi; simpl in H.
  - injection H as <- _. done.
  - destruct (body a index w) as [[b0|e] w1] eqn:Hbody; [|discriminate].
    destruct (mapi_world body l (S index) w1) as [[bs1|e] w2] eqn:Hrest; [|discriminate].
    injection H as <- _. destruct i as [|i].
    + injection Hi as ->. exists a, w. rewrite Nat.add_0_r, Hbody. done.
    + destruct (IH _ _ _ _ _ Hrest Hi) as (a' & wi & Ha' & Hb').
      exists a', wi. split; [exact Ha'|].
      by replace (index + S i)%nat with (S index + i)%nat by lia.
Qed.

Lemma mapi_world_draws {A B} (body : A -> nat -> World -> outcome B * World)
    (each : nat) l index w bs w' :
  (forall a i wi b w1, body a i wi = (Resolved b, w1) ->
     draws w1 = (draws wi + each)%nat) ->
  mapi_world body l index w = (Resolved bs, w') ->
  draws w' = (draws w + each * List.length l)%nat /\ List.length bs = List.length l.
Proof.
  intros Hb. revert index w bs w'.
  induction l as [|a l IH]; intros index w bs w' H; simpl in H.
  - injection H as <- <-. simpl. lia.
  - destruct (body a index w) as [[b0|e] w1] eqn:Hbody; [|discriminate].
    destruct (mapi_world body l (S index) w1) as [[bs1|e] w2] eqn:Hrest; [|discriminate].
    injection H as <- <-.
    destruct (IH _ _ _ _ Hrest) as [Hd Hl]. rewrite Hd, (Hb _ _ _ _ _ Hbody).
    simpl. lia.
Qed.

Lemma searchResult_fields indicator_ entry index w r :
  fst (searchResult rnd indicator_ entry index w) = Resolved r ->
  region r = fst (fst entry)
  /\ similarity_score r = ((95 # 100) - inject_Z (Z.of_nat index) * (8 # 100))%Q.
Proof.
  destruct entry as [[region_ country_] climate]. unfold searchResult.
  destruct (getMatchingPatterns indicator_ climate); [|discriminate].
  destruct (generateKeyMetrics rnd indicator_ index w). simpl.
  by intros [= <-].
Qed.

Lemma searchResult_draws indicator_ entry index w r w1 :
  searchResult rnd indicator_ entry index w = (Resolved r, w1) ->
  draws w1 = (draws w + 1)%nat.
Proof.
  destruct entry as [[region_ country_] climate]. unfold searchResult.
  destruct (getMatchingPatterns indicator_ climate); [|discriminate].
  unfold generateKeyMetrics, random. intros [= _ <-]. simpl. lia.
Qed.

Lemma enhance_fields targetRegion_ indicator_ r0 index w r :
  fst (enhance rnd targetRegion_ indicator_ r0 index w) = Resolved r ->
  region r = region r0
  /\ similarity_score r = similarity_score r0
  /\ correlation_strength (analysis r)
     = ((9 # 10) - inject_Z (Z.of_nat index) * (1 # 10))%Q.
Proof.
  unfold enhance, random.
  destruct (generateAIInsights targetRegion_ indicator_); [|discriminate].
  simpl. by intros [= <-].
Qed.

Lemma enhance_draws targetRegion_ indicator_ r0 index w r w1 :
  enhance rnd targetRegion_ indicator_ r0 index w = (Resolved r, w1) ->
  draws w1 = (draws w + 2)%nat.
Proof.
  unfold enhance, random.
  destruct (generateAIInsights targetRegion_ indicator_); [|discriminate].
  intros [= _ <-]. simpl. lia.
Qed.

(** X22.  A search for an ordinary indicator that is not in the cache
    returns the eight regions of the table in table order, with similarity
    scores falling by 0.08 from 0.95 and correlation strengths falling by
    0.1 from 0.9, and takes 24 random draws (one per region for the metrics,
    two for the analysis). *)
Theorem uncached_search_ranks_the_table targetRegion_ indicator_ timeRange_ s w :
  indicator_ ∉ objectPrototypeNames ->
  resultsCache s !! cacheKey targetRegion_ indicator_ (default "10y" timeRange_) = None ->
  exists results,
    fst (findSimilarRegions targetRegion_ indicator_ timeRange_ (s, w)) = Resolved results
    /\ map region results = map (fun e => fst (fst e)) regions
    /\ (forall i r, results !! i = Some r ->
          similarity_score r == (95 # 100) - inject_Z (Z.of_nat i) * (8 # 100)
          /\ correlation_strength (analysis r)
             == (9 # 10) - inject_Z (Z.of_nat i) * (1 # 10))%Q
    /\ draws (snd (snd (findSimilarRegions targetRegion_ indicator_ timeRange_ (s, w))))
       = (draws w + 24)%nat.
Proof.
  intros Hi Hc. unfold VectorSearchService.findSimilarRegions.
  set (c := mkCall targetRegion_ indicator_ (default "10y" timeRange_)).
  destruct (begin_miss Math_sin Math_cos Math_PI c s w Hc)
    as (embedding & s1 & -> & Hs1).
  unfold afterEmbedding. cbn [snd fst indicator timeRange c].
  destruct (search_ordinary rnd indicator_ (default "10y" timeRange_) embedding w Hi)
    as (results & w1 & Hsearch).
  rewrite Hsearch.
  unfold afterSearch. cbn [snd fst indicator targetRegion c].
  destruct (enhance_ordinary rnd results targetRegion_ indicator_ w1 Hi)
    as (enhanced & w2 & Henh).
  rewrite Henh. unfold afterEnhancement. cbn [fst snd].
  assert (Hgen : generateVectorSearchResults rnd indicator_ (default "10y" timeRange_) w
                 = (Resolved results, w1)).
  { destruct (mapi_world_resolves (searchResult rnd indicator_) regions 0 w)
      as (bs & w' & Hbs).
    { intros [[region_ country_] climate] i wi Hin. unfold searchResult.
      destruct (getMatchingPatterns_ordinary indicator_ climate Hi
                  (climates_ordinary _ Hin)) as [l' ->].
      destruct (generateKeyMetrics rnd indicator_ i wi). simpl. eauto. }
    unfold performVectorSearch, generateVectorSearchResults in *.
    rewrite Hbs in Hsearch. rewrite Hbs. exact Hsearch. }
  unfold generateVectorSearchResults in Hgen. unfold enhanceWithAIAnalysis in Henh.
  destruct (mapi_world_draws (searchResult rnd indicator_) 1 regions 0 w results w1
              (searchResult_draws indicator_) Hgen) as [Hd1 Hl1].
  destruct (mapi_world_draws (enhance rnd targetRegion_ indicator_) 2 results 0 w1
              enhanced w2 (enhance_draws targetRegion_ indicator_) Henh) as [Hd2 Hl2].
  exists enhanced. split; [reflexivity|]. split; [|split].
  - rewrite (mapi_world_map (enhance rnd targetRegion_ indicator_) region region
               results 0 w1 enhanced w2); [|intros; by eapply enhance_fields|exact Henh].
    eapply mapi_world_map; [|exact Hgen].
    intros a i wi b Hb. by eapply searchResult_fields.
  - intros i r Hr.
    destruct (mapi_world_lookup _ _ _ _ _ _ _ _ Henh Hr) as (r0 & wi & Hr0 & Hbody).
    destruct (enhance_fields _ _ _ _ _ _ Hbody) as (_ & Hsim & Hcorr).
    destruct (mapi_world_lookup _ _ _ _ _ _ _ _ Hgen Hr0) as (a & wj & Ha & Hbody0).
    destruct (searchResult_fields _ _ _ _ _ Hbody0) as (_ & Hsim0).
    rewrite Hsim, Hsim0, Hcorr. simpl. split; reflexivity.
  - rewrite Hd2, Hl1, Hd1. unfold regions. simpl. lia.
Qed.

End SearchFacts.

End VectorFacts.

(** X20, witness: a sine and a cosine that are constantly zero. *)
Lemma generateSemanticEmbedding_shape_witness :
  List.length (VectorSearchService.generateSemanticEmbedding
                 (fun _ => 0%Q) (fun _ => 0%Q) (314 # 100) "Bavaria" "co2" "5y")
  = 768%nat.
Proof.
  apply (proj1 (generateSemanticEmbedding_shape (fun _ => 0%Q) (fun _ => 0%Q) (314 # 100)
                  (fun _ => conj (ltac:(discriminate) : (-1 <= 0)%Q)
                                 (ltac:(discriminate) : (0 <= 1)%Q))
                  (fun _ => conj (ltac:(discriminate) : (-1 <= 0)%Q)
                                 (ltac:(discriminate) : (0 <= 1)%Q))
                  "Bavaria" "co2" "5y")).
Defined.

(** X22, witness: the first search on a fresh service. *)
Lemma uncached_search_witness :
  exists results,
    fst (VectorSearchService.findSimilarRegions always_half (fun _ => 0%Q)
           (fun _ => 0%Q) (314 # 100) "Bavaria" "co2" None
           (VectorSearchService.new, epoch)) = Resolved results
    /\ List.length results = 8%nat.
Proof.
  destruct (uncached_search_ranks_the_table always_half (fun _ => 0%Q)
              (fun _ => 0%Q) (314 # 100) "Bavaria" "co2" None
              VectorSearchService.new epoch ltac:(ordinary_name) (lookup_empty _))
    as (results & Hr & Hm & _).
  exists results. split; [exact Hr|].
  rewrite <- (length_map VectorSearchService.region), Hm. reflexivity.
Defined.

(** ** The engine around the forecast service *)

Section EngineFacts.

Import Engine.

Variable rnd : nat -> Q.
Hypothesis rnd_range : forall n, (0 <= rnd n)%Q /\ (rnd n < 1)%Q.
Variable month_of : Z -> Z.
Variable month_start : Z -> Z.
Hypothesis month_start_mono : forall a b, a < b -> month_start a < month_start b.
Variable Math_sin : Q -> Q.
Hypothesis sin_bounded : forall x, (-1 <= Math_sin x)%Q /\ (Math_sin x <= 1)%Q.
Variable Math_PI : Q.
Variable remote : string -> nat -> outcome BigQueryService.BQResponse.
Variable forecastQuery : list BigQueryService.DataRow -> found nat -> string.
Variable JSON_stringify : list BigQueryService.DataRow -> found nat -> string.

Local Abbreviation mockValue := (mockValue rnd Math_sin).
Local Abbreviation mockPoint := (mockPoint rnd month_start Math_sin).
Local Abbreviation generateMockForecast :=
  (generateMockForecast rnd month_of month_start Math_sin).
Local Abbreviation fetchClimateData :=
  (fetchClimateData rnd month_of month_start Math_sin Math_PI remote
     forecastQuery JSON_stringify).

Lemma mockValue_nonneg indicator_ i w : (0 <= fst (mockValue indicator_ i w))%Q.
Proof.
  assert (Hi : (0 <= inject_Z (Z.of_nat i))%Q).
  { rewrite <- (Zle_Qle 0). lia. }
  unfold Engine.mockValue. cbv zeta.
  repeat match goal with
         | |- context [String.eqb indicator_ ?k] =>
             destruct (String.eqb indicator_ k);
             [ match goal with |- context [Math_sin ?a] =>
                 destruct (sin_bounded a) end; cbn [fst]; lra | ]
         end.
  cbn [fst]. destruct (rnd_range (draws w)). lra.
Qed.

Lemma mockValue_world indicator_ i w :
  indicator_ ∈ ["co2"; "avg_temperature"; "gdp"; "renewable_adoption"] ->
  snd (mockValue indicator_ i w) = w.
Proof.
  intros H. unfold Engine.mockValue. cbv zeta.
  repeat (apply elem_of_cons in H as [-> | H]; [reflexivity|]).
  by apply elem_of_nil in H.
Qed.

Lemma mockPoint_ts year indicator_ i w :
  ts (fst (mockPoint year indicator_ i w)) = month_start ((year - 10) * 12 + Z.of_nat i).
Proof.
  unfold Engine.mockPoint. destruct (Engine.mockValue _ _ _ _ _) as [v w1].
  cbn [fst ts]. f_equal.
  pose proof (Z.div_mod (Z.of_nat i) 12 ltac:(lia)). lia.
Qed.

Lemma mockPoint_bounds year indicator_ i w :
  bounds_ok (fst (mockPoint year indicator_ i w)).
Proof.
  pose proof (mockValue_nonneg indicator_ i w) as Hv.
  unfold Engine.mockPoint. destruct (Engine.mockValue _ _ _ _ _) as [v w1].
  cbn [fst] in *. apply rounded_band_ok, Hv.
Qed.

Lemma for_range_pure {A} (body : nat -> World -> A * World) start n w :
  (forall i wi, snd (body i wi) = wi) ->
  snd (for_range body start n w) = w.
Proof.
  intros Hb. revert start w. induction n as [|n IH]; intros start w; simpl.
  - reflexivity.
  - pose proof (Hb start w) as H1. destruct (body start w) as [a w1]. simpl in H1.
    subst w1. specialize (IH (S start) w).
    destruct (for_range body (S start) n w) as [rest w2]. exact IH.
Qed.

(** X23.  The series the engine makes up when a fetch fails has 120
    points, one per month in ascending order starting ten years before the
    current one, each with a confidence band around its value; for the four
    known indicators it takes no random draw. *)
Theorem engine_mock_series_is_well_formed indicator_ w :
  let fc := fst (generateMockForecast indicator_ w) in
  List.length fc = 120%nat
  /\ series_ok fc
  /\ (forall k p, fc !! k = Some p ->
        ts p = month_start ((month_of (now w) / 12 - 10) * 12 + Z.of_nat k))
  /\ (indicator_ ∈ ["co2"; "avg_temperature"; "gdp"; "renewable_adoption"] ->
      snd (generateMockForecast indicator_ w) = w).
Proof.
  intros fc. subst fc. unfold Engine.generateMockForecast.
  set (body := mockPoint (month_of (now w) / 12) indicator_).
  assert (Hts : forall k p, fst (for_range body 0 120 w) !! k = Some p ->
            ts p = month_start ((month_of (now w) / 12 - 10) * 12 + Z.of_nat k)).
  { intros k p Hk.
    assert (Hlt : (k < 120)%nat).
    { rewrite <- (for_range_length body 0 120 w). eapply lookup_lt_Some, Hk. }
    destruct (for_range_lookup body 0 120 w k Hlt) as [wk Hwk].
    rewrite Hk in Hwk. injection Hwk as ->. apply mockPoint_ts. }
  split; [apply for_range_length|]. split; [split|split].
  - apply for_range_elem. intros i wi. apply mockPoint_bounds.
  - intros i p q Hp Hq. rewrite (Hts _ _ Hp), (Hts _ _ Hq).
    apply month_start_mono. lia.
  - exact Hts.
  - intros Hin. apply for_range_pure. intros i wi. unfold body, Engine.mockPoint.
    pose proof (mockValue_world indicator_ i wi Hin) as Hw.
    destruct (Engine.mockValue _ _ _ _ _) as [v w1]. exact Hw.
Qed.

(** X24.  A fetch always leaves a forecast in the engine's state, and the
    forecast it leaves does not depend on the one that was there before: the
    branch that would keep the old forecast (a rejected [generateForecast])
    is never taken. *)
Theorem fetch_always_replaces_the_forecast climateData imports forecastData s :
  is_Some (fst (fetchClimateData climateData imports forecastData s))
  /\ fetchClimateData climateData imports forecastData s
     = fetchClimateData climateData imports None s.
Proof.
  unfold Engine.fetchClimateData. cbv zeta.
  assert (Hmock : forall (error : exn),
            is_Some (fst (let '(mock, w1) :=
                            Engine.mockForecast rnd month_of month_start Math_sin
                              climateData (BigQueryService.world s) in
                          (Some mock,
                           BigQueryService.mkSys (BigQueryService.svc s)
                             (ErrorService.handleError (BigQueryService.err s) error)
                             w1)))).
  { intros error. destruct (Engine.mockForecast _ _ _ _ _ _) as [mock w1]. eauto. }
  destruct (negb _); [split; [apply Hmock|reflexivity]|].
  destruct imports as [[]|e]; [|split; [apply Hmock|reflexivity]].
  destruct (generateForecast_resolves rnd month_of month_start Math_sin Math_PI
              remote forecastQuery JSON_stringify
              (BigQueryService.mkRequest (indicator climateData) (region climateData)
                 (timeRange climateData) (mode climateData)) s)
    as (d & s' & -> & _).
  split; [eauto|reflexivity].
Qed.

(** X25.  Parameters that fail validation never reach the forecast
    service: whatever the imports would have done, the service (its cache
    included), the clock and the count of remote calls are as before, the
    INVALID_PARAMS error is handed to the error service, and the state
    receives the mock forecast. *)
Theorem invalid_parameters_never_reach_the_service climateData imports forecastData s :
  ErrorService.isValid (ErrorService.validateClimateData (asRecord climateData)) = false ->
  let r := fetchClimateData climateData imports forecastData s in
  BigQueryService.svc (snd r) = BigQueryService.svc s
  /\ calls (BigQueryService.world (snd r)) = calls (BigQueryService.world s)
  /\ now (BigQueryService.world (snd r)) = now (BigQueryService.world s)
  /\ BigQueryService.err (snd r)
     = ErrorService.handleError (BigQueryService.err s) (AppErr invalidParams)
  /\ exists mock,
       fst r = Some mock
       /\ forecast mock
          = fst (generateMockForecast (indicator climateData) (BigQueryService.world s)).
Proof.
  intros Hv r. subst r. unfold Engine.fetchClimateData. cbv zeta. rewrite Hv.
  cbn [negb]. unfold Engine.mockForecast.
  assert (Hw : forall n w,
            calls (snd (for_range (mockPoint (month_of (now (BigQueryService.world s)) / 12)
                                     (indicator climateData)) 0 n w)) = calls w
            /\ now (snd (for_range (mockPoint (month_of (now (BigQueryService.world s)) / 12)
                                      (indicator climateData)) 0 n w)) = now w).
  { intros n. generalize 0%nat. induction n as [|n IH]; intros start w; [done|].
    simpl. unfold Engine.mockPoint at 1 3. unfold Engine.mockValue.
    repeat match goal with
           | |- context [String.eqb ?a ?k] => destruct (String.eqb a k)
           end;
      specialize (IH (S start));
      match goal with |- context [for_range _ (S start) n ?w'] =>
        specialize (IH w'); destruct (for_range _ (S start) n w') as [rest w2]
      end; exact IH. }
  unfold Engine.generateMockForecast.
  specialize (Hw 120%nat (BigQueryService.world s)).
  destruct (for_range _ 0 120 _) as [fc w1]. cbn [fst snd] in *.
  destruct Hw as [Hc Hn].
  repeat split; try assumption. eexists. split; reflexivity.
Qed.

End EngineFacts.

(** X23, witness: the mock CO2 series in the sample environment. *)
Lemma engine_mock_series_witness :
  List.length (fst (Engine.generateMockForecast always_half thirty_day_month_of
                      thirty_day_month_start flat_sine "co2" epoch)) = 120%nat.
Proof.
  apply (proj1 (engine_mock_series_is_well_formed always_half
                  (fun n => conj (ltac:(discriminate) : (0 <= always_half n)%Q)
                                 (ltac:(reflexivity) : (always_half n < 1)%Q))
                  thirty_day_month_of thirty_day_month_start
                  (fun a b H => ltac:(unfold thirty_day_month_start; lia))
                  flat_sine
                  (fun x => conj (ltac:(discriminate) : (-1 <= flat_sine x)%Q)
                                 (ltac:(discriminate) : (flat_sine x <= 1)%Q))
                  "co2" epoch)).
Defined.

(** X25, witness: a fetch for an indicator the dashboard does not know. *)
Lemma invalid_parameters_witness :
  BigQueryService.svc
    (snd (Engine.fetchClimateData always_half thirty_day_month_of
            thirty_day_month_start flat_sine 3%Q always_throws
            (fun _ _ => "SELECT 1") (fun _ _ => "{}")
            (Engine.mkClimateData "methane" "Germany" BigQueryService.bigquery "5y")
            (Resolved tt) None fresh_system))
  = BigQueryService.svc fresh_system.
Proof.
  apply (proj1 (invalid_parameters_never_reach_the_service always_half
                  thirty_day_month_of thirty_day_month_start flat_sine 3%Q always_throws
                  (fun _ _ => "SELECT 1") (fun _ _ => "{}")
                  (Engine.mkClimateData "methane" "Germany" BigQueryService.bigquery "5y")
                  (Resolved tt) None fresh_system ltac:(vm_compute; reflexivity))).
Defined.

(** ** Which failures a caller sees *)

Section FailureModes.

Import Engine.

Variable rnd : nat -> Q.
Variable month_of : Z -> Z.
Variable month_start : Z -> Z.
Variable Math_sin : Q -> Q.
Variable Math_PI : Q.
Variable remote : string -> nat -> outcome BigQueryService.BQResponse.
Variable forecastQuery : list BigQueryService.DataRow -> found nat -> string.
Variable JSON_stringify : list BigQueryService.DataRow -> found nat -> string.

Local Abbreviation generateForecast :=
  (BigQueryService.generateForecast rnd month_of month_start Math_sin Math_PI
     remote forecastQuery JSON_stringify).
Local Abbreviation fetchClimateData :=
  (fetchClimateData rnd month_of month_start Math_sin Math_PI remote
     forecastQuery JSON_stringify).

Lemma executeBigQueryAI_rejection query s e :
  fst (BigQueryService.executeBigQueryAI remote query s) = Rejected e ->
  exists a, e = AppErr a /\ code a = "BIGQUERY_EXECUTION_ERROR" /\ category a = API.
Proof.
  unfold BigQueryService.executeBigQueryAI. cbv zeta.
  destruct (if ErrorService.isValid _ then _ else _) as [[response|error] [es1 w1]];
    cbn [fst]; [discriminate|].
  intros [= <-]. eexists. split; [reflexivity|]. done.
Qed.

Lemma executeBigQueryAI_short query s :
  (String.length query < 10)%nat ->
  exists e, fst (BigQueryService.executeBigQueryAI remote query s) = Rejected e.
Proof.
  intros Hshort. unfold BigQueryService.executeBigQueryAI.
  destruct (ErrorService.isValid _) eqn:Hv.
  - apply query_valid_iff in Hv. lia.
  - eexists. reflexivity.
Qed.

Lemma fetchClimateData_absorbs climateData imports forecastData s :
  is_Some (fst (fetchClimateData climateData imports forecastData s)).
Proof.
  unfold Engine.fetchClimateData. cbv zeta.
  assert (Hmock : forall (error : exn),
            is_Some (fst (let '(mock, w1) :=
                            Engine.mockForecast rnd month_of month_start Math_sin
                              climateData (BigQueryService.world s) in
                          (Some mock,
                           BigQueryService.mkSys (BigQueryService.svc s)
                             (ErrorService.handleError (BigQueryService.err s) error)
                             w1)))).
  { intros error. destruct (Engine.mockForecast _ _ _ _ _ _) as [mock w1]. eauto. }
  destruct (negb _); [apply Hmock|].
  destruct imports as [[]|e]; [|apply Hmock].
  destruct (generateForecast_resolves rnd month_of month_start Math_sin Math_PI
              remote forecastQuery JSON_stringify
              (BigQueryService.mkRequest (indicator climateData) (region climateData)
                 (timeRange climateData) (mode climateData)) s)
    as (d & s' & -> & _).
  eauto.
Qed.

Lemma fetchClimateData_invalid climateData imports forecastData s :
  ErrorService.isValid (ErrorService.validateClimateData (asRecord climateData)) = false ->
  BigQueryService.err (snd (fetchClimateData climateData imports forecastData s))
  = ErrorService.handleError (BigQueryService.err s) (AppErr invalidParams)
  /\ exists w,
       fst (fetchClimateData climateData imports forecastData s)
       = Some (fst (Engine.mockForecast rnd month_of month_start Math_sin
                      climateData w)).
Proof.
  intros Hv. unfold Engine.fetchClimateData. cbv zeta. rewrite Hv. cbn [negb].
  destruct (Engine.mockForecast _ _ _ _ _ (BigQueryService.world s))
    as [mock w1] eqn:Hm.
  split; [reflexivity|]. exists (BigQueryService.world s). by rewrite Hm.
Qed.

(** C1, as amended.  For every request and every remote, a throwing one
    included, [generateForecast] resolves, with the demo generator's series
    or with the formatted rows of a backend answer; it never rejects.  The
    failures a caller does see are not typed VALIDATION: whenever
    [executeBigQueryAI] rejects, a failed validation of the query included,
    the error is BIGQUERY_EXECUTION_ERROR of category API, and a query of
    fewer than ten characters makes it reject.  And the engine hands no
    failure to its caller at all: with parameters that fail validation, the
    INVALID_PARAMS error, of category VALIDATION, goes to the error service
    and the state receives the mock forecast. *)
Theorem generateForecast_always_resolves :
  (forall request s,
      exists d s',
        generateForecast request s = (Resolved d, s')
        /\ demo_or_formatted rnd month_of month_start request d)
  /\ (forall request s e, fst (generateForecast request s) <> Rejected e)
  /\ (forall query s e,
        fst (BigQueryService.executeBigQueryAI remote query s) = Rejected e ->
        exists a,
          e = AppErr a /\ code a = "BIGQUERY_EXECUTION_ERROR" /\ category a = API)
  /\ (forall query s,
        (String.length query < 10)%nat ->
        exists e, fst (BigQueryService.executeBigQueryAI remote query s) = Rejected e)
  /\ (forall climateData imports forecastData s,
        is_Some (fst (fetchClimateData climateData imports forecastData s)))
  /\ (forall climateData imports forecastData s,
        ErrorService.isValid (ErrorService.validateClimateData (asRecord climateData))
        = false ->
        category invalidParams = VALIDATION
        /\ BigQueryService.err (snd (fetchClimateData climateData imports forecastData s))
           = ErrorService.handleError (BigQueryService.err s) (AppErr invalidParams)
        /\ exists w,
             fst (fetchClimateData climateData imports forecastData s)
             = Some (fst (Engine.mockForecast rnd month_of month_start Math_sin
                            climateData w))).
Proof.
  split; [|split; [|split; [|split; [|split]]]].
  - apply generateForecast_resolves.
  - intros request s e.
    destruct (generateForecast_resolves rnd month_of month_start Math_sin Math_PI
                remote forecastQuery JSON_stringify request s) as (d & s' & -> & _).
    discriminate.
  - apply executeBigQueryAI_rejection.
  - apply executeBigQueryAI_short.
  - apply fetchClimateData_absorbs.
  - intros climateData imports forecastData s Hv. split; [reflexivity|].
    by apply fetchClimateData_invalid.
Qed.

End FailureModes.

(** C1, the claim as stated fails in its last clause.  A caller of the
    gateway who sends the query SELECT 1 gets a rejection of category API,
    not a typed VALIDATION error; and a caller of the engine who asks for an
    indicator the validation does not know gets no error at all, but a
    forecast, while the VALIDATION error goes to the log. *)
Lemma gateway_rejects_with_api_error_engine_absorbs_validation :
  let unknown :=
    Engine.mkClimateData "methane" "Germany" BigQueryService.bigquery "5y" in
  let fetched :=
    Engine.fetchClimateData always_half thirty_day_month_of
      thirty_day_month_start flat_sine 3%Q always_throws
      (fun _ _ => "SELECT 1") (fun _ _ => "{}") unknown (Resolved tt) None
      fresh_system in
  (exists a,
      fst (BigQueryService.executeBigQueryAI always_throws "SELECT 1" fresh_system)
      = Rejected (AppErr a)
      /\ category a = API
      /\ category a <> VALIDATION)
  /\ ErrorService.isValid (ErrorService.validateClimateData (Engine.asRecord unknown))
     = false
  /\ is_Some (fst fetched)
  /\ BigQueryService.err (snd fetched)
     = ErrorService.handleError (BigQueryService.err fresh_system)
         (AppErr Engine.invalidParams).
Proof.
  intros unknown fetched.
  assert (Hv : ErrorService.isValid
                 (ErrorService.validateClimateData (Engine.asRecord unknown)) = false).
  { vm_compute. reflexivity. }
  split; [|split; [exact Hv|]].
  - eexists. split; [vm_compute; reflexivity|]. split; [reflexivity|discriminate].
  - subst fetched. unfold Engine.fetchClimateData. cbv zeta. rewrite Hv. cbn [negb].
    destruct (Engine.mockForecast _ _ _ _ _ _) as [mock w1]. split; [eauto|reflexivity].
Qed.

(** ** What the forecast cache holds *)

Section CacheReuse.

Import BigQueryService.

Variable rnd : nat -> Q.
Variable Math_sin : Q -> Q.
Variable Math_PI : Q.
Variable remote : string -> nat -> outcome BQResponse.
Variable forecastQuery : list DataRow -> found nat -> string.
Variable JSON_stringify : list DataRow -> found nat -> string.

Local Abbreviation forecastTimeSeries :=
  (forecastTimeSeries rnd Math_sin Math_PI remote forecastQuery JSON_stringify).



End CacheReuse.

